(** * FlowdexMCP: protocol selection, tree walk and sync engine

    Shallow embedding of the core of [src/index.js]: [isSFTP], [getPort],
    [shouldIgnore], [loadIgnorePatterns], [getTreeRecursive], [syncFiles]
    and the [ftp_exists] / [ftp_copy] request handlers.

    Conventions.
    - A JS string is a [string]; a JS number holding a count is a [nat],
      a port or a time value in milliseconds is a [Z].
    - [undefined] is [None] of an [option].
    - An [await]ed call on the remote client is a computation in the monad
      [M W A := W -> Result A * W]: [W] is the state of the remote side
      (and of the connection), a rejected promise is [Throw e], and the
      state reached before the rejection is kept, as it is in JS.
    - What the code imports is a parameter: the methods of the two client
      classes are the class [Client], [path], [minimatch], [fs.readFile]
      and [Date] parsing the class [NodeEnv], [parseInt] a Section
      variable. The local directory tree a sync reads is a value of type
      [LNode]. *)

From Stdlib Require Import String Ascii List ZArith Bool Arith Lia DecimalString.
Import ListNotations.
Local Open Scope list_scope.
Local Open Scope string_scope.

Set Implicit Arguments.

(** ** JS strings *)

Module JSString.

(** [s.startsWith(p)] *)
Fixpoint startsWith (p s : string) : bool :=
  match p, s with
  | EmptyString, _ => true
  | String a p', String b s' => if Ascii.eqb a b then startsWith p' s' else false
  | String _ _, EmptyString => false
  end.

(** [s.includes(sub)] *)
Fixpoint includes (sub s : string) : bool :=
  startsWith sub s ||
  match s with
  | EmptyString => false
  | String _ s' => includes sub s'
  end.

(** Truthiness of a string: only the empty string is falsy. *)
Definition truthy (s : string) : bool :=
  match s with EmptyString => false | String _ _ => true end.

(** [s.lastIndexOf(c)] for a one-character needle, [-1] when absent. *)
Fixpoint lastIndexOf (c : ascii) (s : string) : Z :=
  match s with
  | EmptyString => (-1)%Z
  | String a s' =>
      let r := lastIndexOf c s' in
      if (0 <=? r)%Z then (r + 1)%Z
      else if Ascii.eqb a c then 0%Z else (-1)%Z
  end.

(** [s.substring(a, b)] with integer arguments: negative arguments are
    clamped to 0, arguments past the end to the length, and the two are
    swapped when [a > b]. *)
Definition clamp (len i : Z) : nat := Z.to_nat (Z.min (Z.max 0 i) len).

Definition substring2 (s : string) (a b : Z) : string :=
  let len := Z.of_nat (String.length s) in
  let a' := clamp len a in
  let b' := clamp len b in
  let lo := Nat.min a' b' in
  let hi := Nat.max a' b' in
  String.substring lo (hi - lo) s.

(** [s.substring(a)] *)
Definition substring1 (s : string) (a : Z) : string :=
  substring2 s a (Z.of_nat (String.length s)).

(** [s.replace(/\\/g, '/')] *)
Fixpoint backslashToSlash (s : string) : string :=
  match s with
  | EmptyString => EmptyString
  | String a s' =>
      String (if Ascii.eqb a "\"%char then "/"%char else a) (backslashToSlash s')
  end.

End JSString.

(** ** Connection parameters: [getPort], [isSFTP] *)

Module Conn.
Import JSString.

(** The value of [config.port]: a JSON number, or a string when it comes
    from the environment. A number is taken to be an integer below 10^21
    in absolute value, as port numbers are: [String] writes such a number
    in plain decimal digits, which [parseInt] reads back unchanged. *)
Inductive PortSetting :=
| PortNum (n : Z)
| PortStr (s : string).

Definition port_truthy (p : PortSetting) : bool :=
  match p with
  | PortNum n => negb (n =? 0)%Z
  | PortStr s => truthy s
  end.

Inductive Protocol := SFTP | FTP.

Section WithParseInt.

(** [parseInt] on a string; [None] is NaN. *)
Variable parseIntStr : string -> option Z.

Definition parseInt (p : PortSetting) : option Z :=
  match p with
  | PortNum n => Some n
  | PortStr s => parseIntStr s
  end.

(** The test both functions share:
    [host && (host.includes('sftp') || host.startsWith('sftp://'))],
    read as a condition. [None] is an undefined host. *)
Definition hostSaysSFTP (host : option string) : bool :=
  match host with
  | None => false
  | Some h => truthy h && (includes "sftp" h || startsWith "sftp://" h)
  end.

Definition getPort (host : option string) (configPort : option PortSetting)
  : option Z :=
  match configPort with
  | Some p =>
      if port_truthy p then parseInt p
      else if hostSaysSFTP host then Some 22%Z else Some 21%Z
  | None => if hostSaysSFTP host then Some 22%Z else Some 21%Z
  end.

Definition isSFTP (host : option string) : bool := hostSaysSFTP host.

(** [const useSFTP = isSFTP(currentConfig.host);
     client = useSFTP ? await connectSFTP(..) : await connectFTP(..)] *)
Definition selectProtocol (host : option string) : Protocol :=
  if isSFTP host then SFTP else FTP.

End WithParseInt.

End Conn.

(** ** Errors, results and the monad of awaited calls *)

(** A thrown [Error]: its [message], and the kind of failure it reports.
    The code never branches on the kind (it only reads [error.message]);
    the kind is carried so that the properties can speak about it. *)
Inductive ErrKind :=
| NotFound | PermissionDenied | Unsupported | ConnectionFailed
| ConfigurationError | TransferError | OtherError.

Record Error := mkError { kind : ErrKind; message : string }.

Inductive Result (A : Type) :=
| Ok (a : A)
| Throw (e : Error).
Arguments Ok {A} a.
Arguments Throw {A} e.

Definition M (S A : Type) : Type := S -> Result A * S.

Definition ret {S A} (a : A) : M S A := fun s => (Ok a, s).

Definition throw {S A} (e : Error) : M S A := fun s => (Throw e, s).

Definition bind {S A B} (m : M S A) (k : A -> M S B) : M S B :=
  fun s =>
    match m s with
    | (Ok a, s') => k a s'
    | (Throw e, s') => (Throw e, s')
    end.

(** [try { m } catch (e) { handler e }] *)
Definition tryCatch {S A} (m : M S A) (handler : Error -> M S A) : M S A :=
  fun s =>
    match m s with
    | (Ok a, s') => (Ok a, s')
    | (Throw e, s') => handler e s'
    end.

(** A value that is already settled. *)
Definition liftR {S A} (r : Result A) : M S A := fun s => (r, s).

Declare Scope js_scope.
Delimit Scope js_scope with js.
Notation "x <- m ;; k" := (bind m (fun x => k))
  (at level 61, m at next level, right associativity) : js_scope.
Notation "m ;;; k" := (bind m (fun _ => k))
  (at level 61, right associativity) : js_scope.
Local Open Scope js_scope.

(** [for (const x of l) { acc = body x acc }], stopping at the first throw. *)
Definition forEach {S A B} (body : A -> B -> M S B)
  : list A -> B -> M S B :=
  fix loop (l : list A) (acc : B) : M S B :=
    match l with
    | [] => ret acc
    | x :: l' => acc' <- body x acc ;; loop l' acc'
    end.

(** A block with a mutable local object [L] next to the outer state. *)
Definition liftW {L W A} (m : M W A) : M (L * W) A :=
  fun lw => let (r, w') := m (snd lw) in (r, (fst lw, w')).

Definition modify {L W} (f : L -> L) : M (L * W) unit :=
  fun lw => (Ok tt, (f (fst lw), snd lw)).

Definition getLocal {L W} : M (L * W) L :=
  fun lw => (Ok (fst lw), lw).

(** [const l = init; body; return value] : the local object is dropped
    when the block returns or throws. *)
Definition withLocal {L W A} (init : L) (body : M (L * W) A) : M W A :=
  fun w => let (r, lw) := body (init, w) in (r, snd lw).

(** ** Remote entries and the client *)

(** The time value of a [Date], or a number of milliseconds; [Invalid] is
    NaN (an Invalid Date). *)
Inductive TimeVal :=
| Valid (ms : Z)
| Invalid.

(** An object returned by [client.list] or [client.stat]. The two client
    libraries fill different fields: ssh2-sftp-client gives [type] and
    [modifyTime], basic-ftp gives [isDirectory], [modifiedAt] and
    [rawModifiedAt]; a field a library does not set is [None]. *)
Record FileInfo := mkFileInfo {
  fi_name : string;
  fi_type : option string;
  fi_isDirectory : option bool;
  fi_size : Z;
  fi_modifyTime : option Z;
  fi_date : option string;
  fi_modifiedAt : option TimeVal;
  fi_rawModifiedAt : option string
}.

Definition Buffer := string.

(** First argument of [client.put] / [client.uploadFrom]. *)
Inductive Source :=
| FromPath (localPath : string)
| FromBuffer (content : Buffer).

(** The methods the code calls on [client], over a remote state [W]. Which
    ones are called is decided by [useSFTP] at each call site. *)
Class Client (W : Type) := {
  client_list : string -> M W (list FileInfo);
  client_stat : string -> M W FileInfo;
  client_mkdir : string -> bool -> M W unit;
  client_ensureDir : string -> M W unit;
  client_put : Source -> string -> M W unit;
  client_uploadFrom : Source -> string -> M W unit;
  client_get : string -> M W Buffer
}.

(** ** TreeWalker: [getTreeRecursive] *)

Module Tree.

(** The value of [file.modifyTime || file.date]. *)
Inductive Modified :=
| ModNumber (n : Z)
| ModString (s : string)
| ModUndefined.

Record TreeEntry := mkTreeEntry {
  path : string;
  name : string;
  isDirectory : bool;
  size : Z;
  modified : Modified
}.

(** [useSFTP ? file.type === 'd' : file.isDirectory], as a condition. *)
Definition isDirOf (useSFTP : bool) (file : FileInfo) : bool :=
  if useSFTP then
    match fi_type file with Some t => String.eqb t "d" | None => false end
  else
    match fi_isDirectory file with Some b => b | None => false end.

Definition fullPathOf (remotePath fileName : string) : string :=
  if String.eqb remotePath "." then fileName else remotePath ++ "/" ++ fileName.

Definition modifiedOf (file : FileInfo) : Modified :=
  match fi_modifyTime file with
  | Some n => if (n =? 0)%Z then
                match fi_date file with Some d => ModString d | None => ModUndefined end
              else ModNumber n
  | None => match fi_date file with Some d => ModString d | None => ModUndefined end
  end.

Definition entryOf (useSFTP : bool) (remotePath : string) (file : FileInfo)
  : TreeEntry :=
  {| path := fullPathOf remotePath (fi_name file);
     name := fi_name file;
     isDirectory := isDirOf useSFTP file;
     size := fi_size file;
     modified := modifiedOf file |}.

(** [isDir && fileName !== '.' && fileName !== '..'] *)
Definition descends (useSFTP : bool) (file : FileInfo) : bool :=
  isDirOf useSFTP file
  && negb (String.eqb (fi_name file) ".")
  && negb (String.eqb (fi_name file) "..").

Section WithClient.
Context {W : Type} `{Client W}.

(** One iteration of the [for] loop of [getTreeRecursive]; [recurse] is the
    recursive call [getTreeRecursive(client, useSFTP, fullPath, depth + 1,
    maxDepth)]. *)
Definition treeStep (recurse : string -> M W (list TreeEntry))
  (useSFTP : bool) (remotePath : string)
  (file : FileInfo) (results : list TreeEntry) : M W (list TreeEntry) :=
  let fullPath := fullPathOf remotePath (fi_name file) in
  let results := (results ++ [entryOf useSFTP remotePath file])%list in
  if descends useSFTP file then
    children <- recurse fullPath ;;
    ret (results ++ children)%list
  else ret results.

(** The walk with [k] levels left: [k = 0] is the guard
    [if (depth > maxDepth) return []]. *)
Fixpoint walk (k : nat) (useSFTP : bool) (remotePath : string)
  : M W (list TreeEntry) :=
  match k with
  | O => ret []
  | S k' =>
      files <- client_list remotePath ;;
      forEach (treeStep (walk k' useSFTP) useSFTP remotePath) files []
  end.

(** [getTreeRecursive(client, useSFTP, remotePath, depth, maxDepth)]. The
    recursion of the source decreases [maxDepth + 1 - depth]; the source's
    own equation is [getTreeRecursive_eq] below. *)
Definition getTreeRecursive (useSFTP : bool) (remotePath : string)
  (depth maxDepth : Z) : M W (list TreeEntry) :=
  walk (Z.to_nat (maxDepth + 1 - depth)) useSFTP remotePath.

(** What a listing shows when it is the pure function [ls] of the path;
    a listing that fails shows nothing. *)
Definition listingOf (ls : string -> Result (list FileInfo)) (p : string)
  : list FileInfo :=
  match ls p with Ok l => l | Throw _ => [] end.

(** The entries [d] directory levels below [startPath], when every listing
    is the pure function [ls] of the path: level 0 is the listing of
    [startPath], level [d + 1] the listings of the directories of level
    [d] the walk descends into. *)
Fixpoint dirsAtDepth (ls : string -> list FileInfo) (useSFTP : bool)
  (startPath : string) (d : nat) : list string :=
  match d with
  | O => [startPath]
  | S d' =>
      flat_map
        (fun dir =>
           map (fun f => fullPathOf dir (fi_name f))
               (filter (descends useSFTP) (ls dir)))
        (dirsAtDepth ls useSFTP startPath d')
  end.

Definition entriesAtDepth (ls : string -> list FileInfo) (useSFTP : bool)
  (startPath : string) (d : nat) : list TreeEntry :=
  flat_map (fun dir => map (entryOf useSFTP dir) (ls dir))
           (dirsAtDepth ls useSFTP startPath d).

(** What a run of the walk from the state [w0] yields when listings are
    the function [ls]: the state is [w0] again and, when no listing
    failed, the entries are those of the first [k] levels below [q]. *)
Definition walksLevelsOf (ls : string -> Result (list FileInfo)) (w0 : W)
  (k : nat) (useSFTP : bool) (q : string)
  (run : Result (list TreeEntry) * W) : Prop :=
  snd run = w0 /\
  forall res, fst run = Ok res -> forall e,
    In e res <->
    exists d, d < k /\ In e (entriesAtDepth (listingOf ls) useSFTP q d).

End WithClient.

End Tree.

(** ** The Node runtime: [path], [minimatch], [fs.readFile], [Date] *)

Record MinimatchOptions := { dot : bool; matchBase : bool }.

Class NodeEnv := {
  path_join : string -> string -> string;
  path_relative : string -> string -> string;
  path_basename : string -> string;
  minimatch : string -> string -> MinimatchOptions -> bool;
  (** [fs.readFile(p, 'utf8')] *)
  readFile : string -> Result string;
  (** the time value of [new Date(s)] for a string [s] *)
  dateParse : string -> TimeVal
}.

(** The local directory tree as [fs.readdir(.., { withFileTypes: true })]
    and [fs.stat] show it. A node carries its [Dirent] name; a directory
    ([file.isDirectory()]) carries the outcome of reading it, any other
    entry the outcome of [fs.stat] on it, reduced to its [mtime]. The sync
    only reads the local tree. *)
#[local] Unset Elimination Schemes.
Inductive LNode :=
| LFile (name : string) (stat : Result TimeVal)
| LDir (name : string) (readdir : Result (list LNode)).
#[local] Set Elimination Schemes.

Definition lname (file : LNode) : string :=
  match file with LFile n _ => n | LDir n _ => n end.

(** ** IgnoreMatcher: [loadIgnorePatterns], [shouldIgnore] *)

Module Ignore.
Import JSString.

Definition DEFAULT_IGNORE_PATTERNS : list string :=
  [ "node_modules/**"; ".git/**"; ".env"; ".env.*"; "*.log"; ".DS_Store";
    "Thumbs.db"; ".vscode/**"; ".idea/**"; "*.swp"; "*.swo"; "*~";
    ".ftpconfig"; "npm-debug.log*"; "yarn-debug.log*"; "yarn-error.log*";
    ".npm"; ".cache/**"; "coverage/**"; ".nyc_output/**"; "*.pid";
    "*.seed"; "*.pid.lock" ].

(** [content.split('\n')] *)
Fixpoint splitLines (s : string) : list string :=
  match s with
  | EmptyString => [EmptyString]
  | String a s' =>
      if Ascii.eqb a "010"%char then EmptyString :: splitLines s'
      else match splitLines s' with
           | [] => [String a EmptyString]
           | l :: ls => String a l :: ls
           end
  end.

(** A string is held as the bytes of its UTF-8 encoding. [trim] removes
    the characters of the WhiteSpace and LineTerminator productions of
    ECMAScript from both ends of a string. Six of them take one byte: TAB,
    LF, VT, FF, CR and the space. *)
Definition isSpace (a : ascii) : bool :=
  let n := nat_of_ascii a in
  ((n =? 32) || ((9 <=? n) && (n <=? 13)))%nat.

(** U+00A0, the no-break space: bytes C2 A0. *)
Definition isSpace2 (a b : ascii) : bool :=
  ((nat_of_ascii a =? 194) && (nat_of_ascii b =? 160))%nat.

(** The white space of three bytes: U+1680 (E1 9A 80), U+2000 to U+200A
    (E2 80 80 to E2 80 8A), U+2028, U+2029 and U+202F (E2 80 A8, A9, AF),
    U+205F (E2 81 9F), U+3000 (E3 80 80) and U+FEFF (EF BB BF). *)
Definition isSpace3 (a b c : ascii) : bool :=
  let x := nat_of_ascii a in
  let y := nat_of_ascii b in
  let z := nat_of_ascii c in
  (((x =? 225) && (y =? 154) && (z =? 128))
   || ((x =? 226) && (y =? 128)
       && (((128 <=? z) && (z <=? 138))
           || (z =? 168) || (z =? 169) || (z =? 175)))
   || ((x =? 226) && (y =? 129) && (z =? 159))
   || ((x =? 227) && (y =? 128) && (z =? 128))
   || ((x =? 239) && (y =? 187) && (z =? 191)))%nat.

(** What follows the white-space character [s] starts with; [None] when
    [s] does not start with one. *)
Definition afterSpace (s : string) : option string :=
  match s with
  | EmptyString => None
  | String a s1 =>
      if isSpace a then Some s1
      else match s1 with
           | EmptyString => None
           | String b s2 =>
               if isSpace2 a b then Some s2
               else match s2 with
                    | EmptyString => None
                    | String c s3 =>
                        if isSpace3 a b c then Some s3 else None
                    end
           end
  end.

(** Drops the white space at the start. *)
Fixpoint trimStart (s : string) : string :=
  match s with
  | EmptyString => EmptyString
  | String a s1 =>
      if isSpace a then trimStart s1
      else match s1 with
           | EmptyString => s
           | String b s2 =>
               if isSpace2 a b then trimStart s2
               else match s2 with
                    | EmptyString => s
                    | String c s3 =>
                        if isSpace3 a b c then trimStart s3 else s
                    end
           end
  end.

(** [s] is made of white-space characters only. *)
Fixpoint allSpace (s : string) : bool :=
  match s with
  | EmptyString => true
  | String a s1 =>
      if isSpace a then allSpace s1
      else match s1 with
           | EmptyString => false
           | String b s2 =>
               if isSpace2 a b then allSpace s2
               else match s2 with
                    | EmptyString => false
                    | String c s3 => isSpace3 a b c && allSpace s3
                    end
           end
  end.

(** Drops the white space at the end: the string is cut where what
    remains is white space only. *)
Fixpoint trimEnd (s : string) : string :=
  match s with
  | EmptyString => EmptyString
  | String a s' =>
      if allSpace (String a s') then EmptyString
      else String a (trimEnd s')
  end.

Definition trim (s : string) : string := trimEnd (trimStart s).

(** [content.split('\n').map(line => line.trim())
       .filter(line => line && !line.startsWith('#'))] *)
Definition parseIgnoreFile (content : string) : list string :=
  filter (fun line => truthy line && negb (startsWith "#" line))
         (map trim (splitLines content)).

Section WithEnv.
Context `{NodeEnv}.

(** A file that cannot be read adds no pattern. *)
Definition patternsOf (file : string) : list string :=
  match readFile file with
  | Ok content => parseIgnoreFile content
  | Throw _ => []
  end.

Definition loadIgnorePatterns (localPath : string) : list string :=
  (DEFAULT_IGNORE_PATTERNS
   ++ patternsOf (path_join localPath ".ftpignore")
   ++ patternsOf (path_join localPath ".gitignore"))%list.

(** The two tests [shouldIgnore] makes for one pattern. *)
Definition patternMatches (relativePath baseName pattern : string) : bool :=
  minimatch relativePath pattern {| dot := true; matchBase := true |}
  || minimatch baseName pattern {| dot := true; matchBase := false |}.

Definition relativePathOf (basePath filePath : string) : string :=
  backslashToSlash (path_relative basePath filePath).

(** The loop returns [true] at the first pattern for which one of the two
    tests holds, [false] when it runs out of patterns. *)
Definition shouldIgnore (filePath : string) (ignorePatterns : list string)
  (basePath : string) : bool :=
  existsb (patternMatches (relativePathOf basePath filePath)
                          (path_basename filePath))
          ignorePatterns.

End WithEnv.

End Ignore.

(** ** SyncEngine: [syncFiles] *)

Module Sync.
Import Ignore.

Record Stats := mkStats {
  uploaded : nat;
  downloaded : nat;
  skipped : nat;
  errors : list string;
  ignored : nat
}.

Definition initStats : Stats :=
  {| uploaded := 0; downloaded := 0; skipped := 0; errors := []; ignored := 0 |}.

Definition incIgnored (s : Stats) : Stats :=
  {| uploaded := uploaded s; downloaded := downloaded s; skipped := skipped s;
     errors := errors s; ignored := ignored s + 1 |}.

Definition incSkipped (s : Stats) : Stats :=
  {| uploaded := uploaded s; downloaded := downloaded s;
     skipped := skipped s + 1; errors := errors s; ignored := ignored s |}.

Definition incUploaded (s : Stats) : Stats :=
  {| uploaded := uploaded s + 1; downloaded := downloaded s;
     skipped := skipped s; errors := errors s; ignored := ignored s |}.

Definition pushError (msg : string) (s : Stats) : Stats :=
  {| uploaded := uploaded s; downloaded := downloaded s; skipped := skipped s;
     errors := (errors s ++ [msg])%list; ignored := ignored s |}.

(** The five statements that fold a sub-report into [stats]. *)
Definition addSubStats (subStats s : Stats) : Stats :=
  {| uploaded := uploaded s + uploaded subStats;
     downloaded := downloaded s + downloaded subStats;
     skipped := skipped s + skipped subStats;
     errors := (errors s ++ errors subStats)%list;
     ignored := ignored s + ignored subStats |}.

(** [localStat.mtime <= remoteTime]: false when either side is NaN. *)
Definition timeLe (a b : TimeVal) : bool :=
  match a, b with
  | Valid x, Valid y => (x <=? y)%Z
  | _, _ => false
  end.

Section WithEnv.
Context {W : Type} `{Client W} `{NodeEnv}.

(** [new Date(remoteStat.rawModifiedAt)] *)
Definition newDate (raw : option string) : TimeVal :=
  match raw with Some s => dateParse s | None => Invalid end.

(** [remoteStat.modifyTime || remoteStat.modifiedAt
     || new Date(remoteStat.rawModifiedAt)]: a number is falsy when it is
    0, a [Date] object never is. *)
Definition remoteTimeOf (remoteStat : FileInfo) : TimeVal :=
  let rest :=
    match fi_modifiedAt remoteStat with
    | Some d => d
    | None => newDate (fi_rawModifiedAt remoteStat)
    end in
  match fi_modifyTime remoteStat with
  | Some n => if (n =? 0)%Z then rest else Valid n
  | None => rest
  end.

(** [useSFTP ? await client.stat(remoteFilePath)
             : (await client.list(remotePath)).find(f => f.name === file.name)] *)
Definition remoteLookup (useSFTP : bool) (remotePath remoteFilePath fileName : string)
  : M W (option FileInfo) :=
  if useSFTP then
    remoteStat <- client_stat remoteFilePath ;; ret (Some remoteStat)
  else
    files <- client_list remotePath ;;
    ret (find (fun f => String.eqb (fi_name f) fileName) files).

(** The inner [try { .. } catch (e) { }] of the file branch; its value is
    the [shouldUpload] flag it leaves. *)
Definition decideUpload (useSFTP : bool) (remotePath remoteFilePath fileName : string)
  (mtime : TimeVal) : M (Stats * W) bool :=
  tryCatch
    (remoteStat <- liftW (remoteLookup useSFTP remotePath remoteFilePath fileName) ;;
     match remoteStat with
     | Some rs =>
         if timeLe mtime (remoteTimeOf rs)
         then modify incSkipped ;;; ret false
         else ret true
     | None => ret true
     end)
    (fun _ => ret true).

Definition transfer (useSFTP : bool) (localFilePath remoteFilePath : string)
  : M W unit :=
  if useSFTP then client_put (FromPath localFilePath) remoteFilePath
  else client_uploadFrom (FromPath localFilePath) remoteFilePath.

Definition ensureRemoteDir (useSFTP : bool) (remoteFilePath : string) : M W unit :=
  if useSFTP then client_mkdir remoteFilePath true
  else client_ensureDir remoteFilePath.

(** [if (extraExclude.length > 0)
      ignorePatterns = [...ignorePatterns, ...extraExclude]] *)
Definition withExtra (ignorePatterns extraExclude : list string) : list string :=
  if (0 <? List.length extraExclude)%nat
  then (ignorePatterns ++ extraExclude)%list
  else ignorePatterns.

Definition wantsUpload (direction : string) : bool :=
  String.eqb direction "upload" || String.eqb direction "both".

(** The body of [syncFiles], with the body [entry] of its [for] loop as a
    parameter. [inherited] is the pair [(ignorePatterns, basePath)]: the
    callers pass either both (the recursive call) or neither (the two
    request handlers). [readdir] is the outcome of [fs.readdir(localPath)]. *)
Definition syncFilesBody
  (entry : string -> string -> list string -> string -> LNode -> M (Stats * W) unit)
  (localPath remotePath direction : string)
  (inherited : option (list string * string))
  (extraExclude : list string)
  (readdir : Result (list LNode)) : M W Stats :=
  withLocal initStats
    (let resolved :=
       match inherited with
       | None => (loadIgnorePatterns localPath, localPath)
       | Some pb => pb
       end in
     let basePath := snd resolved in
     let ignorePatterns := withExtra (fst resolved) extraExclude in
     (if wantsUpload direction then
        localFiles <- liftR readdir ;;
        forEach
          (fun file _ => entry localPath remotePath ignorePatterns basePath file)
          localFiles tt
      else ret tt) ;;;
     getLocal).

(** One iteration of the [for (const file of localFiles)] loop. *)
Fixpoint syncEntry (useSFTP : bool) (direction : string)
  (extraExclude : list string)
  (localPath remotePath : string) (ignorePatterns : list string)
  (basePath : string) (file : LNode) {struct file} : M (Stats * W) unit :=
  let localFilePath := path_join localPath (lname file) in
  let remoteFilePath := remotePath ++ "/" ++ lname file in
  if shouldIgnore localFilePath ignorePatterns basePath then modify incIgnored
  else
    tryCatch
      match file with
      | LDir _ readdir =>
          liftW (ensureRemoteDir useSFTP remoteFilePath) ;;;
          subStats <- liftW
            (syncFilesBody (syncEntry useSFTP direction extraExclude)
               localFilePath remoteFilePath direction
               (Some (ignorePatterns, basePath)) extraExclude readdir) ;;
          modify (addSubStats subStats)
      | LFile _ stat =>
          localStat <- liftR stat ;;
          shouldUpload <-
            decideUpload useSFTP remotePath remoteFilePath (lname file) localStat ;;
          if shouldUpload then
            liftW (transfer useSFTP localFilePath remoteFilePath) ;;;
            modify incUploaded
          else ret tt
      end
      (fun error => modify (pushError (localFilePath ++ ": " ++ message error))).

(** [syncFiles(client, useSFTP, localPath, remotePath, direction,
               ignorePatterns, basePath, extraExclude)] *)
Definition syncFiles (useSFTP : bool) (localPath remotePath direction : string)
  (inherited : option (list string * string)) (extraExclude : list string)
  (readdir : Result (list LNode)) : M W Stats :=
  syncFilesBody (syncEntry useSFTP direction extraExclude)
    localPath remotePath direction inherited extraExclude readdir.

(** Reading aids for the properties. [needsUpload] is the decision the
    file branch takes from the local [mtime] and the outcome of the remote
    lookup; [loopState] is the state the [for] loop is in after the
    entries [files], started in [sw]. *)
Definition needsUpload (mtime : TimeVal) (found : Result (option FileInfo))
  : bool :=
  match found with
  | Ok (Some rs) => negb (timeLe mtime (remoteTimeOf rs))
  | _ => true
  end.

Definition loopState (useSFTP : bool) (direction : string)
  (extraExclude : list string) (localPath remotePath : string)
  (ignorePatterns : list string) (basePath : string)
  (files : list LNode) (sw : Stats * W) : Stats * W :=
  fold_left
    (fun sw' f =>
       snd (syncEntry useSFTP direction extraExclude localPath remotePath
              ignorePatterns basePath f sw'))
    files sw.

(** The number of entries a report accounts for by one of the three
    counters of an upload. *)
Definition counted (s : Stats) : nat := uploaded s + skipped s + ignored s.

End WithEnv.

End Sync.

(** The local entries the loop of [syncFiles] runs its body on, in order
    and by local path, for a run that starts in the remote state [w]: the
    entry itself and, for a directory that is not ignored, whose remote
    directory could be ensured and which could be read, the entries the
    recursive call visits. A specification-side function: it follows the
    recursion of [syncEntry] and reads the remote state each entry is
    reached in off [syncEntry] itself. *)

Module Visit.
Import Ignore Sync.

Section WithEnv.
Context {W : Type} `{Client W} `{NodeEnv}.

Definition visitLoop (visit : LNode -> Stats * W -> list string)
  (step : LNode -> Stats * W -> Stats * W)
  : list LNode -> Stats * W -> list string :=
  fix loop (l : list LNode) (sw : Stats * W) : list string :=
    match l with
    | [] => []
    | file :: l' => (visit file sw ++ loop l' (step file sw))%list
    end.

Fixpoint visitedEntry (useSFTP : bool) (direction : string)
  (extraExclude : list string)
  (localPath remotePath : string) (ignorePatterns : list string)
  (basePath : string) (file : LNode) (sw : Stats * W) {struct file}
  : list string :=
  let localFilePath := path_join localPath (lname file) in
  let remoteFilePath := remotePath ++ "/" ++ lname file in
  localFilePath ::
  if shouldIgnore localFilePath ignorePatterns basePath then []
  else
    match file with
    | LFile _ _ => []
    | LDir _ readdir =>
        match ensureRemoteDir useSFTP remoteFilePath (snd sw), readdir with
        | (Ok _, w1), Ok localFiles =>
            if wantsUpload direction then
              let below := withExtra ignorePatterns extraExclude in
              visitLoop
                (visitedEntry useSFTP direction extraExclude
                   localFilePath remoteFilePath below basePath)
                (fun f sw' =>
                   snd (syncEntry useSFTP direction extraExclude
                          localFilePath remoteFilePath below basePath f sw'))
                localFiles (initStats, w1)
            else []
        | _, _ => []
        end
    end.

(** The entries a top-level [syncFiles] visits. *)
Definition visited (useSFTP : bool) (localPath remotePath direction : string)
  (inherited : option (list string * string)) (extraExclude : list string)
  (readdir : Result (list LNode)) (w : W) : list string :=
  let resolved :=
    match inherited with
    | None => (loadIgnorePatterns localPath, localPath)
    | Some pb => pb
    end in
  let ignorePatterns := withExtra (fst resolved) extraExclude in
  match readdir with
  | Ok localFiles =>
      if wantsUpload direction then
        visitLoop
          (visitedEntry useSFTP direction extraExclude
             localPath remotePath ignorePatterns (snd resolved))
          (fun f sw' =>
             snd (syncEntry useSFTP direction extraExclude
                    localPath remotePath ignorePatterns (snd resolved) f sw'))
          localFiles (initStats, w)
      else []
  | Throw _ => []
  end.

(** How many of the local paths [paths] the rule set [combined] ignores. *)
Definition ignoredAmong (combined : list string) (basePath : string)
  (paths : list string) : nat :=
  List.length (filter (fun p => shouldIgnore p combined basePath) paths).

End WithEnv.

End Visit.

(** ** Request handlers: [ftp_exists], [ftp_copy] *)

Module Handlers.
Import JSString.

Record Response := mkResponse { text : string; isError : bool }.

(** [{ content: [{ type: "text", text }] }] *)
Definition textResponse (t : string) : Response :=
  {| text := t; isError := false |}.

(** [path.substring(0, path.lastIndexOf('/')) || '.'] *)
Definition dirPathOf (path : string) : string :=
  let d := substring2 path 0 (lastIndexOf "/"%char path) in
  if truthy d then d else ".".

(** [path.substring(path.lastIndexOf('/') + 1)] *)
Definition fileNameOf (path : string) : string :=
  substring1 path (lastIndexOf "/"%char path + 1).

Section WithClient.
Context {W : Type} `{Client W}.

(** The body of the [try] block of [ftp_exists]; its value is what it
    assigns to [exists]. *)
Definition existsLookup (useSFTP : bool) (path : string) : M W bool :=
  if useSFTP then
    client_stat path ;;; ret true
  else
    files <- client_list (dirPathOf path) ;;
    ret (existsb (fun f => String.eqb (fi_name f) (fileNameOf path)) files).

Definition ftp_exists (useSFTP : bool) (path : string) : M W Response :=
  exists_ <- tryCatch (existsLookup useSFTP path) (fun _ => ret false) ;;
  ret (textResponse (if (exists_ : bool) then "true" else "false")).

Definition copyUnsupportedText : string :=
  "Error: ftp_copy is only supported for SFTP connections. For FTP, download and re-upload.".

Definition ftp_copy (useSFTP : bool) (sourcePath destPath : string)
  : M W Response :=
  if negb useSFTP then ret (textResponse copyUnsupportedText)
  else
    buffer <- client_get sourcePath ;;
    client_put (FromBuffer buffer) destPath ;;;
    ret (textResponse
           ("Successfully copied " ++ sourcePath ++ " to " ++ destPath)).

(** [case "ftp_sync"]: the call the handler makes, with
    [direction = "upload"] when the argument is absent. *)
Definition ftp_sync `{NodeEnv} (useSFTP : bool) (localPath remotePath : string)
  (direction : option string) (readdir : Result (list LNode))
  : M W Sync.Stats :=
  Sync.syncFiles useSFTP localPath remotePath
    (match direction with Some d => d | None => "upload" end)
    None [] readdir.

End WithClient.

End Handlers.

(** ** A concrete client and runtime, to run the functions on examples *)

Module Mem.
Import JSString.

Fixpoint assoc {A} (k : string) (l : list (string * A)) : option A :=
  match l with
  | [] => None
  | (k', v) :: l' => if String.eqb k k' then Some v else assoc k l'
  end.

(** What the remote server answers: the listing of each directory, the
    metadata and content of each path, and the paths on which it rejects
    a call. *)
Record Snapshot := mkSnapshot {
  listings : list (string * list FileInfo);
  stats : list (string * FileInfo);
  contents : list (string * Buffer);
  failing : list (string * Error)
}.

(** The calls that transfer content or change the remote side. *)
Inductive Call :=
| CGet (path : string)
| CPut (src : Source) (path : string)
| CUploadFrom (src : Source) (path : string)
| CMkdir (path : string) (recursive : bool)
| CEnsureDir (path : string).

Definition noSuchFile : Error := mkError NotFound "No such file".

(** A call on [path]: rejected when the server rejects the path, else it
    answers [answer]. *)
Definition guarded {A} (r : Snapshot) (path : string) (answer : Result A)
  : Result A :=
  match assoc path (failing r) with
  | Some e => Throw e
  | None => answer
  end.

Definition fromOption {A} (o : option A) : Result A :=
  match o with Some a => Ok a | None => Throw noSuchFile end.

(** A call that is logged when it succeeds. *)
Definition logged (r : Snapshot) (path : string) (c : Call) : M (list Call) unit :=
  fun log =>
    match guarded r path (Ok tt) with
    | Ok _ => (Ok tt, (log ++ [c])%list)
    | Throw e => (Throw e, log)
    end.

Definition memClient (r : Snapshot) : Client (list Call) := {|
  client_list p := liftR (guarded r p (fromOption (assoc p (listings r))));
  client_stat p := liftR (guarded r p (fromOption (assoc p (stats r))));
  client_mkdir p rec := logged r p (CMkdir p rec);
  client_ensureDir p := logged r p (CEnsureDir p);
  client_put src p := logged r p (CPut src p);
  client_uploadFrom src p := logged r p (CUploadFrom src p);
  client_get p := fun log =>
    match guarded r p (fromOption (assoc p (contents r))) with
    | Ok b => (Ok b, (log ++ [CGet p])%list)
    | Throw e => (Throw e, log)
    end
|}.

(** A small pattern matcher standing in for [minimatch] in the examples:
    [*] matches any run of characters, every other character matches
    itself. *)
Fixpoint glob (p : string) : string -> bool :=
  match p with
  | EmptyString => fun s => negb (truthy s)
  | String a p' =>
      if Ascii.eqb a "*"%char then
        fix star (s : string) : bool :=
          glob p' s || match s with
                       | EmptyString => false
                       | String _ s' => star s'
                       end
      else
        fun s =>
          match s with
          | EmptyString => false
          | String b s' => Ascii.eqb a b && glob p' s'
          end
  end.

Definition baseName (p : string) : string :=
  substring1 p (lastIndexOf "/"%char p + 1).

(** With [matchBase], a pattern without a slash is tried on the last
    segment of the path. *)
Definition globMatch (s pattern : string) (o : MinimatchOptions) : bool :=
  if matchBase o && negb (includes "/" pattern)
  then glob pattern (baseName s)
  else glob pattern s.

Definition relativeTo (from to : string) : string :=
  if startsWith (from ++ "/") to
  then substring1 to (Z.of_nat (String.length from) + 1)
  else to.

(** Decimal digits as a time value, anything else is an Invalid Date. *)
Fixpoint digits (s : string) (acc : Z) : option Z :=
  match s with
  | EmptyString => Some acc
  | String a s' =>
      let n := nat_of_ascii a in
      if ((48 <=? n) && (n <=? 57))%nat
      then digits s' (10 * acc + Z.of_nat (n - 48))%Z
      else None
  end.

Definition parseTime (s : string) : TimeVal :=
  match s with
  | EmptyString => Invalid
  | _ => match digits s 0%Z with Some n => Valid n | None => Invalid end
  end.

(** A POSIX-like runtime over the local text files [files]. *)
Definition posixEnv (files : list (string * string)) : NodeEnv := {|
  path_join a b := a ++ "/" ++ b;
  path_relative := relativeTo;
  path_basename := baseName;
  minimatch := globMatch;
  readFile p :=
    match assoc p files with
    | Some c => Ok c
    | None => Throw (mkError NotFound "ENOENT: no such file or directory")
    end;
  dateParse := parseTime
|}.

End Mem.

(** ** Example data *)

Module Examples.
Import Mem.

(** Entries as ssh2-sftp-client lists them. *)
Definition sftpDir (n : string) : FileInfo :=
  mkFileInfo n (Some "d") None 4096 (Some 1000%Z) None None None.

Definition sftpFile (n : string) (mtime : Z) : FileInfo :=
  mkFileInfo n (Some "-") None 10 (Some mtime) None None None.

(** Entries as basic-ftp lists them. *)
Definition ftpFile (n : string) (mtime : Z) : FileInfo :=
  mkFileInfo n None (Some false) 10 None None (Some (Valid mtime)) None.

(** A remote tree three levels deep:
<<
    a/        f
    a/b/      a/g
    a/b/h
>> *)
Definition treeSnapshot : Snapshot :=
  {| listings :=
       [ (".", [sftpDir "a"; sftpFile "f" 1%Z]);
         ("a", [sftpDir "b"; sftpFile "g" 2%Z]);
         ("a/b", [sftpFile "h" 3%Z]) ];
     stats := []; contents := []; failing := [] |}.

Definition treeListing (p : string) : Result (list FileInfo) :=
  guarded treeSnapshot p (fromOption (assoc p (listings treeSnapshot))).

Definition treeDepth1 : list Tree.TreeEntry :=
  [ Tree.mkTreeEntry "a" "a" true 4096 (Tree.ModNumber 1000);
    Tree.mkTreeEntry "a/b" "b" true 4096 (Tree.ModNumber 1000);
    Tree.mkTreeEntry "a/g" "g" false 10 (Tree.ModNumber 2);
    Tree.mkTreeEntry "f" "f" false 10 (Tree.ModNumber 1) ].

(** A server that refuses access below [secret]. *)
Definition denied : Error := mkError PermissionDenied "Permission denied".

Definition guardedSnapshot : Snapshot :=
  {| listings := [(".", [ftpFile "index.html" 5%Z])];
     stats := [];
     contents := [];
     failing := [("secret/key.pem", denied); ("secret", denied)] |}.

(** A server holding one file [a.txt]. *)
Definition copySnapshot : Snapshot :=
  {| listings := [(".", [sftpFile "a.txt" 5%Z])];
     stats := [("a.txt", sftpFile "a.txt" 5%Z)];
     contents := [("a.txt", "hello")];
     failing := [] |}.

(** The scenario of the spec: [a.txt] is new, [b.txt] is on the server
    with a newer time, [c.txt] is on the server with an older time, and
    [node_modules/pkg.js] falls under a default pattern. *)
Definition siteSnapshot : Snapshot :=
  {| listings := [];
     stats := [("/www/b.txt", sftpFile "b.txt" 200%Z);
               ("/www/c.txt", sftpFile "c.txt" 50%Z)];
     contents := [];
     failing := [] |}.

Definition siteTree : list LNode :=
  [ LFile "a.txt" (Ok (Valid 100));
    LFile "b.txt" (Ok (Valid 150));
    LDir "node_modules" (Ok [LFile "pkg.js" (Ok (Valid 5))]) ].

Definition siteEnv : NodeEnv := posixEnv [].

Definition sitePatterns : list string :=
  @Ignore.loadIgnorePatterns siteEnv "/home/dist".

Definition mkReport (u s i : nat) (errs : list string) : Sync.Stats :=
  {| Sync.uploaded := u; Sync.downloaded := 0; Sync.skipped := s;
     Sync.errors := errs; Sync.ignored := i |}.

(** An FTP server that refuses the listing of [/www] but accepts uploads
    into it. *)
Definition unlistableSnapshot : Snapshot :=
  {| listings := []; stats := []; contents := [];
     failing := [("/www", denied)] |}.

(** A server on which the transfer of [two.txt] fails. *)
Definition uploadFailed : Error := mkError TransferError "Upload failed".

Definition flakySnapshot : Snapshot :=
  {| listings := [];
     stats := [("/www/three.txt", sftpFile "three.txt" 900%Z)];
     contents := [];
     failing := [("/www/two.txt", uploadFailed)] |}.

Definition threeFiles : list LNode :=
  [ LFile "one.txt" (Ok (Valid 100));
    LFile "two.txt" (Ok (Valid 100));
    LFile "three.txt" (Ok (Valid 100)) ].

(** A tree with a directory excluded by the caller and a log file. *)
Definition buildTree : list LNode :=
  [ LDir "build" (Ok [LFile "x.tmp" (Ok (Valid 1))]);
    LFile "debug.log" (Ok (Valid 2));
    LFile "index.html" (Ok (Valid 3)) ].

(** A server holding a file the local side does not have. *)
Definition remoteOnlySnapshot : Snapshot :=
  {| listings := [("/www", [sftpFile "new.txt" 500%Z])];
     stats := [("/www/new.txt", sftpFile "new.txt" 500%Z)];
     contents := [("/www/new.txt", "fresh")];
     failing := [] |}.

End Examples.

(** ** More of the code: strings, connection options *)

Module JSText.
Import JSString.

Definition firstChar (s : string) : option ascii :=
  match s with EmptyString => None | String a _ => Some a end.

Fixpoint lastChar (s : string) : option ascii :=
  match s with
  | EmptyString => None
  | String a s' =>
      match lastChar s' with Some b => Some b | None => Some a end
  end.

(** [s.includes(c)] for one character. *)
Fixpoint hasChar (c : ascii) (s : string) : bool :=
  match s with
  | EmptyString => false
  | String a s' => Ascii.eqb a c || hasChar c s'
  end.

(** [(s.match(/c/g) || []).length]: the number of occurrences of [c]. *)
Fixpoint countChar (c : ascii) (s : string) : nat :=
  match s with
  | EmptyString => 0
  | String a s' => (if Ascii.eqb a c then 1 else 0) + countChar c s'
  end.

(** The characters of [s] after the first [n]. *)
Fixpoint dropChars (n : nat) (s : string) : string :=
  match n, s with
  | O, _ => s
  | S n', String _ s' => dropChars n' s'
  | S _, EmptyString => EmptyString
  end.

(** [s.replace(sub, repl)] for a string [sub]: the first occurrence only. *)
Fixpoint replaceFirst (sub repl s : string) : string :=
  if startsWith sub s then repl ++ dropChars (String.length sub) s
  else match s with
       | EmptyString => EmptyString
       | String a s' => String a (replaceFirst sub repl s')
       end.

(** [s.replace(/c/g, repl)] for one character [c]: every occurrence. *)
Fixpoint replaceAllChar (c : ascii) (repl s : string) : string :=
  match s with
  | EmptyString => EmptyString
  | String a s' =>
      (if Ascii.eqb a c then repl else String a EmptyString)
      ++ replaceAllChar c repl s'
  end.

(** [unit.repeat(n)] *)
Fixpoint repeatString (unit : string) (n : nat) : string :=
  match n with
  | O => EmptyString
  | S n' => unit ++ repeatString unit n'
  end.

(** [lines.join(sep)] *)
Definition join (sep : string) (lines : list string) : string :=
  String.concat sep lines.

End JSText.

Module Connect.
Import JSString JSText Conn.

(** A profile of [.ftpconfig] (or the environment): each field may be
    absent. *)
Record Profile := mkProfile {
  host : option string;
  user : option string;
  password : option string;
  port : option PortSetting;
  secure : option bool
}.

(** The argument of [client.connect] of ssh2-sftp-client. *)
Record SftpOptions := mkSftpOptions {
  so_host : string;
  so_port : option Z;
  so_username : option string;
  so_password : option string
}.

(** The argument of [client.access] of basic-ftp. *)
Record FtpOptions := mkFtpOptions {
  fo_host : option string;
  fo_user : option string;
  fo_password : option string;
  fo_port : option Z;
  fo_secure : bool
}.

Definition typeError (msg : string) : Error := mkError OtherError msg.

Section WithParseInt.
Variable parseIntStr : string -> option Z.

(** The options [connectSFTP] passes; reading [config.host.replace] of an
    undefined host raises a TypeError. *)
Definition sftpOptions (config : Profile) : Result SftpOptions :=
  match host config with
  | None =>
      Throw (typeError "Cannot read properties of undefined (reading 'replace')")
  | Some h =>
      Ok {| so_host := replaceFirst "sftp://" "" h;
            so_port := getPort parseIntStr (host config) (port config);
            so_username := user config;
            so_password := password config |}
  end.

(** The options [connectFTP] passes; [config.secure || false]. *)
Definition ftpOptions (config : Profile) : FtpOptions :=
  {| fo_host := host config;
     fo_user := user config;
     fo_password := password config;
     fo_port := getPort parseIntStr (host config) (port config);
     fo_secure := match secure config with Some b => b | None => false end |}.

End WithParseInt.

End Connect.

(** ** More of the code: [ftp_tree], [ftp_search] *)

(** [new RegExp(source)]: a SyntaxError for a source that is no regular
    expression, else the predicate [regex.test]. *)
Class RegExpEnv := {
  newRegExp : string -> Result (string -> bool)
}.

Module Listing.
Import JSString JSText Tree Handlers.

(** A number in a template literal, for an integer. *)
Definition showZ (n : Z) : string := NilZero.string_of_int (Z.to_int n).

Definition folderIcon : string := "ðŸ“".
Definition fileIcon : string := "ðŸ“„".

(** ['  '.repeat((item.path.match(/\//g) || []).length)] *)
Definition indentOf (item : TreeEntry) : string :=
  repeatString "  " (countChar "/"%char (path item)).

(** One line of [ftp_tree]. *)
Definition treeLine (item : TreeEntry) : string :=
  indentOf item
  ++ (if isDirectory item then folderIcon else fileIcon)
  ++ " " ++ name item ++ " "
  ++ (if negb (isDirectory item)
      then "(" ++ showZ (size item) ++ " bytes)" else "").

(** [formatted || fallback] *)
Definition orElse (formatted fallback : string) : string :=
  if truthy formatted then formatted else fallback.

(** [pattern.replace(/\*/g, '.*').replace(/\?/g, '.')] *)
Definition globToRegExp (pattern : string) : string :=
  replaceAllChar "?"%char "." (replaceAllChar "*"%char ".*" pattern).

(** One line of [ftp_search]. *)
Definition searchLine (item : TreeEntry) : string :=
  path item ++ " ("
  ++ (if isDirectory item then "DIR" else showZ (size item) ++ " bytes")
  ++ ")".

Section WithClient.
Context {W : Type} `{Client W} `{RegExpEnv}.

(** [case "ftp_tree"], with [path = "."] and [maxDepth = 10] when the
    arguments are absent. *)
Definition ftp_tree (useSFTP : bool) (path : option string)
  (maxDepth : option Z) : M W Response :=
  tree <- getTreeRecursive useSFTP
            (match path with Some p => p | None => "." end) 0
            (match maxDepth with Some d => d | None => 10%Z end) ;;
  ret (textResponse
         (orElse (join (String "010"%char EmptyString) (map treeLine tree))
                 "Empty directory")).

(** The [matches] of [ftp_search]: the walk is made first, then the
    regular expression is built. *)
Definition searchMatches (useSFTP : bool) (pattern : string)
  (path : option string) : M W (list TreeEntry) :=
  tree <- getTreeRecursive useSFTP
            (match path with Some p => p | None => "." end) 0 10 ;;
  regex <- liftR (newRegExp (globToRegExp pattern)) ;;
  ret (filter (fun item => regex (name item)) tree).

Definition ftp_search (useSFTP : bool) (pattern : string)
  (path : option string) : M W Response :=
  matches <- searchMatches useSFTP pattern path ;;
  ret (textResponse
         (orElse (join (String "010"%char EmptyString) (map searchLine matches))
                 "No matches found")).

End WithClient.

(** The number of slashes the walk puts before the names of level 0. *)
Definition slashOffset (startPath : string) : nat :=
  if String.eqb startPath "." then 0
  else S (countChar "/"%char startPath).

End Listing.

(** ** More of the code: [ftp_stat], the batch transfers, the handler
    envelope *)

(** What [ext_openssh_statvfs] reports, the fields the code reads. *)
Record StatVfs := mkStatVfs {
  blocks : Z;
  bfree : Z;
  bavail : Z;
  bsize : Z
}.

(** More methods of the two client classes. *)
Class ClientMore (W : Type) := {
  (** ssh2-sftp-client: [client.sftp()] and, on the channel it gives,
      [ext_openssh_statvfs(path, callback)] as one awaited call *)
  client_statvfs : string -> M W StatVfs;
  (** ssh2-sftp-client: [client.get(remotePath, localPath)] *)
  client_getTo : string -> string -> M W unit;
  (** basic-ftp: [client.downloadTo(localPath, remotePath)] *)
  client_downloadTo : string -> string -> M W unit;
  (** ssh2-sftp-client: [client.end()] *)
  client_end : M W unit;
  (** basic-ftp: [client.close()] *)
  client_close : M W unit;
  (** ssh2-sftp-client: [client.connect(options)] *)
  client_connect : Connect.SftpOptions -> M W unit;
  (** basic-ftp: [client.access(options)] *)
  client_access : Connect.FtpOptions -> M W unit
}.

Module Tools.
Import JSString JSText Handlers Listing.


Record BatchFile := mkBatchFile { localPath : string; remotePath : string }.

(** [results = { success: [], failed: [] }]; a failed entry is
    [{ path, error }]. *)
Record BatchResults := mkBatchResults {
  success : list string;
  failed : list (string * string)
}.

Definition noResults : BatchResults := {| success := []; failed := [] |}.

Definition pushSuccess (p : string) (r : BatchResults) : BatchResults :=
  {| success := (success r ++ [p])%list; failed := failed r |}.

Definition pushFailed (p msg : string) (r : BatchResults) : BatchResults :=
  {| success := success r; failed := (failed r ++ [(p, msg)])%list |}.

(** The third part of the answer of a batch:
    [failed.length > 0 ? '\nErrors:\n' + failed.map(..).join('\n') : ''] *)
Definition failedText (r : BatchResults) : string :=
  if (0 <? List.length (failed r))%nat
  then String "010"%char "Errors:" ++ String "010"%char
         (join (String "010"%char EmptyString)
               (map (fun f => fst f ++ ": " ++ snd f) (failed r)))
  else "".

Definition batchText (verb : string) (r : BatchResults) : string :=
  verb ++ ": " ++ showZ (Z.of_nat (List.length (success r)))
  ++ String "010"%char "Failed: " ++ showZ (Z.of_nat (List.length (failed r)))
  ++ String "010"%char (failedText r).

Record DiskSpace := mkDiskSpace {
  total : Z;
  free : Z;
  available : Z;
  used : Z
}.

(** One line [  "key": number] of [JSON.stringify(.., null, 2)]. *)
Definition jsonField (key : string) (n : Z) : string :=
  "  " ++ String "034"%char (key ++ String "034"%char (": " ++ showZ n)).

(** [JSON.stringify({ total, free, available, used }, null, 2)] *)
Definition diskSpaceJson (d : DiskSpace) : string :=
  "{" ++ String "010"%char
    (jsonField "total" (total d) ++ "," ++ String "010"%char
       (jsonField "free" (free d) ++ "," ++ String "010"%char
          (jsonField "available" (available d) ++ "," ++ String "010"%char
             (jsonField "used" (used d) ++ String "010"%char "}")))).

Section WithClient.
Context {W : Type} `{Client W} `{ClientMore W}.

(** [case "ftp_stat"]; [statText] is the JSON text written for the object
    found, by protocol. *)
Definition ftp_stat (statText : bool -> FileInfo -> string)
  (useSFTP : bool) (path : string) : M W Response :=
  if useSFTP then
    stats <- client_stat path ;;
    ret (textResponse (statText true stats))
  else
    files <- client_list (dirPathOf path) ;;
    match find (fun f => String.eqb (fi_name f) (fileNameOf path)) files with
    | Some file => ret (textResponse (statText false file))
    | None => throw (mkError NotFound ("File not found: " ++ path))
    end.

(** The transfer of one file of a batch. *)
Definition uploadOne (useSFTP : bool) (file : BatchFile) : M W unit :=
  if useSFTP then client_put (FromPath (localPath file)) (remotePath file)
  else client_uploadFrom (FromPath (localPath file)) (remotePath file).

Definition downloadOne (useSFTP : bool) (file : BatchFile) : M W unit :=
  if useSFTP then client_getTo (remotePath file) (localPath file)
  else client_downloadTo (localPath file) (remotePath file).

(** One iteration of the loop of a batch: [try { await transfer;
    results.success.push(..) } catch (error) { results.failed.push(..) }] *)
Definition batchStep (transfer : BatchFile -> M W unit)
  (file : BatchFile) (results : BatchResults) : M W BatchResults :=
  tryCatch
    (transfer file ;;; ret (pushSuccess (remotePath file) results))
    (fun error => ret (pushFailed (remotePath file) (message error) results)).

Definition batchRun (transfer : BatchFile -> M W unit)
  (files : list BatchFile) : M W BatchResults :=
  forEach (batchStep transfer) files noResults.

Definition ftp_batch_upload (useSFTP : bool) (files : list BatchFile)
  : M W Response :=
  results <- batchRun (uploadOne useSFTP) files ;;
  ret (textResponse (batchText "Uploaded" results)).

Definition ftp_batch_download (useSFTP : bool) (files : list BatchFile)
  : M W Response :=
  results <- batchRun (downloadOne useSFTP) files ;;
  ret (textResponse (batchText "Downloaded" results)).

(** The object [ftp_disk_space] writes as JSON. The numbers are integers:
    a product is what JS computes as long as it is below 2^53. *)
Definition diskSpaceOf (vfs : StatVfs) : DiskSpace :=
  {| total := blocks vfs * bsize vfs;
     free := bfree vfs * bsize vfs;
     available := bavail vfs * bsize vfs;
     used := (blocks vfs - bfree vfs) * bsize vfs |}.

Definition diskSpaceUnsupported : string :=
  "Error: ftp_disk_space is only supported for SFTP connections".

(** [case "ftp_disk_space"], with [path = "."] when the argument is
    absent. *)
Definition ftp_disk_space (useSFTP : bool) (path : option string)
  : M W Response :=
  if negb useSFTP then ret (textResponse diskSpaceUnsupported)
  else
    tryCatch
      (diskSpace <- client_statvfs
                      (match path with Some p => p | None => "." end) ;;
       ret (textResponse (diskSpaceJson (diskSpaceOf diskSpace))))
      (fun error =>
         ret (textResponse
                ("Disk space info not available: " ++ message error))).

(** The envelope of the connected tools:
<<
    let client;
    try { client = useSFTP ? await connectSFTP(..) : await connectFTP(..);
          switch (..) { .. } }
    catch (error) { return { .. isError: true } }
    finally { if (client) { useSFTP ? await client.end() : client.close() } }
>> *)
Section Envelope.
Variable parseIntStr : string -> option Z.




End Envelope.

End WithClient.

End Tools.

(** ** More of the code: [loadFTPConfig] *)

Module Config.
Import JSString.


Definition quoted (s : string) : string :=
  String "034"%char (s ++ String "034"%char EmptyString).



Section WithValues.

(** The values of the parsed configuration, with their truthiness. The
    parsed object is the list of its own properties in the order of
    [Object.keys]; [fromEnv] is the object built from the environment. *)
Variable V : Type.
Variable truthyV : V -> bool.
Variable parseJSON : string -> Result (list (string * V)).
Variable fromEnv : V.





End WithValues.

End Config.

(** ** Reading aids for more properties of [syncFiles] *)

Module Report.
Import Ignore Sync.

(** An error entry that names one of the local paths [paths]. *)
Definition namesOneOf (paths : list string) (entry : string) : Prop :=
  exists p e, In p paths /\ entry = p ++ ": " ++ message e.

(** The entries a report accounts for, errors included. *)
Definition accounted (s : Stats) : nat :=
  uploaded s + skipped s + ignored s + List.length (errors s).

Definition isFile (file : LNode) : bool :=
  match file with LFile _ _ => true | LDir _ _ => false end.

Section WithEnv.
Context {W : Type} `{Client W} `{NodeEnv}.



End WithEnv.

End Report.

(** ** More example data *)

Module MoreExamples.
Import Mem Examples.

(** The tree of [treeSnapshot], with a directory [a/b] that cannot be
    listed. *)
Definition brokenTreeSnapshot : Snapshot :=
  {| listings := listings treeSnapshot;
     stats := []; contents := [];
     failing := [("a/b", denied)] |}.

Definition brokenTreeListing (p : string) : Result (list FileInfo) :=
  guarded brokenTreeSnapshot p
    (fromOption (assoc p (listings brokenTreeSnapshot))).

(** A stand-in for [RegExp] in the examples: a source without
    parentheses is searched as a plain substring, any other source is a
    syntax error. *)
Definition plainRegExp : RegExpEnv :=
  {| newRegExp source :=
       if JSText.hasChar "("%char source
       then Throw (mkError OtherError "Invalid regular expression")
       else Ok (fun s => JSString.includes source s) |}.

(** The other methods on the same server: a download is logged as a
    read of the remote path, closing always succeeds, and opening the
    connection fails for a host the server rejects. *)
(** A server holding [/www/old.txt], dated 1 January 1970: its [stat]
    gives [modifyTime: 0]. *)
Definition epochSnapshot : Snapshot :=
  {| listings := [];
     stats := [("/www/old.txt", sftpFile "old.txt" 0%Z)];
     contents := [];
     failing := [] |}.

Definition memClientMore (r : Snapshot) : ClientMore (list Call) := {|
  client_statvfs p :=
    liftR (guarded r p (Ok (mkStatVfs 1000 250 200 4096)));
  client_getTo remote _ := logged r remote (CGet remote);
  client_downloadTo _ remote := logged r remote (CGet remote);
  client_end := ret tt;
  client_close := ret tt;
  client_connect options := liftR (guarded r (Connect.so_host options) (Ok tt));
  client_access options :=
    liftR (guarded r
             (match Connect.fo_host options with Some h => h | None => "" end)
             (Ok tt))
|}.

Definition threeTransfers : list Tools.BatchFile :=
  [ Tools.mkBatchFile "/home/dist/one.txt" "/www/one.txt";
    Tools.mkBatchFile "/home/dist/two.txt" "/www/two.txt";
    Tools.mkBatchFile "/home/dist/three.txt" "/www/three.txt" ].





End MoreExamples.

(** * Properties *)

(** ** JS strings *)

Section JSStringFacts.
Import JSString.

Lemma startsWith_spec p s :
  startsWith p s = true <-> exists t, s = p ++ t.
Proof.
  revert s; induction p as [|a p IH]; intros s; simpl.
  - split; [intros _; now exists s | reflexivity].
  - destruct s as [|b s].
    + split; [discriminate | intros [t H]; discriminate].
    + destruct (Ascii.eqb_spec a b) as [->|Hne].
      * rewrite IH. split; intros [t H]; exists t.
        -- now rewrite H.
        -- now injection H.
      * split; [discriminate|]. intros [t H]. injection H as H1 _. congruence.
Qed.

Lemma includes_spec sub s :
  includes sub s = true <-> exists pre post, s = pre ++ sub ++ post.
Proof.
  induction s as [|b s IH]; simpl.
  - rewrite orb_false_r, startsWith_spec. split.
    + intros [t H]. now exists "", t.
    + intros [pre [post H]]. destruct pre; [now exists post | discriminate].
  - rewrite orb_true_iff, startsWith_spec, IH. split.
    + intros [[t H] | [pre [post H]]].
      * now exists "", t.
      * exists (String b pre), post. simpl. now rewrite H.
    + intros [pre [post H]]. destruct pre as [|c pre]; simpl in H.
      * left. now exists post.
      * right. injection H as _ H. now exists pre, post.
Qed.

End JSStringFacts.

(** ** TreeWalker *)

Section TreeFacts.
Import Tree.
Context {W : Type} `{Client W}.

(** The equation of the source: the guard on [depth], one listing, then
    the loop whose recursive call is at [depth + 1]. *)
Lemma getTreeRecursive_eq useSFTP remotePath depth maxDepth :
  getTreeRecursive useSFTP remotePath depth maxDepth =
  if (depth >? maxDepth)%Z then ret []
  else
    (files <- client_list remotePath ;;
     forEach
       (treeStep (fun fullPath =>
                    getTreeRecursive useSFTP fullPath (depth + 1) maxDepth)
                 useSFTP remotePath) files [])%js.
Proof.
  unfold getTreeRecursive.
  destruct (Z.gtb_spec depth maxDepth) as [Hgt|Hle].
  - replace (Z.to_nat (maxDepth + 1 - depth)) with O by lia. reflexivity.
  - replace (Z.to_nat (maxDepth + 1 - depth))
      with (S (Z.to_nat (maxDepth + 1 - (depth + 1)))) by lia.
    reflexivity.
Qed.

(** With [maxDepth = 0] the walk is one listing of the start path and
    nothing else, whatever the client does. *)
Lemma forEach_no_descent (recurse : string -> M W (list TreeEntry))
  useSFTP remotePath files acc w :
  (forall p w0, recurse p w0 = (Ok [], w0)) ->
  forEach (treeStep recurse useSFTP remotePath) files acc w =
  (Ok (acc ++ map (entryOf useSFTP remotePath) files)%list, w).
Proof.
  intros Hrec. revert acc.
  induction files as [|f files IH]; intros acc; simpl.
  - now rewrite app_nil_r.
  - unfold bind at 1, treeStep at 1.
    destruct (descends useSFTP f).
    + unfold bind at 1. rewrite Hrec. unfold ret at 1.
      rewrite IH, app_nil_r, <- app_assoc. reflexivity.
    + unfold ret at 1. rewrite IH, <- app_assoc. reflexivity.
Qed.

Lemma walk_one_level useSFTP startPath w :
  walk 1 useSFTP startPath w =
  (files <- client_list startPath ;;
   ret (map (entryOf useSFTP startPath) files))%js w.
Proof.
  simpl. unfold bind.
  destruct (client_list startPath w) as [[files|e] w1]; [|reflexivity].
  now rewrite forEach_no_descent.
Qed.

Section StaticRemote.

(** The remote tree does not change during the walk: in the state [w0]
    the walk starts in, a listing is a function [ls] of the path and
    leaves the state alone. *)
Variable ls : string -> Result (list FileInfo).
Variable w0 : W.
Hypothesis client_list_static : forall p, client_list p w0 = (ls p, w0).


Lemma in_dirsAtDepth_S useSFTP p d x :
  In x (dirsAtDepth (listingOf ls) useSFTP p (S d)) <->
  exists f, In f (listingOf ls p) /\ descends useSFTP f = true /\
            In x (dirsAtDepth (listingOf ls) useSFTP (fullPathOf p (fi_name f)) d).
Proof.
  revert x. induction d as [|d IH]; intros x.
  - simpl. rewrite app_nil_r, in_map_iff. split.
    + intros [f [Hx Hf]]. apply filter_In in Hf as [Hf Hd].
      exists f. auto.
    + intros [f [Hf [Hd [Hx|[]]]]]. exists f. split; [auto|].
      apply filter_In; auto.
  - change (dirsAtDepth (listingOf ls) useSFTP p (S (S d)))
      with (flat_map
              (fun dir => map (fun f => fullPathOf dir (fi_name f))
                              (filter (descends useSFTP) (listingOf ls dir)))
              (dirsAtDepth (listingOf ls) useSFTP p (S d))).
    rewrite in_flat_map. split.
    + intros [dir [Hdir Hx]]. apply IH in Hdir as [f [Hf [Hd Hdir]]].
      exists f. split; [auto|]. split; [auto|].
      simpl. apply in_flat_map. now exists dir.
    + intros [f [Hf [Hd Hx]]]. simpl in Hx. apply in_flat_map in Hx as [dir [Hdir Hx]].
      exists dir. split; [|auto]. apply IH. now exists f.
Qed.

Lemma in_entriesAtDepth_O useSFTP p e :
  In e (entriesAtDepth (listingOf ls) useSFTP p 0) <->
  In e (map (entryOf useSFTP p) (listingOf ls p)).
Proof. unfold entriesAtDepth. simpl. now rewrite app_nil_r. Qed.

Lemma in_entriesAtDepth_S useSFTP p d e :
  In e (entriesAtDepth (listingOf ls) useSFTP p (S d)) <->
  exists f, In f (listingOf ls p) /\ descends useSFTP f = true /\
            In e (entriesAtDepth (listingOf ls) useSFTP (fullPathOf p (fi_name f)) d).
Proof.
  unfold entriesAtDepth. rewrite in_flat_map. split.
  - intros [dir [Hdir He]]. apply in_dirsAtDepth_S in Hdir as [f [Hf [Hd Hdir]]].
    exists f. split; [auto|]. split; [auto|]. apply in_flat_map. now exists dir.
  - intros [f [Hf [Hd He]]]. apply in_flat_map in He as [dir [Hdir He]].
    exists dir. split; [|auto]. apply in_dirsAtDepth_S. now exists f.
Qed.

Lemma forEach_static k useSFTP p :
  (forall q, walksLevelsOf ls w0 k useSFTP q (walk k useSFTP q w0)) ->
  forall files acc r w',
    forEach (treeStep (walk k useSFTP) useSFTP p) files acc w0 = (r, w') ->
    w' = w0 /\ forall res, r = Ok res -> forall e,
      In e res <->
      In e acc \/
      exists f, In f files /\
        (e = entryOf useSFTP p f \/
         (descends useSFTP f = true /\
          exists d, d < k /\
            In e (entriesAtDepth (listingOf ls) useSFTP (fullPathOf p (fi_name f)) d))).
Proof.
  intros IHk. induction files as [|f files IH]; intros acc r w' Hrun.
  - simpl in Hrun. injection Hrun as <- <-. split; [reflexivity|].
    intros res [= <-] e. split; [auto|]. intros [Hacc|[f [[] _]]]. exact Hacc.
  - simpl in Hrun. unfold bind at 1, treeStep at 1 in Hrun.
    destruct (descends useSFTP f) eqn:Hd.
    + unfold bind at 1 in Hrun.
      pose proof (IHk (fullPathOf p (fi_name f))) as [Hst Hch].
      destruct (walk k useSFTP (fullPathOf p (fi_name f)) w0)
        as [[children|err] w1] eqn:Hw; simpl in Hst, Hch; subst w1.
      * specialize (Hch children eq_refl).
        unfold ret at 1 in Hrun. apply IH in Hrun as [-> Hres].
        split; [reflexivity|]. intros res Hr e. rewrite (Hres res Hr e).
        rewrite !in_app_iff, Hch. simpl. split.
        -- intros [[[Hacc|[He|[]]]|Hc]|[g [Hg Hrest]]].
           ++ now left.
           ++ right. exists f. split; [now left|]. now left.
           ++ right. exists f. split; [now left|]. right. now split.
           ++ right. exists g. split; [now right|]. exact Hrest.
        -- intros [Hacc|[g [[<-|Hg] Hrest]]].
           ++ left. left. now left.
           ++ destruct Hrest as [->|[_ Hc]].
              ** left. left. right. now left.
              ** left. now right.
           ++ right. now exists g.
      * injection Hrun as <- <-.
        split; [reflexivity|]. intros res [=].
    + unfold ret at 1 in Hrun. apply IH in Hrun as [-> Hres].
      split; [reflexivity|]. intros res Hr e. rewrite (Hres res Hr e).
      rewrite in_app_iff. simpl. split.
      * intros [[Hacc|[He|[]]]|[g [Hg Hrest]]].
        -- now left.
        -- right. exists f. split; [now left|]. now left.
        -- right. exists g. split; [now right|]. exact Hrest.
      * intros [Hacc|[g [[<-|Hg] Hrest]]].
        -- left. now left.
        -- destruct Hrest as [->|[Hd' _]]; [|congruence].
           left. right. now left.
        -- right. now exists g.
Qed.

Lemma walk_static k useSFTP :
  forall q, walksLevelsOf ls w0 k useSFTP q (walk k useSFTP q w0).
Proof.
  induction k as [|k IHk]; intros q.
  - split; [reflexivity|]. simpl.
    intros res [= <-] e. split; [intros []|]. intros [d [Hd _]]. lia.
  - destruct (walk (S k) useSFTP q w0) as [r w'] eqn:Hrun.
    simpl in Hrun. unfold bind at 1 in Hrun. rewrite client_list_static in Hrun.
    destruct (ls q) as [files|err] eqn:Hls.
    + apply forEach_static in Hrun as [-> Hres]; [|exact IHk].
      split; [reflexivity|]. simpl. intros res Hr e. rewrite (Hres res Hr e).
      assert (Hfiles : listingOf ls q = files)
        by (unfold listingOf; now rewrite Hls).
      split.
      * intros [[]|[f [Hf [->|[Hd [d [Hlt He]]]]]]].
        -- exists 0. split; [lia|]. apply in_entriesAtDepth_O.
           rewrite Hfiles. now apply in_map.
        -- exists (S d). split; [lia|]. apply in_entriesAtDepth_S.
           exists f. rewrite Hfiles. auto.
      * intros [[|d] [Hlt He]]; right.
        -- apply in_entriesAtDepth_O in He. rewrite Hfiles in He.
           apply in_map_iff in He as [f [<- Hf]]. exists f. auto.
        -- apply in_entriesAtDepth_S in He as [f [Hf [Hd He]]].
           rewrite Hfiles in Hf. exists f. split; [auto|]. right.
           split; [auto|]. exists d. split; [lia|auto].
    + injection Hrun as <- <-. split; [reflexivity|]. intros res [=].
Qed.

End StaticRemote.

(** C5. Depth bound of the tree walk. With [maxDepth = 0] the walk makes
    one listing of the start path and returns its entries, whatever the
    client does. When listings are a function [ls] of the path, a walk
    that returns (no listing failed) returns exactly the entries whose
    depth, counted from 0 for the entries of the start path, is at most
    [maxDepth]: for [maxDepth = 0] the immediate children, for
    [maxDepth = 1] these and the entries of the first-level directories. *)
Theorem tree_depth_bound useSFTP startPath :
  (forall w,
     getTreeRecursive useSFTP startPath 0 0 w =
     (files <- client_list startPath ;;
      ret (map (entryOf useSFTP startPath) files))%js w) /\
  (forall ls maxDepth w res w',
     (forall p, client_list p w = (ls p, w)) ->
     getTreeRecursive useSFTP startPath 0 maxDepth w = (Ok res, w') ->
     let level := entriesAtDepth (listingOf ls) useSFTP startPath in
     (forall e, In e res <->
                exists d, (Z.of_nat d <= maxDepth)%Z /\ In e (level d)) /\
     (maxDepth = 0%Z ->
      res = map (entryOf useSFTP startPath) (listingOf ls startPath)) /\
     (maxDepth = 1%Z ->
      forall e, In e res <-> In e (level 0) \/ In e (level 1))).
Proof.
  split.
  - intros w. apply walk_one_level.
  - intros ls maxDepth w res w' Hls Hrun level.
    assert (Hgen : forall e, In e res <->
              exists d, (Z.of_nat d <= maxDepth)%Z /\ In e (level d)).
    { unfold getTreeRecursive in Hrun.
      pose proof (walk_static ls Hls (Z.to_nat (maxDepth + 1 - 0)) useSFTP startPath)
        as [_ Hres].
      rewrite Hrun in Hres. specialize (Hres res eq_refl).
      intros e. rewrite Hres. split; intros [d [Hd He]]; exists d; (split; [lia|exact He]). }
    split; [exact Hgen|]. split.
    + intros ->. unfold getTreeRecursive in Hrun.
      change (Z.to_nat (0 + 1 - 0)) with 1 in Hrun.
      rewrite walk_one_level in Hrun. unfold bind in Hrun.
      rewrite Hls in Hrun. unfold listingOf.
      destruct (ls startPath) as [files|err]; [|discriminate].
      now injection Hrun as <- _.
    + intros -> e. rewrite Hgen. split.
      * intros [[|[|d]] [Hd He]]; [now left|now right|lia].
      * intros [He|He]; [exists 0|exists 1]; (split; [lia|exact He]).
Qed.

End TreeFacts.

Lemma tree_depth_bound_witness :
  let client := Mem.memClient Examples.treeSnapshot in
  let level :=
    Tree.entriesAtDepth (Tree.listingOf Examples.treeListing) true "." in
  (forall p, @client_list _ client p [] = (Examples.treeListing p, [])) /\
  @Tree.getTreeRecursive _ client true "." 0 1 [] = (Ok Examples.treeDepth1, []) /\
  (forall e, In e Examples.treeDepth1 <->
             exists d, (Z.of_nat d <= 1)%Z /\ In e (level d)) /\
  (1%Z = 0%Z ->
   Examples.treeDepth1 =
   map (Tree.entryOf true ".") (Tree.listingOf Examples.treeListing ".")) /\
  (1%Z = 1%Z ->
   forall e, In e Examples.treeDepth1 <-> In e (level 0) \/ In e (level 1)).
Proof.
  intros client level.
  assert (Hls : forall p, @client_list _ client p [] = (Examples.treeListing p, []))
    by (intros p; reflexivity).
  assert (Hrun : @Tree.getTreeRecursive _ client true "." 0 1 []
                 = (Ok Examples.treeDepth1, []))
    by (vm_compute; reflexivity).
  split; [exact Hls|]. split; [exact Hrun|].
  exact (proj2 (@tree_depth_bound _ client true ".")
               Examples.treeListing 1%Z [] Examples.treeDepth1 [] Hls Hrun).
Defined.

(** ** Protocol selection *)

Section ConnFacts.
Import JSString Conn.

Lemma includes_truthy sub s :
  truthy sub = true -> includes sub s = true -> truthy s = true.
Proof.
  intros Hsub Hinc. apply includes_spec in Hinc as [pre [post ->]].
  destruct pre; [destruct sub; [discriminate|]|]; reflexivity.
Qed.

Lemma startsWith_scheme_includes h :
  startsWith "sftp://" h = true -> includes "sftp" h = true.
Proof.
  intros Hs. apply startsWith_spec in Hs as [t ->].
  apply includes_spec. now exists "", ("://" ++ t).
Qed.

Lemma hostSaysSFTP_includes h :
  hostSaysSFTP (Some h) = includes "sftp" h.
Proof.
  unfold hostSaysSFTP.
  destruct (includes "sftp" h) eqn:Hinc.
  - rewrite (includes_truthy "sftp" h eq_refl Hinc). reflexivity.
  - destruct (startsWith "sftp://" h) eqn:Hs.
    + apply startsWith_scheme_includes in Hs. congruence.
    + now rewrite andb_false_r.
Qed.

(** C10. The protocol is SFTP exactly for the hosts that contain the
    substring [sftp] anywhere, with port 22 when no port is configured;
    every other host (an undefined one too) is FTP with port 21. A host
    name that merely contains [sftp] is therefore treated as SFTP. *)
Theorem protocol_selection (parseIntStr : string -> option Z) (host : string) :
  (isSFTP (Some host) = true <->
   exists pre post, host = pre ++ "sftp" ++ post) /\
  selectProtocol (Some host) =
    (if includes "sftp" host then SFTP else FTP) /\
  getPort parseIntStr (Some host) None =
    (if includes "sftp" host then Some 22%Z else Some 21%Z) /\
  selectProtocol None = FTP /\
  getPort parseIntStr None None = Some 21%Z /\
  selectProtocol (Some "ftp.mysftpmirror.example.org") = SFTP /\
  getPort parseIntStr (Some "ftp.mysftpmirror.example.org") None = Some 22%Z.
Proof.
  unfold selectProtocol, isSFTP, getPort.
  rewrite hostSaysSFTP_includes.
  repeat split; try reflexivity; apply includes_spec.
Qed.

End ConnFacts.

(** ** Request handlers *)

Section HandlerFacts.
Import Handlers.
Context {W : Type} `{Client W}.

(** C7. [ftp_exists] never fails: it always returns the text [true] or
    [false], and when its internal [stat] (SFTP) or [list] of the parent
    directory (FTP) raises an error of any kind, it returns [false]. *)
Theorem exists_never_fails (useSFTP : bool) (path : string) (w : W) :
  (exists (b : bool) w',
     ftp_exists useSFTP path w =
     (Ok (textResponse (if b then "true" else "false")), w')) /\
  (forall e w',
     client_stat path w = (Throw e, w') ->
     ftp_exists true path w = (Ok (textResponse "false"), w')) /\
  (forall e w',
     client_list (dirPathOf path) w = (Throw e, w') ->
     ftp_exists false path w = (Ok (textResponse "false"), w')).
Proof.
  unfold ftp_exists, existsLookup, tryCatch, bind, ret.
  split; [|split].
  - destruct useSFTP.
    + destruct (client_stat path w) as [[st|e] w1].
      * now exists true, w1.
      * now exists false, w1.
    + destruct (client_list (dirPathOf path) w) as [[files|e] w1].
      * now exists
          (existsb (fun f => String.eqb (fi_name f) (fileNameOf path)) files), w1.
      * now exists false, w1.
  - intros e w' ->. reflexivity.
  - intros e w' ->. reflexivity.
Qed.

(** The two branches of [ftp_copy]. *)
Lemma ftp_copy_eq (sourcePath destPath : string) :
  (forall w,
     ftp_copy false sourcePath destPath w =
     (Ok (textResponse copyUnsupportedText), w)) /\
  ftp_copy true sourcePath destPath =
    (buffer <- client_get sourcePath ;;
     client_put (FromBuffer buffer) destPath ;;;
     ret (textResponse
            ("Successfully copied " ++ sourcePath ++ " to " ++ destPath)))%js.
Proof. split; reflexivity. Qed.

End HandlerFacts.

Lemma exists_never_fails_witness :
  let client := Mem.memClient Examples.guardedSnapshot in
  @client_stat _ client "secret/key.pem" [] = (Throw Examples.denied, []) /\
  @client_list _ client (Handlers.dirPathOf "secret/key.pem") []
    = (Throw Examples.denied, []) /\
  @Handlers.ftp_exists _ client true "secret/key.pem" []
    = (Ok (Handlers.textResponse "false"), []) /\
  @Handlers.ftp_exists _ client false "secret/key.pem" []
    = (Ok (Handlers.textResponse "false"), []).
Proof.
  intros client.
  assert (Hstat : @client_stat _ client "secret/key.pem" []
                  = (Throw Examples.denied, [])) by reflexivity.
  assert (Hlist : @client_list _ client (Handlers.dirPathOf "secret/key.pem") []
                  = (Throw Examples.denied, [])) by reflexivity.
  destruct (@exists_never_fails _ client true "secret/key.pem" [])
    as [_ [Hsftp Hftp]].
  split; [exact Hstat|]. split; [exact Hlist|]. split.
  - exact (Hsftp _ _ Hstat).
  - exact (Hftp _ _ Hlist).
Defined.

(** C2. What [ftp_copy] does. On an FTP connection it answers with a
    text saying the operation is unsupported and makes no call on the
    client, so source and destination are left as they were. On an SFTP
    connection it reads the source through the client and writes the
    buffer it got to the destination: on the example server the copy of
    [a.txt] to [b.txt] is one [get] of the source followed by one [put]
    of the content read. *)
Theorem copy_reads_then_writes :
  (forall W (client : Client W) sourcePath destPath,
     (forall w,
        Handlers.ftp_copy false sourcePath destPath w =
        (Ok (Handlers.textResponse Handlers.copyUnsupportedText), w)) /\
     Handlers.ftp_copy true sourcePath destPath =
       (buffer <- client_get sourcePath ;;
        client_put (FromBuffer buffer) destPath ;;;
        ret (Handlers.textResponse
               ("Successfully copied " ++ sourcePath ++ " to " ++ destPath)))%js) /\
  @Handlers.ftp_copy _ (Mem.memClient Examples.copySnapshot) true
    "a.txt" "b.txt" []
  = (Ok (Handlers.textResponse "Successfully copied a.txt to b.txt"),
     [Mem.CGet "a.txt"; Mem.CPut (FromBuffer "hello") "b.txt"]).
Proof.
  split.
  - intros W client sourcePath destPath. apply ftp_copy_eq.
  - reflexivity.
Qed.

(** ** SyncEngine *)

(** Induction on a local tree: a directory that was read satisfies [P]
    when all its entries do. *)
Lemma LNode_tree_ind (P : LNode -> Prop) :
  (forall n st, P (LFile n st)) ->
  (forall n e, P (LDir n (Throw e))) ->
  (forall n l, Forall P l -> P (LDir n (Ok l))) ->
  forall file, P file.
Proof.
  intros Hfile Hthrow Hdir. fix IH 1.
  intros [n st | n [l | e]].
  - apply Hfile.
  - apply Hdir. induction l as [|f l IHl]; constructor.
    + apply IH.
    + exact IHl.
  - apply Hthrow.
Qed.

Section SyncFacts.
Import Ignore Sync Visit.
Context {W : Type} `{Client W} `{NodeEnv}.

(** *** The ignore test *)

Lemma shouldIgnore_spec filePath ignorePatterns basePath :
  shouldIgnore filePath ignorePatterns basePath = true <->
  exists pattern, In pattern ignorePatterns /\
    (minimatch (relativePathOf basePath filePath) pattern
               {| dot := true; matchBase := true |} = true \/
     minimatch (path_basename filePath) pattern
               {| dot := true; matchBase := false |} = true).
Proof.
  unfold shouldIgnore. rewrite existsb_exists.
  split; intros [pattern [Hin Hm]]; exists pattern; (split; [exact Hin|]).
  - now apply orb_true_iff in Hm.
  - now apply orb_true_iff.
Qed.

Lemma shouldIgnore_same_set filePath l1 l2 basePath :
  (forall pattern, In pattern l1 <-> In pattern l2) ->
  shouldIgnore filePath l1 basePath = shouldIgnore filePath l2 basePath.
Proof.
  intros Hset. apply eq_true_iff_eq. rewrite !shouldIgnore_spec.
  split; intros [pattern [Hin Hm]]; exists pattern; (split; [|exact Hm]);
    now apply Hset.
Qed.

Lemma in_withExtra pattern ignorePatterns extraExclude :
  In pattern (withExtra ignorePatterns extraExclude) <->
  In pattern ignorePatterns \/ In pattern extraExclude.
Proof.
  unfold withExtra. destruct extraExclude as [|x extra]; simpl.
  - tauto.
  - rewrite in_app_iff. simpl. tauto.
Qed.

(** The recursive calls append [extraExclude] again at every level; the
    set of patterns, and so the decision, stays the one of the top level. *)
Lemma shouldIgnore_deeper n filePath ignorePatterns extraExclude basePath :
  shouldIgnore filePath
    (Nat.iter n (fun l => withExtra l extraExclude)
       (withExtra ignorePatterns extraExclude)) basePath =
  shouldIgnore filePath (withExtra ignorePatterns extraExclude) basePath.
Proof.
  apply shouldIgnore_same_set. intros pattern.
  induction n as [|n IH]; simpl; [tauto|].
  rewrite in_withExtra, IH, in_withExtra. tauto.
Qed.

(** *** One entry *)

Lemma syncEntry_ignored useSFTP direction extraExclude localPath remotePath
      ignorePatterns basePath file sw :
  shouldIgnore (path_join localPath (lname file)) ignorePatterns basePath = true ->
  syncEntry useSFTP direction extraExclude localPath remotePath
    ignorePatterns basePath file sw =
  (Ok tt, (incIgnored (fst sw), snd sw)).
Proof.
  intros Hign. destruct file; simpl in *; rewrite Hign; reflexivity.
Qed.

(** The file branch: the remote lookup, then either the transfer (counted
    in [uploaded] when it succeeds, recorded in [errors] when it fails) or
    the skip. *)
Lemma syncEntry_file useSFTP direction extraExclude localPath remotePath
      ignorePatterns basePath name mtime s w :
  let localFilePath := path_join localPath name in
  let remoteFilePath := remotePath ++ "/" ++ name in
  shouldIgnore localFilePath ignorePatterns basePath = false ->
  syncEntry useSFTP direction extraExclude localPath remotePath
    ignorePatterns basePath (LFile name (Ok mtime)) (s, w) =
  let (found, w1) := remoteLookup useSFTP remotePath remoteFilePath name w in
  if needsUpload mtime found then
    match transfer useSFTP localFilePath remoteFilePath w1 with
    | (Ok _, w2) => (Ok tt, (incUploaded s, w2))
    | (Throw e, w2) =>
        (Ok tt, (pushError (localFilePath ++ ": " ++ message e) s, w2))
    end
  else (Ok tt, (incSkipped s, w1)).
Proof.
  intros localFilePath remoteFilePath Hign.
  subst localFilePath remoteFilePath. simpl. rewrite Hign.
  unfold tryCatch at 1, bind at 1, liftR at 1, bind at 1.
  unfold decideUpload, tryCatch at 1, bind at 1, liftW at 1. simpl.
  destruct (remoteLookup useSFTP remotePath _ name w)
    as [[[rs|]|e] w1]; simpl.
  - destruct (timeLe mtime (remoteTimeOf rs)); simpl.
    + reflexivity.
    + unfold bind, liftW; simpl.
      destruct (transfer useSFTP _ _ w1) as [[[]|e] w2]; reflexivity.
  - unfold bind, liftW; simpl.
    destruct (transfer useSFTP _ _ w1) as [[[]|e] w2]; reflexivity.
  - unfold bind, liftW; simpl.
    destruct (transfer useSFTP _ _ w1) as [[[]|e'] w2]; reflexivity.
Qed.

(** A file whose [fs.stat] fails. *)
Lemma syncEntry_file_stat_fails useSFTP direction extraExclude localPath
      remotePath ignorePatterns basePath name e s w :
  let localFilePath := path_join localPath name in
  shouldIgnore localFilePath ignorePatterns basePath = false ->
  syncEntry useSFTP direction extraExclude localPath remotePath
    ignorePatterns basePath (LFile name (Throw e)) (s, w) =
  (Ok tt, (pushError (localFilePath ++ ": " ++ message e) s, w)).
Proof.
  intros localFilePath Hign. subst localFilePath. simpl. rewrite Hign.
  reflexivity.
Qed.

(** The directory branch, with the recursive call written as the call of
    [syncFiles] it is in the source. *)
Lemma syncEntry_dir useSFTP direction extraExclude localPath remotePath
      ignorePatterns basePath name readdir s w :
  let localFilePath := path_join localPath name in
  let remoteFilePath := remotePath ++ "/" ++ name in
  shouldIgnore localFilePath ignorePatterns basePath = false ->
  syncEntry useSFTP direction extraExclude localPath remotePath
    ignorePatterns basePath (LDir name readdir) (s, w) =
  match ensureRemoteDir useSFTP remoteFilePath w with
  | (Ok _, w1) =>
      match syncFiles useSFTP localFilePath remoteFilePath direction
              (Some (ignorePatterns, basePath)) extraExclude readdir w1 with
      | (Ok subStats, w2) => (Ok tt, (addSubStats subStats s, w2))
      | (Throw e, w2) =>
          (Ok tt, (pushError (localFilePath ++ ": " ++ message e) s, w2))
      end
  | (Throw e, w1) =>
      (Ok tt, (pushError (localFilePath ++ ": " ++ message e) s, w1))
  end.
Proof.
  intros localFilePath remoteFilePath Hign.
  subst localFilePath remoteFilePath.
  cbn [syncEntry lname]. rewrite Hign.
  unfold tryCatch at 1, bind at 1, liftW at 1. cbn [fst snd].
  destruct (ensureRemoteDir useSFTP _ w) as [[[]|e] w1]; [|reflexivity].
  unfold bind at 1, liftW at 1. cbn [fst snd].
  fold (syncFiles useSFTP (path_join localPath name) (remotePath ++ "/" ++ name)
          direction (Some (ignorePatterns, basePath)) extraExclude readdir).
  destruct (syncFiles useSFTP _ _ direction _ extraExclude readdir w1)
    as [[subStats|e] w2]; reflexivity.
Qed.

(** No error leaves the body of the loop: whatever happens inside the
    [try], one iteration ends normally. *)
Lemma syncEntry_returns useSFTP direction extraExclude localPath remotePath
      ignorePatterns basePath file sw :
  fst (syncEntry useSFTP direction extraExclude localPath remotePath
         ignorePatterns basePath file sw) = Ok tt.
Proof.
  destruct (shouldIgnore (path_join localPath (lname file)) ignorePatterns basePath)
    eqn:Hign.
  - now rewrite syncEntry_ignored.
  - destruct file as [name st | name rd]; cbn [lname] in Hign;
      cbn [syncEntry lname]; rewrite Hign; unfold tryCatch;
      match goal with
      | |- fst (match ?m with _ => _ end) = _ =>
          destruct m as [[[]|e] sw']; reflexivity
      end.
Qed.

(** *** The loop and the whole call *)

Lemma forEach_entries useSFTP direction extraExclude localPath remotePath
      ignorePatterns basePath files sw :
  forEach
    (fun file (_ : unit) =>
       syncEntry useSFTP direction extraExclude localPath remotePath
         ignorePatterns basePath file)
    files tt sw =
  (Ok tt,
   loopState useSFTP direction extraExclude localPath remotePath
     ignorePatterns basePath files sw).
Proof.
  revert sw. induction files as [|f files IH]; intros sw; [reflexivity|].
  cbn [forEach loopState fold_left]. unfold bind at 1.
  pose proof (syncEntry_returns useSFTP direction extraExclude localPath
                remotePath ignorePatterns basePath f sw) as Hret.
  destruct (syncEntry useSFTP direction extraExclude localPath remotePath
              ignorePatterns basePath f sw) as [r sw'].
  cbn [fst snd] in *. subst r. apply IH.
Qed.

(** The equation of [syncFiles]: nothing is done for a direction other
    than [upload] and [both]; an unreadable [localPath] makes the call
    throw; otherwise the report is the one the loop leaves. *)
Lemma syncFiles_eq useSFTP localPath remotePath direction inherited
      extraExclude readdir w :
  let resolved :=
    match inherited with
    | None => (loadIgnorePatterns localPath, localPath)
    | Some pb => pb
    end in
  syncFiles useSFTP localPath remotePath direction inherited extraExclude
    readdir w =
  if wantsUpload direction then
    match readdir with
    | Ok localFiles =>
        let final :=
          loopState useSFTP direction extraExclude localPath remotePath
            (withExtra (fst resolved) extraExclude) (snd resolved)
            localFiles (initStats, w) in
        (Ok (fst final), snd final)
    | Throw e => (Throw e, w)
    end
  else (Ok initStats, w).
Proof.
  intros resolved. unfold syncFiles, syncFilesBody, withLocal.
  fold resolved. unfold bind at 1.
  destruct (wantsUpload direction); [|reflexivity].
  unfold bind at 1, liftR at 1.
  destruct readdir as [localFiles|e]; [|reflexivity].
  rewrite forEach_entries. reflexivity.
Qed.

Lemma loopState_cons useSFTP direction extraExclude localPath remotePath
      ignorePatterns basePath f files sw :
  loopState useSFTP direction extraExclude localPath remotePath
    ignorePatterns basePath (f :: files) sw =
  loopState useSFTP direction extraExclude localPath remotePath
    ignorePatterns basePath files
    (snd (syncEntry useSFTP direction extraExclude localPath remotePath
            ignorePatterns basePath f sw)).
Proof. reflexivity. Qed.

(** *** The download direction *)

Lemma downloaded_entry useSFTP direction extraExclude basePath file :
  forall localPath remotePath ignorePatterns s w,
    downloaded
      (fst (snd (syncEntry useSFTP direction extraExclude localPath remotePath
                   ignorePatterns basePath file (s, w)))) = downloaded s.
Proof.
  induction file as [name st | name e | name l IH] using LNode_tree_ind;
    intros localPath remotePath ignorePatterns s w;
    (destruct (shouldIgnore (path_join localPath name) ignorePatterns basePath)
       eqn:Hign;
     [rewrite syncEntry_ignored by exact Hign; reflexivity|]).
  - destruct st as [mtime|e].
    + rewrite syncEntry_file by exact Hign.
      destruct (remoteLookup useSFTP remotePath _ name w) as [found w1].
      destruct (needsUpload mtime found); [|reflexivity].
      destruct (transfer useSFTP _ _ w1) as [[[]|e] w2]; reflexivity.
    + rewrite syncEntry_file_stat_fails by exact Hign. reflexivity.
  - rewrite syncEntry_dir by exact Hign.
    destruct (ensureRemoteDir useSFTP _ w) as [[[]|e'] w1]; [|reflexivity].
    rewrite syncFiles_eq.
    destruct (wantsUpload direction); simpl; lia.
  - rewrite syncEntry_dir by exact Hign.
    destruct (ensureRemoteDir useSFTP _ w) as [[[]|e'] w1]; [|reflexivity].
    rewrite syncFiles_eq. cbn [fst snd].
    destruct (wantsUpload direction); [|simpl; lia].
    cbn [fst snd addSubStats downloaded].
    set (lp := path_join localPath name).
    set (rp := (remotePath ++ "/" ++ name)%string).
    set (pats := withExtra ignorePatterns extraExclude).
    assert (Hloop : forall sw,
               downloaded (fst (loopState useSFTP direction extraExclude lp rp
                                  pats basePath l sw)) = downloaded (fst sw)).
    { clear -IH. induction IH as [|f l Hf _ IHl]; intros sw; [reflexivity|].
      rewrite loopState_cons, IHl. destruct sw as [s w]. apply Hf. }
    rewrite Hloop. simpl. lia.
Qed.

Lemma downloaded_loop useSFTP direction extraExclude localPath remotePath
      ignorePatterns basePath files sw :
  downloaded
    (fst (loopState useSFTP direction extraExclude localPath remotePath
            ignorePatterns basePath files sw)) = downloaded (fst sw).
Proof.
  revert sw. induction files as [|f files IH]; intros sw; [reflexivity|].
  rewrite loopState_cons, IH. destruct sw as [s w]. apply downloaded_entry.
Qed.

Lemma syncFiles_download useSFTP localPath remotePath inherited
      extraExclude readdir w :
  syncFiles useSFTP localPath remotePath "download" inherited extraExclude
    readdir w = (Ok initStats, w).
Proof. rewrite syncFiles_eq. reflexivity. Qed.

Lemma syncFiles_downloaded_zero useSFTP localPath remotePath direction
      inherited extraExclude readdir w :
  match fst (syncFiles useSFTP localPath remotePath direction inherited
               extraExclude readdir w) with
  | Ok report => downloaded report = 0
  | Throw _ => True
  end.
Proof.
  rewrite syncFiles_eq.
  destruct (wantsUpload direction); [|reflexivity].
  destruct readdir as [localFiles|e]; [|exact I].
  cbn [fst]. now rewrite downloaded_loop.
Qed.

(** *** Counters against the entries visited *)

Lemma counted_incIgnored s : counted (incIgnored s) = counted s + 1.
Proof. unfold counted; simpl; lia. Qed.

Lemma counted_incSkipped s : counted (incSkipped s) = counted s + 1.
Proof. unfold counted; simpl; lia. Qed.

Lemma counted_incUploaded s : counted (incUploaded s) = counted s + 1.
Proof. unfold counted; simpl; lia. Qed.

Lemma counted_pushError msg s : counted (pushError msg s) = counted s.
Proof. reflexivity. Qed.

Lemma counted_addSubStats sub s :
  counted (addSubStats sub s) = counted s + counted sub.
Proof. unfold counted; simpl; lia. Qed.

Lemma visit_bound_loop useSFTP direction extraExclude basePath
      localPath remotePath ignorePatterns files :
  Forall
    (fun file =>
       forall localPath remotePath ignorePatterns s w,
         counted
           (fst (snd (syncEntry useSFTP direction extraExclude localPath
                        remotePath ignorePatterns basePath file (s, w))))
         <= counted s
            + List.length
                (visitedEntry useSFTP direction extraExclude localPath
                   remotePath ignorePatterns basePath file (s, w)))
    files ->
  forall sw,
    counted
      (fst (loopState useSFTP direction extraExclude localPath remotePath
              ignorePatterns basePath files sw))
    <= counted (fst sw)
       + List.length
           (visitLoop
              (visitedEntry useSFTP direction extraExclude localPath
                 remotePath ignorePatterns basePath)
              (fun f sw' =>
                 snd (syncEntry useSFTP direction extraExclude localPath
                        remotePath ignorePatterns basePath f sw'))
              files sw).
Proof.
  induction 1 as [|f l Hf _ IHl]; intros sw.
  - simpl. lia.
  - rewrite loopState_cons. cbn [visitLoop]. rewrite length_app.
    specialize (IHl (snd (syncEntry useSFTP direction extraExclude localPath
                            remotePath ignorePatterns basePath f sw))).
    destruct sw as [s w].
    specialize (Hf localPath remotePath ignorePatterns s w).
    cbn [fst] in *. lia.
Qed.

Ltac count_steps :=
  cbn [fst snd List.length];
  rewrite ?counted_incIgnored, ?counted_incSkipped, ?counted_incUploaded,
    ?counted_pushError, ?counted_addSubStats;
  try change (counted initStats) with 0;
  try lia.

Lemma visit_bound_entry useSFTP direction extraExclude basePath file :
  forall localPath remotePath ignorePatterns s w,
    counted
      (fst (snd (syncEntry useSFTP direction extraExclude localPath
                   remotePath ignorePatterns basePath file (s, w))))
    <= counted s
       + List.length
           (visitedEntry useSFTP direction extraExclude localPath
              remotePath ignorePatterns basePath file (s, w)).
Proof.
  induction file as [name st | name e | name l IH] using LNode_tree_ind;
    intros localPath remotePath ignorePatterns s w;
    cbn [visitedEntry lname];
    (destruct (shouldIgnore (path_join localPath name) ignorePatterns basePath)
       eqn:Hign;
     [rewrite syncEntry_ignored by exact Hign; count_steps|]).
  - destruct st as [mtime|e].
    + rewrite syncEntry_file by exact Hign.
      destruct (remoteLookup useSFTP remotePath _ name w) as [found w1].
      destruct (needsUpload mtime found).
      * destruct (transfer useSFTP _ _ w1) as [[[]|e] w2]; count_steps.
      * count_steps.
    + rewrite syncEntry_file_stat_fails by exact Hign. count_steps.
  - rewrite syncEntry_dir by exact Hign. cbn [snd].
    destruct (ensureRemoteDir useSFTP _ w) as [[[]|e'] w1]; [|count_steps].
    rewrite syncFiles_eq.
    destruct (wantsUpload direction); count_steps.
  - rewrite syncEntry_dir by exact Hign. cbn [snd].
    destruct (ensureRemoteDir useSFTP _ w) as [[[]|e'] w1]; [|count_steps].
    rewrite syncFiles_eq. cbn [fst snd].
    destruct (wantsUpload direction); [|count_steps].
    pose proof (@visit_bound_loop useSFTP direction extraExclude basePath
                  (path_join localPath name) (remotePath ++ "/" ++ name)
                  (withExtra ignorePatterns extraExclude) l IH (initStats, w1))
      as Hloop.
    cbn [fst] in Hloop. change (counted initStats) with 0 in Hloop.
    count_steps.
Qed.

(** C8. The report of an upload run accounts for at most the entries it
    visited: one iteration of the loop adds to [uploaded + skipped +
    ignored] at most the number of entries visited for its entry (one for
    a file or an ignored entry), and for a whole run [uploaded + skipped +
    ignored] of the report is at most the number of local entries the
    loop of [syncFiles] ran on, over the whole recursion. *)
Theorem report_counts_bounded useSFTP direction extraExclude :
  (forall localPath remotePath ignorePatterns basePath file s w,
     let after :=
       fst (snd (syncEntry useSFTP direction extraExclude localPath
                   remotePath ignorePatterns basePath file (s, w))) in
     let seen :=
       visitedEntry useSFTP direction extraExclude localPath remotePath
         ignorePatterns basePath file (s, w) in
     uploaded after + skipped after + ignored after
     <= uploaded s + skipped s + ignored s + List.length seen /\
     (match file with
      | LFile _ _ => seen = [path_join localPath (lname file)]
      | LDir _ _ => True
      end)) /\
  (forall localPath remotePath inherited readdir w report w',
     syncFiles useSFTP localPath remotePath direction inherited extraExclude
       readdir w = (Ok report, w') ->
     uploaded report + skipped report + ignored report
     <= List.length
          (visited useSFTP localPath remotePath direction inherited
             extraExclude readdir w)).
Proof.
  split.
  - intros localPath remotePath ignorePatterns basePath file s w after seen.
    subst after seen. split.
    + apply visit_bound_entry.
    + destruct file as [name st|name rd]; [|exact I].
      cbn [visitedEntry lname].
      now destruct (shouldIgnore (path_join localPath name) ignorePatterns basePath).
  - intros localPath remotePath inherited readdir w report w'.
    rewrite syncFiles_eq. unfold visited.
    destruct (wantsUpload direction).
    + destruct readdir as [localFiles|e]; [|discriminate].
      cbn zeta. intros [= <- _].
      match goal with
      | |- _ <= List.length
                  (visitLoop (visitedEntry _ _ _ ?lp ?rp ?pats ?base) _ _ ?sw) =>
          pose proof (@visit_bound_loop useSFTP direction extraExclude base
                        lp rp pats localFiles) as Hloop;
          specialize (Hloop ltac:(apply Forall_forall; intros f _;
                                  apply visit_bound_entry) sw)
      end.
      cbn [fst] in Hloop. change (counted initStats) with 0 in Hloop.
      unfold counted in Hloop. exact Hloop.
    + intros [= <- _]. destruct readdir; simpl; lia.
Qed.

(** *** The decision for one file *)

Lemma remoteLookup_throws useSFTP remotePath remoteFilePath fileName w e w1 :
  (useSFTP = true /\ client_stat remoteFilePath w = (Throw e, w1)) \/
  (useSFTP = false /\ client_list remotePath w = (Throw e, w1)) ->
  remoteLookup useSFTP remotePath remoteFilePath fileName w = (Throw e, w1).
Proof.
  unfold remoteLookup, bind. intros [[-> Hc]|[-> Hc]]; now rewrite Hc.
Qed.

(** The remote time the comparison uses, for the two shapes of entry: the
    [modifyTime] of ssh2-sftp-client when it is not the number 0, the
    [modifiedAt] date of basic-ftp when it is set. *)
Lemma remoteTimeOf_modifyTime rs n :
  fi_modifyTime rs = Some n -> n <> 0%Z -> remoteTimeOf rs = Valid n.
Proof.
  unfold remoteTimeOf. intros -> Hn.
  apply Z.eqb_neq in Hn. now rewrite Hn.
Qed.

Lemma remoteTimeOf_modifiedAt rs d :
  fi_modifyTime rs = None -> fi_modifiedAt rs = Some d -> remoteTimeOf rs = d.
Proof. unfold remoteTimeOf. now intros -> ->. Qed.

(** X22. Newer wins whenever the remote time the code reads is a valid
    time, for a local file that is not ignored and whose local
    modification time is [mtime]. When the remote lookup finds no entry
    (it returns none, or raises), or finds one whose time, as
    [remoteTimeOf] reads it, is valid and strictly older than [mtime], the
    file is transferred in the state the lookup left, and [uploaded] is
    incremented once the transfer has succeeded. When it finds an entry
    whose time is valid and equal to or newer than [mtime], no transfer is
    made and [skipped] is incremented. An entry whose [modifyTime] is the
    number 0 is not among these: its time is read as an Invalid Date. *)
Theorem newer_wins useSFTP direction extraExclude localPath remotePath
        ignorePatterns basePath name (mtime : Z) s w :
  let localFilePath := path_join localPath name in
  let remoteFilePath := remotePath ++ "/" ++ name in
  let run :=
    syncEntry useSFTP direction extraExclude localPath remotePath
      ignorePatterns basePath (LFile name (Ok (Valid mtime))) (s, w) in
  shouldIgnore localFilePath ignorePatterns basePath = false ->
  (forall found w1 w2,
     remoteLookup useSFTP remotePath remoteFilePath name w = (found, w1) ->
     (found = Ok None \/ (exists e, found = Throw e) \/
      exists rs t, found = Ok (Some rs) /\
                   remoteTimeOf rs = Valid t /\ (t < mtime)%Z) ->
     transfer useSFTP localFilePath remoteFilePath w1 = (Ok tt, w2) ->
     run = (Ok tt, (incUploaded s, w2))) /\
  (forall rs t w1,
     remoteLookup useSFTP remotePath remoteFilePath name w
       = (Ok (Some rs), w1) ->
     remoteTimeOf rs = Valid t -> (mtime <= t)%Z ->
     run = (Ok tt, (incSkipped s, w1))).
Proof.
  intros localFilePath remoteFilePath run Hign. subst run.
  rewrite syncEntry_file by exact Hign.
  fold localFilePath remoteFilePath. split.
  - intros found w1 w2 -> Hfound ->.
    assert (Hneed : needsUpload (Valid mtime) found = true).
    { destruct Hfound as [-> | [[e ->] | [rs [t [-> [Ht Hlt]]]]]];
        [reflexivity | reflexivity |].
      simpl. rewrite Ht. simpl.
      apply negb_true_iff, Z.leb_gt. exact Hlt. }
    now rewrite Hneed.
  - intros rs t w1 -> Ht Hle. simpl. rewrite Ht. simpl.
    apply Z.leb_le in Hle. now rewrite Hle.
Qed.

(** C3. The comparison of modification times misses one case. On SFTP,
    when the remote entry found has [modifyTime] equal to the number 0 (a
    file dated 1 January 1970, 00:00 UTC) and, as ssh2-sftp-client leaves
    them, neither [modifiedAt] nor [rawModifiedAt], the chain
    [modifyTime || modifiedAt || new Date(rawModifiedAt)] takes the 0 for
    an absent value: the remote time compared with is an Invalid Date, not
    0. The test [localStat.mtime <= remoteTime] is then false for every
    local time, so a local file that is not ignored is transferred and
    [uploaded] is incremented whatever its modification time [mtime] is,
    also when [mtime <= 0], that is when the remote modification time is
    equal to or newer than the local one; [skipped] is not incremented. *)
Theorem epoch_remote_time_uploads direction extraExclude localPath remotePath
        ignorePatterns basePath name rs s w w1 w2 :
  let localFilePath := path_join localPath name in
  let remoteFilePath := remotePath ++ "/" ++ name in
  shouldIgnore localFilePath ignorePatterns basePath = false ->
  client_stat remoteFilePath w = (Ok rs, w1) ->
  fi_modifyTime rs = Some 0%Z ->
  fi_modifiedAt rs = None ->
  fi_rawModifiedAt rs = None ->
  client_put (FromPath localFilePath) remoteFilePath w1 = (Ok tt, w2) ->
  remoteTimeOf rs = Invalid /\
  forall mtime : Z,
    timeLe (Valid mtime) (remoteTimeOf rs) = false /\
    syncEntry true direction extraExclude localPath remotePath
      ignorePatterns basePath (LFile name (Ok (Valid mtime))) (s, w)
    = (Ok tt, (incUploaded s, w2)) /\
    skipped (incUploaded s) = skipped s /\
    ((mtime <= 0)%Z ->
     syncEntry true direction extraExclude localPath remotePath
       ignorePatterns basePath (LFile name (Ok (Valid mtime))) (s, w)
     <> (Ok tt, (incSkipped s, w1))).
Proof.
  intros localFilePath remoteFilePath Hign Hstat Hzero Hat Hraw Hput.
  assert (Htime : remoteTimeOf rs = Invalid).
  { unfold remoteTimeOf, newDate. now rewrite Hzero, Hat, Hraw. }
  split; [exact Htime|]. intros mtime.
  assert (Hrun :
    syncEntry true direction extraExclude localPath remotePath
      ignorePatterns basePath (LFile name (Ok (Valid mtime))) (s, w)
    = (Ok tt, (incUploaded s, w2))).
  { rewrite syncEntry_file by exact Hign.
    fold localFilePath remoteFilePath.
    unfold remoteLookup, bind, ret. rewrite Hstat.
    cbn [needsUpload]. rewrite Htime. cbn [timeLe negb].
    unfold transfer. now rewrite Hput. }
  rewrite Htime. split; [reflexivity|]. split; [exact Hrun|].
  split; [reflexivity|].
  intros _. rewrite Hrun. intros Heq.
  assert (Hup : uploaded (incUploaded s) = uploaded (incSkipped s))
    by congruence.
  cbn [incUploaded incSkipped uploaded] in Hup. lia.
Qed.

(** C9. For a local file that is not ignored: when the remote metadata
    lookup ([stat] on SFTP, the listing of the remote directory on FTP)
    raises an error of any kind, the file is transferred as if it were
    absent; the error of the lookup is recorded nowhere, the report only
    changes by the outcome of the transfer. *)
Theorem lookup_failure_swallowed useSFTP direction extraExclude localPath
        remotePath ignorePatterns basePath name mtime s w e w1 :
  let localFilePath := path_join localPath name in
  let remoteFilePath := remotePath ++ "/" ++ name in
  let run :=
    syncEntry useSFTP direction extraExclude localPath remotePath
      ignorePatterns basePath (LFile name (Ok mtime)) (s, w) in
  shouldIgnore localFilePath ignorePatterns basePath = false ->
  (useSFTP = true /\ client_stat remoteFilePath w = (Throw e, w1)) \/
  (useSFTP = false /\ client_list remotePath w = (Throw e, w1)) ->
  run =
    match transfer useSFTP localFilePath remoteFilePath w1 with
    | (Ok _, w2) => (Ok tt, (incUploaded s, w2))
    | (Throw e', w2) =>
        (Ok tt, (pushError (localFilePath ++ ": " ++ message e') s, w2))
    end /\
  (forall w2,
     transfer useSFTP localFilePath remoteFilePath w1 = (Ok tt, w2) ->
     run = (Ok tt, (incUploaded s, w2)) /\
     errors (fst (snd run)) = errors s /\
     uploaded (fst (snd run)) = uploaded s + 1).
Proof.
  intros localFilePath remoteFilePath run Hign Hthrow. subst run.
  rewrite syncEntry_file by exact Hign.
  fold localFilePath remoteFilePath.
  rewrite (@remoteLookup_throws useSFTP remotePath remoteFilePath name w e w1
             Hthrow).
  cbn [needsUpload].
  split; [reflexivity|].
  intros w2 ->. repeat split.
Qed.

(** *** Errors of one entry *)

Lemma file_step_ok useSFTP direction extraExclude localPath remotePath
      ignorePatterns basePath name mtime :
  shouldIgnore (path_join localPath name) ignorePatterns basePath = false ->
  (forall w, fst (transfer useSFTP (path_join localPath name)
                    (remotePath ++ "/" ++ name) w) = Ok tt) ->
  forall s w, exists s' w',
    syncEntry useSFTP direction extraExclude localPath remotePath
      ignorePatterns basePath (LFile name (Ok mtime)) (s, w)
    = (Ok tt, (s', w')) /\
    errors s' = errors s /\
    uploaded s' + skipped s' = uploaded s + skipped s + 1.
Proof.
  intros Hign Hok s w. rewrite syncEntry_file by exact Hign.
  destruct (remoteLookup useSFTP remotePath _ name w) as [found w1].
  destruct (needsUpload mtime found).
  - specialize (Hok w1).
    destruct (transfer useSFTP _ _ w1) as [[[]|e] w2]; [|discriminate].
    exists (incUploaded s), w2. simpl. repeat split; lia.
  - exists (incSkipped s), w1. simpl. repeat split; lia.
Qed.

Lemma file_step_fails useSFTP direction extraExclude localPath remotePath
      ignorePatterns basePath name mtime e :
  shouldIgnore (path_join localPath name) ignorePatterns basePath = false ->
  (forall w, needsUpload mtime
               (fst (remoteLookup useSFTP remotePath
                       (remotePath ++ "/" ++ name) name w)) = true) ->
  (forall w, fst (transfer useSFTP (path_join localPath name)
                    (remotePath ++ "/" ++ name) w) = Throw e) ->
  forall s w, exists w',
    syncEntry useSFTP direction extraExclude localPath remotePath
      ignorePatterns basePath (LFile name (Ok mtime)) (s, w)
    = (Ok tt,
       (pushError (path_join localPath name ++ ": " ++ message e) s, w')).
Proof.
  intros Hign Hneed Hfail s w. rewrite syncEntry_file by exact Hign.
  specialize (Hneed w).
  destruct (remoteLookup useSFTP remotePath _ name w) as [found w1].
  cbn [fst] in Hneed. rewrite Hneed.
  specialize (Hfail w1).
  destruct (transfer useSFTP _ _ w1) as [[[]|e'] w2]; [discriminate|].
  cbn [fst] in Hfail. injection Hfail as ->. now exists w2.
Qed.

(** C4, as the code has it. An error raised while one entry is processed
    never leaves the loop: the iteration ends normally and the loop goes
    on with the next sibling. An error of the local [stat], of the
    transfer, of the creation of the remote directory or of the reading
    of a sub-directory is recorded as ["<local path>: <message>"], once;
    an error of the remote lookup is not recorded (the file is uploaded).
    For a directory of three files that are not ignored, where the
    transfer of the second is due and fails while those of the first and
    third do not fail, the report has [uploaded + skipped = 2] and one
    error, the one of the second file, and the third file is processed
    after it. *)
Theorem entry_errors_isolated useSFTP direction extraExclude localPath
        remotePath ignorePatterns basePath :
  let entry :=
    syncEntry useSFTP direction extraExclude localPath remotePath
      ignorePatterns basePath in
  let localFilePath name := path_join localPath name in
  let remoteFilePath name := remotePath ++ "/" ++ name in
  let record name e s := pushError (localFilePath name ++ ": " ++ message e) s in
  (forall file files sw,
     fst (entry file sw) = Ok tt /\
     forEach (fun f (_ : unit) => entry f) (file :: files) tt sw =
     forEach (fun f (_ : unit) => entry f) files tt (snd (entry file sw))) /\
  (forall name e s w,
     shouldIgnore (localFilePath name) ignorePatterns basePath = false ->
     entry (LFile name (Throw e)) (s, w) = (Ok tt, (record name e s, w))) /\
  (forall name mtime e s w found w1 w2,
     shouldIgnore (localFilePath name) ignorePatterns basePath = false ->
     remoteLookup useSFTP remotePath (remoteFilePath name) name w
       = (found, w1) ->
     needsUpload mtime found = true ->
     transfer useSFTP (localFilePath name) (remoteFilePath name) w1
       = (Throw e, w2) ->
     entry (LFile name (Ok mtime)) (s, w) = (Ok tt, (record name e s, w2))) /\
  (forall name mtime e s w w1 w2,
     shouldIgnore (localFilePath name) ignorePatterns basePath = false ->
     remoteLookup useSFTP remotePath (remoteFilePath name) name w
       = (Throw e, w1) ->
     transfer useSFTP (localFilePath name) (remoteFilePath name) w1
       = (Ok tt, w2) ->
     entry (LFile name (Ok mtime)) (s, w) = (Ok tt, (incUploaded s, w2))) /\
  (forall name readdir e s w w1,
     shouldIgnore (localFilePath name) ignorePatterns basePath = false ->
     ensureRemoteDir useSFTP (remoteFilePath name) w = (Throw e, w1) ->
     entry (LDir name readdir) (s, w) = (Ok tt, (record name e s, w1))) /\
  (forall name e s w w1,
     shouldIgnore (localFilePath name) ignorePatterns basePath = false ->
     wantsUpload direction = true ->
     ensureRemoteDir useSFTP (remoteFilePath name) w = (Ok tt, w1) ->
     entry (LDir name (Throw e)) (s, w) = (Ok tt, (record name e s, w1))) /\
  (forall n1 n2 n3 t1 t2 t3 e,
     wantsUpload direction = true ->
     ignorePatterns = withExtra (loadIgnorePatterns localPath) extraExclude ->
     basePath = localPath ->
     (forall n, In n [n1; n2; n3] ->
                shouldIgnore (localFilePath n) ignorePatterns basePath = false) ->
     (forall w, fst (transfer useSFTP (localFilePath n1) (remoteFilePath n1) w)
                = Ok tt) ->
     (forall w, needsUpload t2
                  (fst (remoteLookup useSFTP remotePath (remoteFilePath n2) n2 w))
                = true) ->
     (forall w, fst (transfer useSFTP (localFilePath n2) (remoteFilePath n2) w)
                = Throw e) ->
     (forall w, fst (transfer useSFTP (localFilePath n3) (remoteFilePath n3) w)
                = Ok tt) ->
     forall w, exists report w',
       syncFiles useSFTP localPath remotePath direction None extraExclude
         (Ok [LFile n1 (Ok t1); LFile n2 (Ok t2); LFile n3 (Ok t3)]) w
       = (Ok report, w') /\
       uploaded report + skipped report = 2 /\
       errors report = [localFilePath n2 ++ ": " ++ message e] /\
       exists s2 w2,
         errors s2 = [localFilePath n2 ++ ": " ++ message e] /\
         uploaded s2 + skipped s2 = 1 /\
         entry (LFile n3 (Ok t3)) (s2, w2) = (Ok tt, (report, w'))).
Proof.
  intros entry localFilePath remoteFilePath record.
  subst entry localFilePath remoteFilePath record. cbn beta.
  split; [|split; [|split; [|split; [|split; [|split]]]]].
  - intros file files sw.
    pose proof (syncEntry_returns useSFTP direction extraExclude localPath
                  remotePath ignorePatterns basePath file sw) as Hret.
    split; [exact Hret|].
    cbn [forEach]. unfold bind at 1.
    destruct (syncEntry useSFTP direction extraExclude localPath remotePath
                ignorePatterns basePath file sw) as [r sw'].
    cbn [fst snd] in *. now subst r.
  - intros name e s w Hign. now apply syncEntry_file_stat_fails.
  - intros name mtime e s w found w1 w2 Hign Hlook Hneed Htr.
    rewrite syncEntry_file by exact Hign.
    now rewrite Hlook, Hneed, Htr.
  - intros name mtime e s w w1 w2 Hign Hlook Htr.
    rewrite syncEntry_file by exact Hign.
    now rewrite Hlook, Htr.
  - intros name readdir e s w w1 Hign Hmk.
    rewrite syncEntry_dir by exact Hign. now rewrite Hmk.
  - intros name e s w w1 Hign Hup Hmk.
    rewrite syncEntry_dir by exact Hign. rewrite Hmk, syncFiles_eq, Hup.
    reflexivity.
  - intros n1 n2 n3 t1 t2 t3 e Hup -> -> Hign T1 L2 T2 T3 w.
    rewrite syncFiles_eq, Hup. cbn [fst snd].
    rewrite !loopState_cons. cbn [loopState fold_left].
    destruct (@file_step_ok useSFTP direction extraExclude localPath remotePath
                _ localPath n1 t1 (Hign n1 (or_introl eq_refl)) T1 initStats w)
      as [s1 [w1 [-> [He1 Hc1]]]]. cbn [snd].
    destruct (@file_step_fails useSFTP direction extraExclude localPath
                remotePath _ localPath n2 t2 e
                (Hign n2 (or_intror (or_introl eq_refl))) L2 T2 s1 w1)
      as [w2 ->]. cbn [snd].
    destruct (@file_step_ok useSFTP direction extraExclude localPath remotePath
                _ localPath n3 t3
                (Hign n3 (or_intror (or_intror (or_introl eq_refl)))) T3
                (pushError (path_join localPath n2 ++ ": " ++ message e) s1) w2)
      as [s3 [w3 [Hrun3 [He3 Hc3]]]].
    rewrite Hrun3. cbn [fst snd].
    simpl in He1, Hc1, He3, Hc3. rewrite He1 in He3. simpl in He3.
    exists s3, w3. split; [reflexivity|]. split; [lia|]. split; [exact He3|].
    exists (pushError (path_join localPath n2 ++ ": " ++ message e) s1), w2.
    simpl. rewrite He1. split; [reflexivity|]. split; [lia|exact Hrun3].
Qed.

(** *** Ignored entries *)

Section IgnoredCount.

(** The rule set of the top-level call and the set every level uses. *)
Variables (useSFTP : bool) (direction : string) (extraExclude : list string).
Variables (combined : list string) (basePath : string).
Hypothesis extra_in_combined :
  forall pattern, In pattern extraExclude -> In pattern combined.

Lemma same_set_withExtra ignorePatterns :
  (forall pattern, In pattern ignorePatterns <-> In pattern combined) ->
  forall pattern,
    In pattern (withExtra ignorePatterns extraExclude) <-> In pattern combined.
Proof.
  intros Hset pattern. rewrite in_withExtra, Hset.
  split; [intros [Hc|Hx]; auto | auto].
Qed.

Lemma ignored_loop localPath remotePath ignorePatterns files :
  Forall
    (fun file =>
       forall localPath remotePath ignorePatterns s w,
         (forall pattern, In pattern ignorePatterns <-> In pattern combined) ->
         ignored
           (fst (snd (syncEntry useSFTP direction extraExclude localPath
                        remotePath ignorePatterns basePath file (s, w))))
         = ignored s
           + ignoredAmong combined basePath
               (visitedEntry useSFTP direction extraExclude localPath
                  remotePath ignorePatterns basePath file (s, w)))
    files ->
  (forall pattern, In pattern ignorePatterns <-> In pattern combined) ->
  forall sw,
    ignored
      (fst (loopState useSFTP direction extraExclude localPath remotePath
              ignorePatterns basePath files sw))
    = ignored (fst sw)
      + ignoredAmong combined basePath
          (visitLoop
             (visitedEntry useSFTP direction extraExclude localPath
                remotePath ignorePatterns basePath)
             (fun f sw' =>
                snd (syncEntry useSFTP direction extraExclude localPath
                       remotePath ignorePatterns basePath f sw'))
             files sw).
Proof.
  intros Hall Hset. unfold ignoredAmong in *.
  induction Hall as [|f l Hf _ IHl]; intros sw.
  - simpl. lia.
  - rewrite loopState_cons. cbn [visitLoop].
    rewrite filter_app, length_app, IHl.
    destruct sw as [s w]. rewrite (Hf localPath remotePath ignorePatterns s w Hset).
    cbn [fst]. lia.
Qed.

Lemma ignored_entry file :
  forall localPath remotePath ignorePatterns s w,
    (forall pattern, In pattern ignorePatterns <-> In pattern combined) ->
    ignored
      (fst (snd (syncEntry useSFTP direction extraExclude localPath
                   remotePath ignorePatterns basePath file (s, w))))
    = ignored s
      + ignoredAmong combined basePath
          (visitedEntry useSFTP direction extraExclude localPath
             remotePath ignorePatterns basePath file (s, w)).
Proof.
  induction file as [name st | name e | name l IH] using LNode_tree_ind;
    intros localPath remotePath ignorePatterns s w Hset;
    unfold ignoredAmong; cbn [visitedEntry lname];
    pose proof (shouldIgnore_same_set (path_join localPath name)
                  ignorePatterns combined basePath Hset) as Hsame;
    (destruct (shouldIgnore (path_join localPath name) ignorePatterns basePath)
       eqn:Hign;
     [rewrite syncEntry_ignored by exact Hign;
      cbn [filter]; rewrite <- Hsame; reflexivity|]);
    cbn [filter]; rewrite <- Hsame.
  - destruct st as [mtime|e].
    + rewrite syncEntry_file by exact Hign.
      destruct (remoteLookup useSFTP remotePath _ name w) as [found w1].
      destruct (needsUpload mtime found).
      * destruct (transfer useSFTP _ _ w1) as [[[]|e] w2]; simpl; lia.
      * simpl; lia.
    + rewrite syncEntry_file_stat_fails by exact Hign. simpl; lia.
  - rewrite syncEntry_dir by exact Hign. cbn [snd].
    destruct (ensureRemoteDir useSFTP _ w) as [[[]|e'] w1]; [|simpl; lia].
    rewrite syncFiles_eq.
    destruct (wantsUpload direction); simpl; lia.
  - rewrite syncEntry_dir by exact Hign. cbn [snd].
    destruct (ensureRemoteDir useSFTP _ w) as [[[]|e'] w1]; [|simpl; lia].
    rewrite syncFiles_eq. cbn [fst snd].
    destruct (wantsUpload direction); [|simpl; lia].
    cbn [fst snd addSubStats ignored].
    rewrite (@ignored_loop (path_join localPath name) (remotePath ++ "/" ++ name)
               (withExtra ignorePatterns extraExclude) l IH
               (same_set_withExtra ignorePatterns Hset) (initStats, w1)).
    unfold ignoredAmong. simpl. lia.
Qed.

End IgnoredCount.

(** C6. A local entry is ignored exactly when some pattern of the rule
    set matches its path relative to the root, written with forward
    slashes, or its bare name; a pattern that matches the bare name
    ignores every entry of that name, at any depth. An ignored entry adds
    one to [ignored] and nothing else happens for it: no call on the
    client, and for a directory no visit of its entries. An entry that is
    not ignored does not count as ignored. Over a whole run, [ignored] is
    the number of visited entries that the combined rule set ignores. *)
Theorem ignore_rule useSFTP direction extraExclude localPath remotePath
        ignorePatterns basePath :
  let entry :=
    syncEntry useSFTP direction extraExclude localPath remotePath
      ignorePatterns basePath in
  (forall filePath,
     shouldIgnore filePath ignorePatterns basePath = true <->
     exists pattern, In pattern ignorePatterns /\
       (minimatch
          (JSString.backslashToSlash (path_relative basePath filePath)) pattern
          {| dot := true; matchBase := true |} = true \/
        minimatch (path_basename filePath) pattern
                  {| dot := true; matchBase := false |} = true)) /\
  (forall filePath other pattern,
     In pattern ignorePatterns ->
     minimatch (path_basename filePath) pattern
               {| dot := true; matchBase := false |} = true ->
     path_basename other = path_basename filePath ->
     shouldIgnore other ignorePatterns basePath = true) /\
  (forall file sw,
     shouldIgnore (path_join localPath (lname file)) ignorePatterns basePath
       = true ->
     entry file sw = (Ok tt, (incIgnored (fst sw), snd sw)) /\
     visitedEntry useSFTP direction extraExclude localPath remotePath
       ignorePatterns basePath file sw = [path_join localPath (lname file)]) /\
  (forall name st s w,
     shouldIgnore (path_join localPath name) ignorePatterns basePath = false ->
     ignored (fst (snd (entry (LFile name st) (s, w)))) = ignored s) /\
  (forall n filePath,
     shouldIgnore filePath
       (Nat.iter n (fun l => withExtra l extraExclude)
          (withExtra ignorePatterns extraExclude)) basePath =
     shouldIgnore filePath (withExtra ignorePatterns extraExclude) basePath) /\
  (forall inherited readdir w report w',
     let resolved :=
       match inherited with
       | None => (loadIgnorePatterns localPath, localPath)
       | Some pb => pb
       end in
     syncFiles useSFTP localPath remotePath direction inherited extraExclude
       readdir w = (Ok report, w') ->
     ignored report =
     ignoredAmong (withExtra (fst resolved) extraExclude) (snd resolved)
       (visited useSFTP localPath remotePath direction inherited
          extraExclude readdir w)).
Proof.
  intros entry. subst entry.
  split; [|split; [|split; [|split; [|split]]]].
  - intros filePath. apply shouldIgnore_spec.
  - intros filePath other pattern Hin Hm Hbase.
    apply shouldIgnore_spec. exists pattern. split; [exact Hin|].
    right. now rewrite Hbase.
  - intros file sw Hign. split.
    + now apply syncEntry_ignored.
    + destruct file; cbn [visitedEntry lname] in *; now rewrite Hign.
  - intros name st s w Hign. destruct st as [mtime|e].
    + rewrite syncEntry_file by exact Hign.
      destruct (remoteLookup useSFTP remotePath _ name w) as [found w1].
      destruct (needsUpload mtime found); [|reflexivity].
      destruct (transfer useSFTP _ _ w1) as [[[]|e] w2]; reflexivity.
    + now rewrite syncEntry_file_stat_fails.
  - intros n filePath. apply shouldIgnore_deeper.
  - intros inherited readdir w report w' resolved.
    rewrite syncFiles_eq. unfold visited. fold resolved.
    destruct (wantsUpload direction).
    + destruct readdir as [localFiles|e]; [|discriminate].
      cbn zeta. intros [= <- _].
      assert (Hextra : forall pattern, In pattern extraExclude ->
                In pattern (withExtra (fst resolved) extraExclude))
        by (intros pattern Hin; apply in_withExtra; now right).
      rewrite (@ignored_loop useSFTP direction extraExclude
                 (withExtra (fst resolved) extraExclude) (snd resolved)
                 localPath remotePath
                 (withExtra (fst resolved) extraExclude) localFiles).
      * reflexivity.
      * apply Forall_forall. intros f _ lp rp pats s0 w0 Hset.
        now apply ignored_entry.
      * tauto.
    + intros [= <- _]. destruct readdir; reflexivity.
Qed.

End SyncFacts.

(** ** The properties on the examples *)

Section Witnesses.
Import Sync Visit Mem Examples.

Example lastIndexOf_examples :
  JSString.lastIndexOf "/"%char "a/b/c.txt" = 3%Z /\
  JSString.lastIndexOf "/"%char "c.txt" = (-1)%Z.
Proof. split; reflexivity. Qed.

Example dirPathOf_examples :
  Handlers.dirPathOf "a/b/c.txt" = "a/b" /\
  Handlers.fileNameOf "a/b/c.txt" = "c.txt" /\
  Handlers.dirPathOf "c.txt" = "." /\
  Handlers.fileNameOf "c.txt" = "c.txt" /\
  Handlers.dirPathOf "/c.txt" = ".".
Proof. repeat split. Qed.

Example parseIgnoreFile_example :
  Ignore.parseIgnoreFile
    ("  *.tmp  " ++ String "010" ("# a comment" ++ String "010"
       (String "010" "build/")))
  = ["*.tmp"; "build/"].
Proof. reflexivity. Qed.

(** A [modifyTime] of 0 is falsy: the time is then read from the other
    fields, which ssh2-sftp-client does not set. *)
Example remoteTimeOf_examples :
  @remoteTimeOf siteEnv (sftpFile "x" 200) = Valid 200 /\
  @remoteTimeOf siteEnv (ftpFile "x" 200) = Valid 200 /\
  @remoteTimeOf siteEnv (sftpFile "x" 0) = Invalid.
Proof. repeat split. Qed.

(** A second run over an unchanged tree, against a server that now holds
    every file with a newer time, transfers nothing. *)
Example second_run_skips :
  @syncFiles _ (memClient {| listings := [];
                             stats := [("/www/a.txt", sftpFile "a.txt" 900%Z);
                                       ("/www/b.txt", sftpFile "b.txt" 900%Z)];
                             contents := []; failing := [] |})
    siteEnv true "/home/dist" "/www" "upload" None []
    (Ok [LFile "a.txt" (Ok (Valid 100)); LFile "b.txt" (Ok (Valid 150))]) []
  = (Ok (mkReport 0 2 0 []), []).
Proof. reflexivity. Qed.

Lemma newer_wins_witness :
  let client := memClient siteSnapshot in
  let entry :=
    @syncEntry _ client siteEnv true "upload" [] "/home/dist" "/www"
      sitePatterns "/home/dist" in
  entry (LFile "a.txt" (Ok (Valid 100))) (initStats, [])
  = (Ok tt, (incUploaded initStats,
             [CPut (FromPath "/home/dist/a.txt") "/www/a.txt"])) /\
  entry (LFile "c.txt" (Ok (Valid 100))) (initStats, [])
  = (Ok tt, (incUploaded initStats,
             [CPut (FromPath "/home/dist/c.txt") "/www/c.txt"])) /\
  entry (LFile "b.txt" (Ok (Valid 150))) (initStats, [])
  = (Ok tt, (incSkipped initStats, [])).
Proof.
  intros client entry. subst entry. split; [|split].
  - refine (proj1 (@newer_wins _ client siteEnv true "upload" [] "/home/dist"
                     "/www" sitePatterns "/home/dist" "a.txt" 100 initStats []
                     _)
                  (Throw noSuchFile) [] _ _ _ _).
    + vm_compute; reflexivity.
    + reflexivity.
    + right; left. now exists noSuchFile.
    + reflexivity.
  - refine (proj1 (@newer_wins _ client siteEnv true "upload" [] "/home/dist"
                     "/www" sitePatterns "/home/dist" "c.txt" 100 initStats []
                     _)
                  (Ok (Some (sftpFile "c.txt" 50))) [] _ _ _ _).
    + vm_compute; reflexivity.
    + reflexivity.
    + right; right. exists (sftpFile "c.txt" 50), 50%Z.
      split; [reflexivity|]. split; [reflexivity|lia].
    + reflexivity.
  - refine (proj2 (@newer_wins _ client siteEnv true "upload" [] "/home/dist"
                     "/www" sitePatterns "/home/dist" "b.txt" 150 initStats []
                     _)
                  (sftpFile "b.txt" 200) 200%Z [] _ _ _).
    + vm_compute; reflexivity.
    + reflexivity.
    + reflexivity.
    + lia.
Defined.

(** The failing input: a local file dated 1 January 1970 (or one second
    earlier) against a remote file with the same date is uploaded again, on
    every run. *)
Lemma epoch_remote_time_uploads_witness :
  let client := memClient MoreExamples.epochSnapshot in
  let entry :=
    @syncEntry _ client siteEnv true "upload" [] "/home/dist" "/www"
      sitePatterns "/home/dist" in
  @client_stat _ client "/www/old.txt" [] = (Ok (sftpFile "old.txt" 0), []) /\
  entry (LFile "old.txt" (Ok (Valid 0))) (initStats, [])
  = (Ok tt, (incUploaded initStats,
             [CPut (FromPath "/home/dist/old.txt") "/www/old.txt"])) /\
  entry (LFile "old.txt" (Ok (Valid (-1000)))) (initStats, [])
  = (Ok tt, (incUploaded initStats,
             [CPut (FromPath "/home/dist/old.txt") "/www/old.txt"])) /\
  entry (LFile "old.txt" (Ok (Valid (-1000)))) (initStats, [])
  <> (Ok tt, (incSkipped initStats, [])).
Proof.
  intros client entry. subst entry.
  assert (Hign : @Ignore.shouldIgnore siteEnv (@path_join siteEnv "/home/dist" "old.txt")
                   sitePatterns "/home/dist" = false)
    by (vm_compute; reflexivity).
  assert (Hstat : @client_stat _ client ("/www" ++ "/" ++ "old.txt") []
                  = (Ok (sftpFile "old.txt" 0), [])) by reflexivity.
  assert (Hput : @client_put _ client
                   (FromPath (@path_join siteEnv "/home/dist" "old.txt"))
                   ("/www" ++ "/" ++ "old.txt") []
                 = (Ok tt, [CPut (FromPath "/home/dist/old.txt")
                                 "/www/old.txt"])) by reflexivity.
  pose proof (@epoch_remote_time_uploads _ client siteEnv "upload" []
                "/home/dist" "/www" sitePatterns "/home/dist" "old.txt"
                (sftpFile "old.txt" 0) initStats [] [] _
                Hign Hstat eq_refl eq_refl eq_refl Hput) as [_ Hall].
  split; [exact Hstat|]. split; [|split].
  - exact (proj1 (proj2 (Hall 0%Z))).
  - exact (proj1 (proj2 (Hall (-1000)%Z))).
  - apply (proj2 (proj2 (proj2 (Hall (-1000)%Z)))). lia.
Defined.

Lemma lookup_failure_swallowed_witness :
  let client := memClient unlistableSnapshot in
  @client_list _ client "/www" [] = (Throw denied, []) /\
  @syncEntry _ client siteEnv false "upload" [] "/home/dist" "/www"
    sitePatterns "/home/dist" (LFile "a.txt" (Ok (Valid 100))) (initStats, [])
  = (Ok tt, (incUploaded initStats,
             [CUploadFrom (FromPath "/home/dist/a.txt") "/www/a.txt"])).
Proof.
  intros client.
  assert (Hlist : @client_list _ client "/www" [] = (Throw denied, []))
    by reflexivity.
  split; [exact Hlist|].
  refine (proj1 (proj2 (@lookup_failure_swallowed _ client siteEnv false "upload"
                   [] "/home/dist" "/www" sitePatterns "/home/dist" "a.txt"
                   (Valid 100) initStats [] denied [] _ _) _ _)).
  - vm_compute; reflexivity.
  - right. split; [reflexivity|exact Hlist].
  - reflexivity.
Defined.

Lemma report_counts_bounded_witness :
  let client := memClient siteSnapshot in
  @syncFiles _ client siteEnv true "/home/dist" "/www" "upload" None []
    (Ok siteTree) []
  = (Ok (mkReport 1 1 1 []),
     [CPut (FromPath "/home/dist/a.txt") "/www/a.txt";
      CMkdir "/www/node_modules" true]) /\
  @visited _ client siteEnv true "/home/dist" "/www" "upload" None []
    (Ok siteTree) []
  = ["/home/dist/a.txt"; "/home/dist/b.txt"; "/home/dist/node_modules";
     "/home/dist/node_modules/pkg.js"] /\
  1 + 1 + 1
  <= List.length
       (@visited _ client siteEnv true "/home/dist" "/www" "upload" None []
          (Ok siteTree) []).
Proof.
  intros client.
  assert (Hrun : @syncFiles _ client siteEnv true "/home/dist" "/www" "upload"
                   None [] (Ok siteTree) []
                 = (Ok (mkReport 1 1 1 []),
                    [CPut (FromPath "/home/dist/a.txt") "/www/a.txt";
                     CMkdir "/www/node_modules" true]))
    by (vm_compute; reflexivity).
  split; [exact Hrun|]. split; [vm_compute; reflexivity|].
  exact (proj2 (@report_counts_bounded _ client siteEnv true "upload" [])
               "/home/dist" "/www" None (Ok siteTree) [] _ _ Hrun).
Defined.

Lemma entry_errors_isolated_witness :
  let client := memClient flakySnapshot in
  exists report w',
    @syncFiles _ client siteEnv true "/home/dist" "/www" "upload" None []
      (Ok threeFiles) [] = (Ok report, w') /\
    uploaded report + skipped report = 2 /\
    errors report = ["/home/dist/two.txt: Upload failed"] /\
    exists s2 w2,
      errors s2 = ["/home/dist/two.txt: Upload failed"] /\
      uploaded s2 + skipped s2 = 1 /\
      @syncEntry _ client siteEnv true "upload" [] "/home/dist" "/www"
        sitePatterns "/home/dist" (LFile "three.txt" (Ok (Valid 100))) (s2, w2)
      = (Ok tt, (report, w')).
Proof.
  intros client.
  refine (proj2 (proj2 (proj2 (proj2 (proj2 (proj2
            (@entry_errors_isolated _ client siteEnv true "upload" []
               "/home/dist" "/www" sitePatterns "/home/dist"))))))
            "one.txt" "two.txt" "three.txt" (Valid 100) (Valid 100) (Valid 100)
            uploadFailed _ _ _ _ _ _ _ _ []).
  - reflexivity.
  - reflexivity.
  - reflexivity.
  - intros n [<-|[<-|[<-|[]]]]; vm_compute; reflexivity.
  - intros w. reflexivity.
  - intros w. reflexivity.
  - intros w. reflexivity.
  - intros w. reflexivity.
Defined.

(** C4 as stated fails: the listing of the remote directory is refused
    while [a.txt] is processed, and the report of the run has no error
    entry, so none that names the path and the message. *)
Lemma lookup_error_leaves_no_record :
  let client := memClient unlistableSnapshot in
  let run :=
    @syncFiles _ client siteEnv false "/home/dist" "/www" "upload" None []
      (Ok [LFile "a.txt" (Ok (Valid 100))]) [] in
  @remoteLookup _ client false "/www" "/www/a.txt" "a.txt" []
    = (Throw denied, []) /\
  fst run = Ok (mkReport 1 0 0 []) /\
  ~ (forall report, fst run = Ok report ->
       In ("/home/dist/a.txt: " ++ message denied) (errors report)).
Proof.
  intros client run.
  assert (Hrun : fst run = Ok (mkReport 1 0 0 [])) by (vm_compute; reflexivity).
  split; [reflexivity|]. split; [exact Hrun|].
  intros Hclaim. exact (Hclaim _ Hrun).
Qed.

Lemma ignore_rule_witness :
  let client := memClient siteSnapshot in
  let patterns := (sitePatterns ++ ["build"])%list in
  let build := LDir "build" (Ok [LFile "x.tmp" (Ok (Valid 1))]) in
  @syncEntry _ client siteEnv true "upload" ["build"] "/home/dist" "/www"
    patterns "/home/dist" build (initStats, [])
  = (Ok tt, (incIgnored initStats, [])) /\
  @visitedEntry _ client siteEnv true "upload" ["build"] "/home/dist" "/www"
    patterns "/home/dist" build (initStats, [])
  = ["/home/dist/build"] /\
  @Ignore.shouldIgnore siteEnv "/home/dist/deep/down/debug.log" patterns
    "/home/dist" = true /\
  @syncFiles _ client siteEnv true "/home/dist" "/www" "upload" None ["build"]
    (Ok buildTree) []
  = (Ok (mkReport 1 0 2 []),
     [CPut (FromPath "/home/dist/index.html") "/www/index.html"]) /\
  2 = @ignoredAmong siteEnv patterns "/home/dist"
        (@visited _ client siteEnv true "/home/dist" "/www" "upload" None
           ["build"] (Ok buildTree) []).
Proof.
  intros client patterns build.
  pose proof (@ignore_rule _ client siteEnv true "upload" ["build"]
                "/home/dist" "/www" patterns "/home/dist")
    as [_ [Hname [Hentry [_ [_ Hcount]]]]].
  assert (Hrun : @syncFiles _ client siteEnv true "/home/dist" "/www" "upload"
                   None ["build"] (Ok buildTree) []
                 = (Ok (mkReport 1 0 2 []),
                    [CPut (FromPath "/home/dist/index.html") "/www/index.html"]))
    by (vm_compute; reflexivity).
  split; [|split; [|split; [|split]]].
  - apply (Hentry build (initStats, [])). vm_compute; reflexivity.
  - apply (Hentry build (initStats, [])). vm_compute; reflexivity.
  - apply (Hname "/home/dist/debug.log" "/home/dist/deep/down/debug.log" "*.log").
    + vm_compute. tauto.
    + vm_compute; reflexivity.
    + vm_compute; reflexivity.
  - exact Hrun.
  - exact (Hcount None (Ok buildTree) [] _ _ Hrun).
Defined.

(** C1. What [syncFiles] does for the download direction. With
    [direction = "download"] it makes no call on the client and returns
    the empty report, whatever the two sides hold; with any direction,
    [both] included, the [downloaded] counter of the report is 0. On the
    example the server holds [new.txt], the local directory is empty, and
    nothing is fetched. *)
Theorem download_not_implemented :
  (forall W (client : Client W) (env : NodeEnv) useSFTP localPath remotePath
          inherited extraExclude readdir w,
     syncFiles useSFTP localPath remotePath "download" inherited extraExclude
       readdir w = (Ok initStats, w) /\
     forall direction,
       match fst (syncFiles useSFTP localPath remotePath direction inherited
                    extraExclude readdir w) with
       | Ok report => downloaded report = 0
       | Throw _ => True
       end) /\
  @Handlers.ftp_sync _ (memClient remoteOnlySnapshot) siteEnv true
    "/home/dist" "/www" (Some "download") (Ok []) []
  = (Ok (mkReport 0 0 0 []), []) /\
  @Handlers.ftp_sync _ (memClient remoteOnlySnapshot) siteEnv true
    "/home/dist" "/www" (Some "both") (Ok []) []
  = (Ok (mkReport 0 0 0 []), []).
Proof.
  split; [|split; reflexivity].
  intros W client env useSFTP localPath remotePath inherited extraExclude
         readdir w.
  split.
  - apply syncFiles_download.
  - intros direction. apply syncFiles_downloaded_zero.
Qed.

End Witnesses.

(** * More properties of the code *)

(** ** Ignore files *)

Section IgnoreFileFacts.
Import JSString JSText Ignore.

Lemma splitLines_nonempty s : splitLines s <> [].
Proof.
  destruct s as [|a s]; simpl; [discriminate|].
  destruct (Ascii.eqb a "010"%char); [discriminate|].
  destruct (splitLines s); discriminate.
Qed.

(** X1. Splitting a file content on the newline character loses nothing:
    joining the lines with a newline gives the content back, and there is
    one more line than there are newline characters, so a content that
    ends with a newline ends with an empty line. *)
Theorem splitLines_join content :
  join (String "010"%char EmptyString) (splitLines content) = content /\
  List.length (splitLines content) = S (countChar "010"%char content).
Proof.
  unfold join. induction content as [|a s [IHj IHl]]; [split; reflexivity|].
  simpl. destruct (Ascii.eqb a "010"%char) eqn:Ha.
  - apply Ascii.eqb_eq in Ha. subst a. split.
    + cbn [String.concat].
      destruct (splitLines s) as [|l ls] eqn:Hs;
        [now apply splitLines_nonempty in Hs|].
      simpl. now rewrite <- IHj.
    + simpl. now rewrite IHl.
  - destruct (splitLines s) as [|l ls] eqn:Hs;
      [now apply splitLines_nonempty in Hs|].
    split.
    + destruct ls as [|l2 ls]; simpl in *; now rewrite <- IHj.
    + simpl in *. exact IHl.
Qed.

Lemma splitLines_no_newline content line :
  In line (splitLines content) -> hasChar "010"%char line = false.
Proof.
  revert line. induction content as [|a s IH]; intros line Hin.
  - destruct Hin as [<-|[]]. reflexivity.
  - simpl in Hin. destruct (Ascii.eqb a "010"%char) eqn:Ha.
    + destruct Hin as [<-|Hin]; [reflexivity|now apply IH].
    + destruct (splitLines s) as [|l ls].
      * destruct Hin as [<-|[]]. simpl. now rewrite Ha.
      * destruct Hin as [<-|Hin].
        -- simpl. rewrite Ha. apply IH. now left.
        -- apply IH. now right.
Qed.

Lemma append_assoc (a b c : string) : (a ++ b) ++ c = a ++ (b ++ c).
Proof. induction a as [|x a IH]; simpl; [reflexivity|now rewrite IH]. Qed.

Lemma append_empty_r (a : string) : a ++ "" = a.
Proof. induction a as [|x a IH]; simpl; [reflexivity|now rewrite IH]. Qed.

Lemma hasChar_app c a b :
  hasChar c (a ++ b) = hasChar c a || hasChar c b.
Proof.
  induction a as [|x a IH]; simpl; [reflexivity|].
  now rewrite IH, orb_assoc.
Qed.

Lemma string_size_ind (P : string -> Prop) :
  (forall s, (forall r, (String.length r < String.length s)%nat -> P r) ->
             P s) ->
  forall s, P s.
Proof.
  intros Hstep s.
  assert (Hall : forall n r, (String.length r < n)%nat -> P r).
  { induction n as [|n IH]; intros r Hr; [lia|].
    apply Hstep. intros r' Hr'. apply IH. lia. }
  apply (Hall (S (String.length s))). lia.
Qed.

(** One white-space character at the start: [s] is that character, [sp],
    followed by [r]. *)
Lemma afterSpace_split s r :
  afterSpace s = Some r ->
  (String.length r < String.length s)%nat /\
  exists sp, s = sp ++ r /\ forall x, afterSpace (sp ++ x) = Some x.
Proof.
  destruct s as [|a [|b [|c s3]]]; cbn [afterSpace]; [discriminate| | |];
    destruct (isSpace a) eqn:Ha;
    try (intros [= <-]; split; [simpl; lia|];
         exists (String a ""); split; [reflexivity|];
         intros x; cbn [append afterSpace]; now rewrite Ha);
    try discriminate;
    destruct (isSpace2 a b) eqn:Hab;
    try (intros [= <-]; split; [simpl; lia|];
         exists (String a (String b "")); split; [reflexivity|];
         intros x; cbn [append afterSpace]; now rewrite Ha, Hab);
    try discriminate.
  destruct (isSpace3 a b c) eqn:Habc; [|discriminate].
  intros [= <-]. split; [simpl; lia|].
  exists (String a (String b (String c ""))). split; [reflexivity|].
  intros x. cbn [append afterSpace]. now rewrite Ha, Hab, Habc.
Qed.

Lemma afterSpace_prefix p q :
  afterSpace (p ++ q) = None -> afterSpace p = None.
Proof.
  destruct p as [|a [|b [|c p3]]]; cbn [append afterSpace];
    [reflexivity| | |];
    destruct (isSpace a); try discriminate; try reflexivity;
    destruct (isSpace2 a b); try discriminate; try reflexivity;
    destruct (isSpace3 a b c); try discriminate; reflexivity.
Qed.

Lemma trimStart_eq s :
  trimStart s =
  match afterSpace s with Some r => trimStart r | None => s end.
Proof.
  destruct s as [|a [|b [|c s3]]]; cbn [trimStart afterSpace];
    [reflexivity| | |];
    destruct (isSpace a); try reflexivity;
    destruct (isSpace2 a b); try reflexivity;
    destruct (isSpace3 a b c); reflexivity.
Qed.

Lemma allSpace_after s r : afterSpace s = Some r -> allSpace s = allSpace r.
Proof.
  destruct s as [|a [|b [|c s3]]]; cbn [allSpace afterSpace];
    [discriminate| | |];
    destruct (isSpace a); try (now intros [= <-]); try discriminate;
    destruct (isSpace2 a b); try (now intros [= <-]); try discriminate;
    destruct (isSpace3 a b c); [|discriminate].
  now intros [= <-].
Qed.

Lemma allSpace_none s :
  afterSpace s = None -> s <> "" -> allSpace s = false.
Proof.
  destruct s as [|a [|b [|c s3]]]; cbn [allSpace afterSpace];
    [congruence| | |];
    destruct (isSpace a); try discriminate; try reflexivity;
    destruct (isSpace2 a b); try discriminate; try reflexivity;
    destruct (isSpace3 a b c); try discriminate; reflexivity.
Qed.

Lemma allSpace_app u v :
  allSpace u = true -> allSpace v = true -> allSpace (u ++ v) = true.
Proof.
  induction u as [u IH] using string_size_ind. intros Hu Hv.
  destruct (afterSpace u) as [r|] eqn:Hr.
  - destruct (afterSpace_split _ Hr) as [Hlen [sp [Hsp Hx]]].
    rewrite (allSpace_after _ Hr) in Hu.
    rewrite Hsp, append_assoc, (allSpace_after _ (Hx (r ++ v))).
    now apply IH.
  - destruct u as [|a u']; [exact Hv|].
    rewrite allSpace_none in Hu by (exact Hr || discriminate).
    discriminate.
Qed.

(** [trimStart] removes a run of white-space characters and stops at a
    string that starts with none. *)
Lemma trimStart_split s :
  exists pre, s = pre ++ trimStart s /\ allSpace pre = true /\
              afterSpace (trimStart s) = None.
Proof.
  induction s as [s IH] using string_size_ind.
  rewrite trimStart_eq. destruct (afterSpace s) as [r|] eqn:Hr.
  - destruct (afterSpace_split _ Hr) as [Hlen [sp [Hsp Hx]]].
    destruct (IH r Hlen) as [pre [Hpre [Hall Hnone]]].
    exists (sp ++ pre). split; [|split; [|exact Hnone]].
    + now rewrite append_assoc, <- Hpre.
    + now rewrite (allSpace_after _ (Hx pre)).
  - exists "". now repeat split.
Qed.

Lemma trimEnd_split s :
  exists rest, s = trimEnd s ++ rest /\ allSpace rest = true.
Proof.
  induction s as [|a s [rest [Hs Hrest]]]; [now exists ""|].
  cbn [trimEnd]. destruct (allSpace (String a s)) eqn:Hall.
  - now exists (String a s).
  - exists rest. split; [|exact Hrest]. cbn [append]. now rewrite <- Hs.
Qed.

(** What [trimEnd] returns ends with no white space. *)
Lemma trimEnd_clean s :
  forall p q, trimEnd s = p ++ q -> q <> "" -> allSpace q = false.
Proof.
  induction s as [|a s IH]; intros p q Hpq Hq.
  - destruct p, q; try discriminate. congruence.
  - cbn [trimEnd] in Hpq. destruct (allSpace (String a s)) eqn:Hall.
    + destruct p, q; try discriminate. congruence.
    + destruct p as [|x p].
      * cbn [append] in Hpq. subst q.
        destruct (allSpace (String a (trimEnd s))) eqn:Hcut; [|reflexivity].
        destruct (trimEnd_split s) as [rest [Hs Hrest]].
        pose proof (allSpace_app _ _ Hcut Hrest) as Hwhole.
        cbn [append] in Hwhole. rewrite <- Hs in Hwhole. congruence.
      * cbn [append] in Hpq. injection Hpq as _ Hpq. now apply (IH p q).
Qed.

(** [trim]: the string is white space, the trimmed string, white space;
    the trimmed string neither starts nor ends with white space. *)
Lemma trim_spec s :
  (exists pre suf, s = pre ++ trim s ++ suf /\
                   allSpace pre = true /\ allSpace suf = true) /\
  afterSpace (trim s) = None /\
  (forall p q, trim s = p ++ q -> q <> "" -> allSpace q = false).
Proof.
  unfold trim.
  destruct (trimStart_split s) as [pre [Hpre [Hall Hnone]]].
  destruct (trimEnd_split (trimStart s)) as [suf [Hsuf Hrest]].
  split; [|split].
  - exists pre, suf. split; [|now split]. now rewrite <- Hsuf.
  - apply (afterSpace_prefix _ suf). now rewrite <- Hsuf.
  - apply trimEnd_clean.
Qed.

Lemma trim_chars c s : hasChar c (trim s) = true -> hasChar c s = true.
Proof.
  destruct (trim_spec s) as [[pre [suf [Hs _]]] _]. intros Hc.
  rewrite Hs, !hasChar_app, Hc. now rewrite orb_true_r.
Qed.

(** X2. Every pattern read from an ignore file is a line of the file with
    the white space at both ends removed: the line is white space, the
    pattern, white space; the pattern is not empty, neither starts nor
    ends with a white-space character, does not start with [#] and holds
    no newline. White space is what [trim] removes, the characters of one
    byte and those of two and three bytes. Conversely every line whose
    trimmed form is not empty and does not start with [#] gives its
    trimmed form as a pattern. *)
Theorem parseIgnoreFile_patterns content :
  (forall pattern,
     In pattern (parseIgnoreFile content) ->
     (exists line pre suf,
        In line (splitLines content) /\ line = pre ++ pattern ++ suf /\
        allSpace pre = true /\ allSpace suf = true) /\
     pattern <> "" /\
     afterSpace pattern = None /\
     (forall p q, pattern = p ++ q -> q <> "" -> allSpace q = false) /\
     startsWith "#" pattern = false /\
     hasChar "010"%char pattern = false) /\
  (forall line,
     In line (splitLines content) ->
     trim line <> EmptyString ->
     startsWith "#" (trim line) = false ->
     In (trim line) (parseIgnoreFile content)).
Proof.
  unfold parseIgnoreFile. split.
  - intros pattern Hin. apply filter_In in Hin as [Hin Hkeep].
    apply in_map_iff in Hin as [line [<- Hline]].
    apply andb_true_iff in Hkeep as [Htruthy Hhash].
    apply negb_true_iff in Hhash.
    destruct (trim_spec line) as [[pre [suf [Hs [Hpre Hsuf]]]] [Hstart Hend]].
    split; [now exists line, pre, suf|].
    split; [intros Hempty; rewrite Hempty in Htruthy; discriminate|].
    split; [exact Hstart|]. split; [exact Hend|]. split; [exact Hhash|].
    destruct (hasChar "010"%char (trim line)) eqn:Hc; [|reflexivity].
    apply trim_chars in Hc.
    now rewrite (splitLines_no_newline content line Hline) in Hc.
  - intros line Hline Hne Hhash. apply filter_In. split.
    + now apply in_map.
    + rewrite Hhash. destruct (trim line); [congruence|reflexivity].
Qed.

Lemma parseIgnoreFile_patterns_witness :
  let nbsp := String (ascii_of_nat 194) (String (ascii_of_nat 160) "") in
  let first := " " ++ nbsp ++ "*.tmp" ++ nbsp ++ "  " in
  let content :=
    first ++ String "010" ("# a comment" ++ String "010" "build/") in
  parseIgnoreFile content = ["*.tmp"; "build/"] /\
  trim first = "*.tmp" /\
  ((exists line pre suf,
      In line (splitLines content) /\ line = pre ++ "build/" ++ suf /\
      allSpace pre = true /\ allSpace suf = true) /\
   "build/" <> "" /\
   afterSpace "build/" = None /\
   (forall p q, "build/" = p ++ q -> q <> "" -> allSpace q = false) /\
   startsWith "#" "build/" = false /\
   hasChar "010"%char "build/" = false) /\
  In (trim first) (parseIgnoreFile content).
Proof.
  intros nbsp first content.
  assert (H0 : parseIgnoreFile content = ["*.tmp"; "build/"])
    by (vm_compute; reflexivity).
  assert (H1 : In "build/" (parseIgnoreFile content))
    by (rewrite H0; simpl; tauto).
  assert (H2 : In first (splitLines content)) by (vm_compute; tauto).
  assert (H3 : trim first <> EmptyString) by (vm_compute; discriminate).
  assert (H4 : startsWith "#" (trim first) = false)
    by (vm_compute; reflexivity).
  split; [exact H0|]. split; [vm_compute; reflexivity|]. split.
  - exact (proj1 (parseIgnoreFile_patterns content) "build/" H1).
  - exact (proj2 (parseIgnoreFile_patterns content) first H2 H3 H4).
Defined.

End IgnoreFileFacts.

Section IgnoreSetFacts.
Import Ignore Sync.
Context `{NodeEnv}.

Lemma shouldIgnore_incl filePath l1 l2 basePath :
  incl l1 l2 ->
  shouldIgnore filePath l1 basePath = true ->
  shouldIgnore filePath l2 basePath = true.
Proof.
  intros Hincl. unfold shouldIgnore. rewrite !existsb_exists.
  intros [pattern [Hin Hm]]. exists pattern. split; [now apply Hincl|exact Hm].
Qed.

Lemma incl_loaded localPath extraExclude :
  incl DEFAULT_IGNORE_PATTERNS
       (withExtra (loadIgnorePatterns localPath) extraExclude).
Proof.
  intros pattern Hin. unfold withExtra, loadIgnorePatterns.
  destruct (0 <? List.length extraExclude)%nat;
    rewrite ?in_app_iff; auto.
Qed.

(** X3. The rule set only grows. A path that a list of patterns ignores is
    ignored by every list that contains it; in particular a path the
    built-in patterns ignore stays ignored whatever [.ftpignore],
    [.gitignore] and the caller's extra excludes contain (there is no way
    to un-ignore), and an empty list ignores nothing. When neither ignore
    file can be read, the loaded patterns are the built-in ones. *)
Theorem ignore_rules_only_grow filePath basePath :
  (forall l1 l2,
     incl l1 l2 ->
     shouldIgnore filePath l1 basePath = true ->
     shouldIgnore filePath l2 basePath = true) /\
  (forall localPath extraExclude,
     shouldIgnore filePath DEFAULT_IGNORE_PATTERNS basePath = true ->
     shouldIgnore filePath
       (withExtra (loadIgnorePatterns localPath) extraExclude) basePath = true) /\
  shouldIgnore filePath [] basePath = false /\
  (forall localPath e1 e2,
     readFile (path_join localPath ".ftpignore") = Throw e1 ->
     readFile (path_join localPath ".gitignore") = Throw e2 ->
     loadIgnorePatterns localPath = DEFAULT_IGNORE_PATTERNS).
Proof.
  split; [|split; [|split]].
  - intros l1 l2. apply shouldIgnore_incl.
  - intros localPath extraExclude. apply shouldIgnore_incl, incl_loaded.
  - reflexivity.
  - intros localPath e1 e2 H1 H2. unfold loadIgnorePatterns, patternsOf.
    rewrite H1, H2. now rewrite !app_nil_r.
Qed.

End IgnoreSetFacts.

Lemma ignore_rules_only_grow_witness :
  let env := Mem.posixEnv [("/home/dist/.ftpignore", "!*.log")] in
  @Ignore.shouldIgnore env "/home/dist/logs/debug.log"
    Ignore.DEFAULT_IGNORE_PATTERNS "/home/dist" = true /\
  @Ignore.shouldIgnore env "/home/dist/logs/debug.log"
    (Sync.withExtra (@Ignore.loadIgnorePatterns env "/home/dist") ["keep"])
    "/home/dist" = true /\
  @Ignore.loadIgnorePatterns Examples.siteEnv "/home/dist"
    = Ignore.DEFAULT_IGNORE_PATTERNS.
Proof.
  intros env.
  assert (Hdef : @Ignore.shouldIgnore env "/home/dist/logs/debug.log"
                   Ignore.DEFAULT_IGNORE_PATTERNS "/home/dist" = true)
    by (vm_compute; reflexivity).
  split; [exact Hdef|]. split.
  - exact (proj1 (proj2 (@ignore_rules_only_grow env
                           "/home/dist/logs/debug.log" "/home/dist"))
                 "/home/dist" ["keep"] Hdef).
  - refine (proj2 (proj2 (proj2 (@ignore_rules_only_grow Examples.siteEnv
                                   "/home/dist/x" "/home/dist")))
                  "/home/dist" _ _ _ _); reflexivity.
Defined.

(** ** Connection options *)

Section ConnectFacts.
Import JSString JSText Conn Connect.

Lemma replaceFirst_absent sub repl s :
  includes sub s = false -> replaceFirst sub repl s = s.
Proof.
  induction s as [|a s IH]; simpl.
  - rewrite orb_false_r. now intros ->.
  - intros Hinc. apply orb_false_iff in Hinc as [Hs Hrest].
    rewrite Hs. now rewrite IH.
Qed.

Lemma dropChars_app pre s : dropChars (String.length pre) (pre ++ s) = s.
Proof. induction pre as [|a pre IH]; simpl; auto. Qed.

Lemma startsWith_app pre s : startsWith pre (pre ++ s) = true.
Proof. apply startsWith_spec. now exists s. Qed.

Lemma replaceFirst_prefix sub repl s :
  replaceFirst sub repl (sub ++ s) = repl ++ s.
Proof.
  destruct sub as [|a sub]; [destruct s; reflexivity|].
  change (replaceFirst (String a sub) repl (String a sub ++ s))
    with (if startsWith (String a sub) (String a sub ++ s)
          then repl ++ dropChars (String.length (String a sub))
                         (String a sub ++ s)
          else String a (replaceFirst (String a sub) repl (sub ++ s))).
  now rewrite startsWith_app, dropChars_app.
Qed.

(** X4. The options of a connection. For a host written [sftp://h] the
    SFTP client is chosen and connects to [h], the scheme removed (once:
    the rest of the host is kept as it is); a host that holds [sftp] but
    no [sftp://] is passed unchanged. Both connect functions take the
    port from [getPort]: a configured port that is truthy wins over the
    protocol, a configured port that is 0 or the empty string counts as not
    configured. *)
Theorem connection_options (parseIntStr : string -> option Z)
        (h : string) (u pw : option string) (sec : option bool) :
  (forall p,
     selectProtocol (Some ("sftp://" ++ h)) = SFTP /\
     sftpOptions parseIntStr (mkProfile (Some ("sftp://" ++ h)) u pw p sec)
     = Ok {| so_host := h;
             so_port := getPort parseIntStr (Some ("sftp://" ++ h)) p;
             so_username := u; so_password := pw |}) /\
  (forall p,
     includes "sftp://" h = false ->
     sftpOptions parseIntStr (mkProfile (Some h) u pw p sec)
     = Ok {| so_host := h;
             so_port := getPort parseIntStr (Some h) p;
             so_username := u; so_password := pw |}) /\
  (forall p,
     port_truthy p = true ->
     getPort parseIntStr (Some h) (Some p) = parseInt parseIntStr p /\
     fo_port (ftpOptions parseIntStr (mkProfile (Some h) u pw (Some p) sec))
     = parseInt parseIntStr p) /\
  getPort parseIntStr (Some h) (Some (PortNum 0))
    = getPort parseIntStr (Some h) None /\
  getPort parseIntStr (Some h) (Some (PortStr ""))
    = getPort parseIntStr (Some h) None.
Proof.
  split; [|split; [|split; [|split]]].
  - intros p. split.
    + unfold selectProtocol, isSFTP. rewrite hostSaysSFTP_includes.
      assert (Hinc : includes "sftp" ("sftp://" ++ h) = true)
        by (apply includes_spec; now exists "", ("://" ++ h)).
      now rewrite Hinc.
    + unfold sftpOptions. cbn [host port user password].
      now rewrite (replaceFirst_prefix "sftp://" "" h).
  - intros p Habs. unfold sftpOptions. cbn [host port user password].
    now rewrite replaceFirst_absent.
  - intros p Hp. unfold ftpOptions, getPort. cbn [host port fo_port].
    now rewrite Hp.
  - reflexivity.
  - reflexivity.
Qed.

Lemma connection_options_witness :
  let parse := fun _ : string => Some 2222%Z in
  includes "sftp://" "sftp.example.com" = false /\
  port_truthy (PortStr "2222") = true /\
  sftpOptions parse
    (mkProfile (Some "sftp.example.com") (Some "me") None None None)
  = Ok {| so_host := "sftp.example.com"; so_port := Some 22%Z;
          so_username := Some "me"; so_password := None |} /\
  getPort parse (Some "sftp.example.com") (Some (PortStr "2222"))
  = Some 2222%Z.
Proof.
  intros parse.
  assert (Habs : includes "sftp://" "sftp.example.com" = false) by reflexivity.
  assert (Hp : port_truthy (PortStr "2222") = true) by reflexivity.
  pose proof (connection_options parse "sftp.example.com" (Some "me") None None)
    as [_ [Hkeep [Hport _]]].
  split; [exact Habs|]. split; [exact Hp|]. split.
  - exact (Hkeep None Habs).
  - exact (proj1 (Hport (PortStr "2222") Hp)).
Defined.

End ConnectFacts.

(** ** TreeWalker, continued *)

Section TreeMoreFacts.
Import JSString JSText Tree.
Context {W : Type} `{Client W}.

(** A property of entries that holds for the entry of every file listed
    in [p] and for what the recursive calls return holds for the result
    of the loop. *)
Lemma forEach_tree_Forall (P : TreeEntry -> Prop)
      (recurse : string -> M W (list TreeEntry)) useSFTP p :
  (forall f, P (entryOf useSFTP p f)) ->
  (forall f w r w',
     descends useSFTP f = true ->
     recurse (fullPathOf p (fi_name f)) w = (Ok r, w') -> Forall P r) ->
  forall files acc w res w',
    Forall P acc ->
    forEach (treeStep recurse useSFTP p) files acc w = (Ok res, w') ->
    Forall P res.
Proof.
  intros Hentry Hrec. induction files as [|f files IH];
    intros acc w res w' Hacc Hrun.
  - simpl in Hrun. now injection Hrun as <- _.
  - simpl in Hrun. unfold bind at 1, treeStep at 1 in Hrun.
    destruct (descends useSFTP f) eqn:Hd.
    + unfold bind at 1 in Hrun.
      destruct (recurse (fullPathOf p (fi_name f)) w) as [[children|e] w1] eqn:Hw;
        [|discriminate].
      unfold ret at 1 in Hrun. apply IH in Hrun; [exact Hrun|].
      apply Forall_app. split.
      * apply Forall_app. split; [exact Hacc|]. constructor; [apply Hentry|constructor].
      * exact (Hrec f w children w1 Hd Hw).
    + unfold ret at 1 in Hrun. apply IH in Hrun; [exact Hrun|].
      apply Forall_app. split; [exact Hacc|].
      constructor; [apply Hentry|constructor].
Qed.

Lemma joined_not_dot p n : p ++ "/" ++ n <> ".".
Proof. destruct p as [|a [|b p]]; discriminate. Qed.

Lemma fullPathOf_below p n :
  p <> "." -> fullPathOf p n = p ++ "/" ++ n.
Proof.
  intros Hp. unfold fullPathOf.
  destruct (String.eqb_spec p "."); [contradiction|reflexivity].
Qed.

Lemma walk_paths_below k useSFTP :
  forall p w res w',
    p <> "." ->
    walk k useSFTP p w = (Ok res, w') ->
    Forall (fun e => exists mid, path e = p ++ "/" ++ mid ++ name e) res.
Proof.
  induction k as [|k IHk]; intros p w res w' Hp Hrun.
  - simpl in Hrun. injection Hrun as <- _. constructor.
  - simpl in Hrun. unfold bind at 1 in Hrun.
    destruct (client_list p w) as [[files|e] w1]; [|discriminate].
    eapply forEach_tree_Forall; [| |constructor|exact Hrun].
    + intros f. exists "". simpl. now rewrite fullPathOf_below by exact Hp.
    + intros f w2 r w3 Hd Hw.
      rewrite fullPathOf_below in Hw by exact Hp.
      apply IHk in Hw; [|apply joined_not_dot].
      eapply Forall_impl; [|exact Hw]. cbn beta.
      intros e [mid Hpath]. exists (fi_name f ++ "/" ++ mid).
      rewrite Hpath. now rewrite !append_assoc.
Qed.

(** X5. Every entry a walk from a start path other than [.] returns lies
    below the start path: its path is the start path, a slash, possibly
    the names of intermediate directories each followed by a slash, and
    the entry's name. This holds for every client, whatever its listings
    return. *)
Theorem tree_paths_below_start useSFTP startPath depth maxDepth w res w' :
  startPath <> "." ->
  getTreeRecursive useSFTP startPath depth maxDepth w = (Ok res, w') ->
  forall e, In e res ->
    (exists mid, path e = startPath ++ "/" ++ mid ++ name e) /\
    startsWith (startPath ++ "/") (path e) = true.
Proof.
  intros Hp Hrun e He. unfold getTreeRecursive in Hrun.
  pose proof (@walk_paths_below _ useSFTP startPath w res w' Hp Hrun) as Hall.
  rewrite Forall_forall in Hall. destruct (Hall e He) as [mid Hpath].
  split; [now exists mid|].
  rewrite Hpath. apply startsWith_spec. exists (mid ++ name e).
  now rewrite !append_assoc.
Qed.

Section StaticWalks.

Variable ls : string -> Result (list FileInfo).
Variable w0 : W.
Hypothesis client_list_static : forall p, client_list p w0 = (ls p, w0).

Lemma walk_state k useSFTP q : snd (walk k useSFTP q w0) = w0.
Proof. exact (proj1 (walk_static ls client_list_static k useSFTP q)). Qed.

Lemma forEach_ok_iff k useSFTP p files :
  forall acc,
    (exists res,
       forEach (treeStep (walk k useSFTP) useSFTP p) files acc w0
       = (Ok res, w0)) <->
    (forall f, In f files -> descends useSFTP f = true ->
       exists r, walk k useSFTP (fullPathOf p (fi_name f)) w0 = (Ok r, w0)).
Proof.
  induction files as [|f files IH]; intros acc.
  - simpl. split; [intros _ f []|intros _; now exists acc].
  - cbn [forEach]. unfold bind at 1, treeStep at 1.
    destruct (descends useSFTP f) eqn:Hd.
    + unfold bind at 1.
      pose proof (walk_state k useSFTP (fullPathOf p (fi_name f))) as Hst.
      destruct (walk k useSFTP (fullPathOf p (fi_name f)) w0)
        as [[children|e] w1] eqn:Hw; cbn [snd] in Hst; subst w1.
      * unfold ret at 1. rewrite IH. split.
        -- intros Hrest g [<-|Hg] Hdg; [now exists children|now apply Hrest].
        -- intros Hall g Hg. apply Hall. now right.
      * split; [intros [res Hres]; discriminate|].
        intros Hall. destruct (Hall f (or_introl eq_refl) Hd) as [r Hr].
        rewrite Hw in Hr. discriminate.
    + unfold ret at 1. rewrite IH. split.
      * intros Hrest g [<-|Hg] Hdg; [congruence|now apply Hrest].
      * intros Hall g Hg. apply Hall. now right.
Qed.

Lemma walk_ok_iff k useSFTP :
  forall q,
    (exists res, walk k useSFTP q w0 = (Ok res, w0)) <->
    (forall d dir, d < k ->
       In dir (dirsAtDepth (listingOf ls) useSFTP q d) ->
       exists files, ls dir = Ok files).
Proof.
  induction k as [|k IHk]; intros q.
  - split; [intros _ d dir Hd; lia|intros _; now exists []].
  - cbn [walk]. unfold bind at 1. rewrite client_list_static.
    destruct (ls q) as [files|e] eqn:Hls.
    + rewrite forEach_ok_iff. split.
      * intros Hch [|d] dir Hd Hin.
        -- destruct Hin as [<-|[]]. now exists files.
        -- apply (in_dirsAtDepth_S ls) in Hin as [f [Hf [Hdesc Hin]]].
           unfold listingOf in Hf. rewrite Hls in Hf.
           apply (proj1 (IHk _) (Hch f Hf Hdesc) d dir); [lia|exact Hin].
      * intros Hall f Hf Hdesc. apply IHk. intros d dir Hd Hin.
        apply (Hall (S d) dir); [lia|].
        apply (in_dirsAtDepth_S ls). exists f.
        unfold listingOf at 1. rewrite Hls. auto.
    + split; [intros [res Hres]; discriminate|].
      intros Hall. destruct (Hall 0 q) as [files Hf]; [lia|now left|].
      congruence.
Qed.

End StaticWalks.

(** X6. A walk fails as a whole. When listings are a function of the
    path, the walk returns a result exactly when every directory it
    reaches within the depth bound can be listed: one directory that
    cannot be listed, at any level up to [maxDepth], makes the whole walk
    throw, with no partial result; a directory deeper than the bound is
    never listed and cannot make it fail. *)
Theorem tree_walk_fails_as_a_whole ls useSFTP startPath maxDepth w :
  (forall p, client_list p w = (ls p, w)) ->
  ((exists res,
      getTreeRecursive useSFTP startPath 0 maxDepth w = (Ok res, w)) <->
   (forall d dir,
      (Z.of_nat d <= maxDepth)%Z ->
      In dir (dirsAtDepth (listingOf ls) useSFTP startPath d) ->
      exists files, ls dir = Ok files)).
Proof.
  intros Hls. unfold getTreeRecursive. rewrite (walk_ok_iff ls Hls).
  split; intros Hall d dir Hd; apply Hall; lia.
Qed.

(** X7. Raising [maxDepth] only adds entries. When listings are a
    function of the path and the walk with the larger bound returns, the
    walk with the smaller bound returns too, and every entry it returns
    is returned by the deeper walk. *)
Theorem tree_deeper_includes ls useSFTP startPath maxDepth deeper w res2 :
  (forall p, client_list p w = (ls p, w)) ->
  (maxDepth <= deeper)%Z ->
  getTreeRecursive useSFTP startPath 0 deeper w = (Ok res2, w) ->
  exists res1,
    getTreeRecursive useSFTP startPath 0 maxDepth w = (Ok res1, w) /\
    forall e, In e res1 -> In e res2.
Proof.
  intros Hls Hle Hrun2. unfold getTreeRecursive in *.
  assert (Hok1 : exists res1,
             walk (Z.to_nat (maxDepth + 1 - 0)) useSFTP startPath w
             = (Ok res1, w)).
  { apply (walk_ok_iff ls Hls). intros d dir Hd.
    apply (proj1 (walk_ok_iff ls Hls _ useSFTP startPath)
                 (ex_intro _ res2 Hrun2)). lia. }
  destruct Hok1 as [res1 Hrun1]. exists res1. split; [exact Hrun1|].
  pose proof (walk_static ls Hls (Z.to_nat (maxDepth + 1 - 0)) useSFTP startPath)
    as [_ H1].
  pose proof (walk_static ls Hls (Z.to_nat (deeper + 1 - 0)) useSFTP startPath)
    as [_ H2].
  rewrite Hrun1 in H1. rewrite Hrun2 in H2.
  intros e He. apply (H2 res2 eq_refl). apply (H1 res1 eq_refl) in He.
  destruct He as [d [Hd He]]. exists d. split; [lia|exact He].
Qed.

End TreeMoreFacts.

Lemma tree_paths_below_start_witness :
  let client := Mem.memClient Examples.treeSnapshot in
  let e := Tree.mkTreeEntry "a/b/h" "h" false 10 (Tree.ModNumber 3) in
  "a" <> "." /\
  @Tree.getTreeRecursive _ client true "a" 0 10 []
  = (Ok [Tree.mkTreeEntry "a/b" "b" true 4096 (Tree.ModNumber 1000);
         e;
         Tree.mkTreeEntry "a/g" "g" false 10 (Tree.ModNumber 2)], []) /\
  (exists mid, Tree.path e = "a" ++ "/" ++ mid ++ Tree.name e) /\
  JSString.startsWith ("a" ++ "/") (Tree.path e) = true.
Proof.
  intros client e.
  assert (Hne : "a" <> ".") by discriminate.
  assert (Hrun : @Tree.getTreeRecursive _ client true "a" 0 10 []
                 = (Ok [Tree.mkTreeEntry "a/b" "b" true 4096 (Tree.ModNumber 1000);
                        e;
                        Tree.mkTreeEntry "a/g" "g" false 10 (Tree.ModNumber 2)], []))
    by (vm_compute; reflexivity).
  split; [exact Hne|]. split; [exact Hrun|].
  exact (@tree_paths_below_start _ client true "a" 0 10 [] _ [] Hne Hrun e
           (or_intror (or_introl eq_refl))).
Defined.

Lemma tree_walk_fails_as_a_whole_witness :
  let client := Mem.memClient MoreExamples.brokenTreeSnapshot in
  (forall p, @client_list _ client p []
             = (MoreExamples.brokenTreeListing p, [])) /\
  (exists res,
     @Tree.getTreeRecursive _ client true "." 0 1 [] = (Ok res, [])) /\
  ~ (exists res,
       @Tree.getTreeRecursive _ client true "." 0 2 [] = (Ok res, [])).
Proof.
  intros client.
  assert (Hls : forall p, @client_list _ client p []
                          = (MoreExamples.brokenTreeListing p, []))
    by (intros p; reflexivity).
  split; [exact Hls|]. split.
  - apply (proj2 (@tree_walk_fails_as_a_whole _ client
                    MoreExamples.brokenTreeListing true "." 1 [] Hls)).
    intros [|[|d]] dir Hd Hin; [| |lia].
    + destruct Hin as [<-|[]]. eexists. reflexivity.
    + destruct Hin as [<-|[]]. eexists. reflexivity.
  - intros Hok.
    destruct (proj1 (@tree_walk_fails_as_a_whole _ client
                       MoreExamples.brokenTreeListing true "." 2 [] Hls)
                    Hok 2 "a/b") as [files Hfiles].
    + lia.
    + vm_compute. now left.
    + discriminate.
Defined.

Lemma tree_deeper_includes_witness :
  let client := Mem.memClient Examples.treeSnapshot in
  exists res1,
    @Tree.getTreeRecursive _ client true "." 0 0 [] = (Ok res1, []) /\
    forall e, In e res1 -> In e Examples.treeDepth1.
Proof.
  intros client.
  refine (@tree_deeper_includes _ client Examples.treeListing true "." 0 1 []
            Examples.treeDepth1 _ _ _).
  - intros p. reflexivity.
  - lia.
  - vm_compute. reflexivity.
Defined.

(** ** [ftp_tree] and [ftp_search] *)

Section ListingFacts.
Import JSString JSText Tree Handlers Listing.
Context {W : Type} `{Client W} `{RegExpEnv}.

Lemma countChar_app c a b :
  countChar c (a ++ b) = countChar c a + countChar c b.
Proof. induction a as [|x a IH]; simpl; [reflexivity|rewrite IH; lia]. Qed.

Lemma firstChar_app a b :
  a <> EmptyString -> firstChar (a ++ b) = firstChar a.
Proof. destruct a; [congruence|reflexivity]. Qed.

Lemma treeLine_first item :
  firstChar (treeLine item) = Some " "%char \/
  firstChar (treeLine item) = Some "195"%char.
Proof.
  unfold treeLine, indentOf.
  destruct (countChar "/"%char (path item)); [right|left; reflexivity].
  destruct (isDirectory item); reflexivity.
Qed.

Lemma join_first sep line lines :
  line <> EmptyString ->
  firstChar (join sep (line :: lines)) = firstChar line.
Proof.
  intros Hne. unfold join. destruct lines as [|l2 lines]; [reflexivity|].
  cbn [String.concat]. now apply firstChar_app.
Qed.

(** X8. The answer of [ftp_tree]. When the walk returns, the answer is
    the text [Empty directory] exactly when the walk found no entry;
    otherwise it is the lines of the entries joined by newlines, so it
    starts with a space or with an icon. When the walk throws, [ftp_tree]
    throws the same error. *)
Theorem ftp_tree_answer useSFTP path maxDepth w :
  let startPath := match path with Some p => p | None => "." end in
  let bound := match maxDepth with Some d => d | None => 10%Z end in
  (forall tree w',
     getTreeRecursive useSFTP startPath 0 bound w = (Ok tree, w') ->
     exists text,
       ftp_tree useSFTP path maxDepth w = (Ok (textResponse text), w') /\
       (text = "Empty directory" <-> tree = []) /\
       (tree <> [] ->
        text = join (String "010"%char EmptyString) (map treeLine tree))) /\
  (forall e w',
     getTreeRecursive useSFTP startPath 0 bound w = (Throw e, w') ->
     ftp_tree useSFTP path maxDepth w = (Throw e, w')).
Proof.
  intros startPath bound. unfold ftp_tree. fold startPath bound. split.
  - intros tree w' Hrun. unfold bind. rewrite Hrun.
    eexists. split; [reflexivity|].
    destruct tree as [|item tree].
    + split; [split; reflexivity|congruence].
    + assert (Hline : treeLine item <> EmptyString).
      { destruct (treeLine_first item) as [Hf|Hf];
          destruct (treeLine item); discriminate || congruence. }
      pose proof (join_first (String "010"%char EmptyString)
                    (map treeLine tree) Hline) as Hfirst.
      cbn [map]. unfold orElse.
      destruct (join (String "010"%char EmptyString)
                  (treeLine item :: map treeLine tree)) as [|a t] eqn:Hj.
      * destruct (treeLine item); [congruence|discriminate].
      * cbn [truthy]. split; [|reflexivity]. split; [|discriminate].
        intros Heq. rewrite Heq in Hfirst. simpl in Hfirst.
        destruct (treeLine_first item) as [Hf|Hf]; rewrite Hf in Hfirst;
          discriminate.
  - intros e w' Hrun. unfold bind. now rewrite Hrun.
Qed.

Section StaticListing.

Variable ls : string -> Result (list FileInfo).
Variable useSFTP : bool.
Variable startPath : string.
Hypothesis names_without_slash :
  forall p f, In f (listingOf ls p) -> countChar "/"%char (fi_name f) = 0.

Lemma dirs_slashes d dir :
  In dir (dirsAtDepth (listingOf ls) useSFTP startPath d) ->
  (dir = startPath /\ d = 0) \/
  (dir <> "." /\
   countChar "/"%char dir + 1 = d + slashOffset startPath).
Proof.
  revert dir. induction d as [|d IH]; intros dir Hin.
  - destruct Hin as [<-|[]]. now left.
  - right. cbn [dirsAtDepth] in Hin. apply in_flat_map in Hin as [parent [Hp Hin]].
    apply in_map_iff in Hin as [f [<- Hf]]. apply filter_In in Hf as [Hf Hdesc].
    pose proof (names_without_slash parent f Hf) as Hname.
    unfold descends in Hdesc.
    apply andb_true_iff in Hdesc as [Hdesc _].
    apply andb_true_iff in Hdesc as [_ Hdot].
    apply negb_true_iff in Hdot.
    unfold fullPathOf, slashOffset in *.
    destruct (IH parent Hp) as [[-> ->]|[Hne Hcount]].
    + destruct (String.eqb_spec startPath ".") as [Hs|Hs].
      * split; [|lia]. intros Heq. rewrite Heq in Hdot. discriminate.
      * split; [apply joined_not_dot|].
        rewrite !countChar_app. simpl. lia.
    + destruct (String.eqb_spec parent ".") as [Hs|Hs]; [contradiction|].
      split; [apply joined_not_dot|].
      rewrite !countChar_app. simpl. lia.
Qed.

Lemma entries_slashes d e :
  In e (entriesAtDepth (listingOf ls) useSFTP startPath d) ->
  countChar "/"%char (path e) = d + slashOffset startPath.
Proof.
  unfold entriesAtDepth. intros Hin.
  apply in_flat_map in Hin as [dir [Hdir Hin]].
  apply in_map_iff in Hin as [f [<- Hf]].
  pose proof (names_without_slash dir f Hf) as Hname.
  cbn [path entryOf]. unfold fullPathOf, slashOffset in *.
  destruct (dirs_slashes d dir Hdir) as [[-> ->]|[Hne Hcount]].
  - destruct (String.eqb_spec startPath "."); [lia|].
    rewrite !countChar_app. simpl. lia.
  - unfold slashOffset in Hcount.
    destruct (String.eqb_spec dir "."); [contradiction|].
    rewrite !countChar_app. simpl. lia.
Qed.

End StaticListing.

(** X9. The indentation of [ftp_tree] shows the depth. When no name in a
    listing holds a slash, the line of an entry [d] levels below the
    start path is indented by two spaces per level, [d] times for a walk
    from [.], and by one more step for each component of any other start
    path. *)
Theorem ftp_tree_indent_is_depth ls useSFTP startPath d e :
  (forall p f, In f (listingOf ls p) -> countChar "/"%char (fi_name f) = 0) ->
  In e (entriesAtDepth (listingOf ls) useSFTP startPath d) ->
  indentOf e = repeatString "  " (d + slashOffset startPath) /\
  treeLine e =
    repeatString "  " (d + slashOffset startPath)
    ++ (if isDirectory e then folderIcon else fileIcon)
    ++ " " ++ name e ++ " "
    ++ (if negb (isDirectory e)
        then "(" ++ showZ (size e) ++ " bytes)" else "").
Proof.
  intros Hnames Hin. unfold treeLine, indentOf.
  now rewrite (entries_slashes ls useSFTP startPath Hnames d e Hin).
Qed.

Lemma replaceAllChar_absent c repl s :
  hasChar c s = false -> replaceAllChar c repl s = s.
Proof.
  induction s as [|a s IH]; simpl; [reflexivity|].
  intros Hc. apply orb_false_iff in Hc as [Ha Hs].
  rewrite Ha. simpl. now rewrite IH.
Qed.

(** X10. What [ftp_search] can find. When listings are a function of the
    path and the search returns, its matches are exactly the entries at
    most 10 levels below the start path whose name the regular expression
    built from the pattern accepts: an entry deeper than that is never
    found, whatever the pattern. A pattern that holds neither [*] nor [?]
    is used as the regular expression as it is. *)
Theorem ftp_search_depth ls useSFTP pattern path w matches w' :
  let startPath := match path with Some p => p | None => "." end in
  (forall p, client_list p w = (ls p, w)) ->
  searchMatches useSFTP pattern path w = (Ok matches, w') ->
  (exists regex,
     newRegExp (globToRegExp pattern) = Ok regex /\
     forall e, In e matches <->
       regex (name e) = true /\
       exists d, d <= 10 /\
                 In e (entriesAtDepth (listingOf ls) useSFTP startPath d)) /\
  (hasChar "*"%char pattern = false -> hasChar "?"%char pattern = false ->
   globToRegExp pattern = pattern).
Proof.
  intros startPath Hls Hrun. split.
  - unfold searchMatches in Hrun. fold startPath in Hrun.
    unfold bind at 1 in Hrun. unfold getTreeRecursive in Hrun.
    pose proof (walk_static ls Hls (Z.to_nat (10 + 1 - 0)) useSFTP startPath)
      as [Hst Hres].
    destruct (walk (Z.to_nat (10 + 1 - 0)) useSFTP startPath w)
      as [[tree|err] w1]; [|discriminate].
    cbn [fst snd] in *. specialize (Hres tree eq_refl).
    unfold bind, liftR, ret in Hrun.
    destruct (newRegExp (globToRegExp pattern)) as [regex|err]; [|discriminate].
    injection Hrun as <- _. exists regex. split; [reflexivity|].
    intros e. rewrite filter_In, Hres. split.
    + intros [[d [Hd He]] Hm]. split; [exact Hm|]. exists d.
      split; [|exact He]. change (Z.to_nat (10 + 1 - 0)) with 11 in Hd. lia.
    + intros [Hm [d [Hd He]]]. split; [|exact Hm]. exists d.
      split; [|exact He]. change (Z.to_nat (10 + 1 - 0)) with 11. lia.
  - intros Hstar Hq. unfold globToRegExp.
    rewrite (replaceAllChar_absent "*"%char ".*" pattern Hstar).
    now apply replaceAllChar_absent.
Qed.

End ListingFacts.

Section ListingWitnesses.
Import JSString JSText Tree Handlers Listing Mem Examples MoreExamples.

Lemma treeListing_names p f :
  In f (listingOf treeListing p) -> countChar "/"%char (fi_name f) = 0.
Proof.
  unfold listingOf, treeListing, guarded, fromOption. simpl.
  destruct (String.eqb p "."); simpl.
  - intros [<-|[<-|[]]]; reflexivity.
  - destruct (String.eqb p "a"); simpl.
    + intros [<-|[<-|[]]]; reflexivity.
    + destruct (String.eqb p "a/b"); simpl.
      * intros [<-|[]]; reflexivity.
      * intros [].
Qed.

Lemma ftp_tree_answer_witness :
  let client := memClient treeSnapshot in
  exists text,
    @ftp_tree _ client true None (Some 1%Z) []
    = (Ok (textResponse text), []) /\
    (text = "Empty directory" <-> treeDepth1 = []) /\
    (treeDepth1 <> [] ->
     text = join (String "010"%char EmptyString) (map treeLine treeDepth1)).
Proof.
  intros client.
  refine (proj1 (@ftp_tree_answer _ client true None (Some 1%Z) [])
                treeDepth1 [] _).
  vm_compute. reflexivity.
Defined.

Lemma ftp_tree_indent_is_depth_witness :
  let e := mkTreeEntry "a/g" "g" false 10 (ModNumber 2) in
  In e (entriesAtDepth (listingOf treeListing) true "." 1) /\
  indentOf e = "  " /\
  treeLine e = "  " ++ fileIcon ++ " g (10 bytes)".
Proof.
  intros e.
  assert (Hin : In e (entriesAtDepth (listingOf treeListing) true "." 1))
    by (vm_compute; tauto).
  split; [exact Hin|].
  exact (@ftp_tree_indent_is_depth treeListing true "." 1 e
           treeListing_names Hin).
Defined.

Lemma ftp_search_depth_witness :
  let client := memClient treeSnapshot in
  let found := [mkTreeEntry "a/g" "g" false 10 (ModNumber 2)] in
  @searchMatches _ client plainRegExp true "g" None [] = (Ok found, []) /\
  (exists regex,
     @newRegExp plainRegExp (globToRegExp "g") = Ok regex /\
     forall e, In e found <->
       regex (name e) = true /\
       exists d, d <= 10 /\
                 In e (entriesAtDepth (listingOf treeListing) true "." d)) /\
  (hasChar "*"%char "g" = false -> hasChar "?"%char "g" = false ->
   globToRegExp "g" = "g").
Proof.
  intros client found.
  assert (Hrun : @searchMatches _ client plainRegExp true "g" None []
                 = (Ok found, [])) by (vm_compute; reflexivity).
  split; [exact Hrun|].
  exact (@ftp_search_depth _ client plainRegExp treeListing true "g" None []
           found [] (fun p => eq_refl) Hrun).
Defined.

End ListingWitnesses.

(** ** Splitting a remote path *)

Section PathSplitFacts.
Import JSString JSText Handlers.

Lemma string_length_app (a b : string) :
  String.length (a ++ b) = String.length a + String.length b.
Proof. induction a as [|x a IH]; simpl; [reflexivity|now rewrite IH]. Qed.

Lemma substring_all s : String.substring 0 (String.length s) s = s.
Proof. induction s as [|a s IH]; simpl; [reflexivity|now rewrite IH]. Qed.

Lemma substring_head pre t :
  String.substring 0 (String.length pre) (pre ++ t) = pre.
Proof.
  induction pre as [|a pre IH]; simpl.
  - destruct t; reflexivity.
  - now rewrite IH.
Qed.

Lemma substring_tail pre t :
  String.substring (String.length pre) (String.length t) (pre ++ t) = t.
Proof.
  induction pre as [|a pre IH]; simpl; [apply substring_all|exact IH].
Qed.

(** The last occurrence of [c] splits the string. *)
Lemma lastIndexOf_spec c s :
  (lastIndexOf c s = (-1)%Z /\ hasChar c s = false) \/
  (exists pre post,
     s = pre ++ String c post /\
     lastIndexOf c s = Z.of_nat (String.length pre) /\
     hasChar c post = false).
Proof.
  induction s as [|a s IH]; [now left|].
  cbn [lastIndexOf hasChar].
  destruct IH as [[Hr Hno]|[pre [post [Hs [Hr Hno]]]]].
  - rewrite Hr. cbn. rewrite Hno.
    destruct (Ascii.eqb_spec a c) as [->|Hne].
    + right. exists "", s. auto.
    + left. auto.
  - rewrite Hr. right. exists (String a pre), post.
    destruct (Z.leb_spec 0 (Z.of_nat (String.length pre))); [|lia].
    split; [simpl; now rewrite Hs|]. split; [|exact Hno].
    cbn [String.length]. lia.
Qed.

(** X11. How a remote path is split at its last slash, in [ftp_exists]
    and [ftp_stat]. The name part never holds a slash. A path without a
    slash is the name itself, looked up in the directory [.]. A path with
    a slash is the directory part, a slash and the name; when the
    directory part is empty (the only slash is the first character, as in
    [/file]) the directory used is [.], not the root. *)
Theorem remote_path_split path :
  hasChar "/"%char (fileNameOf path) = false /\
  (hasChar "/"%char path = false ->
   dirPathOf path = "." /\ fileNameOf path = path) /\
  (hasChar "/"%char path = true ->
   exists dir,
     path = dir ++ "/" ++ fileNameOf path /\
     dirPathOf path = (if truthy dir then dir else ".")).
Proof.
  unfold dirPathOf, fileNameOf, substring1, substring2, clamp.
  destruct (lastIndexOf_spec "/"%char path)
    as [[Hr Hno]|[pre [post [Hs [Hr Hno]]]]]; rewrite Hr.
  - assert (Hname :
      String.substring
        (Nat.min (Z.to_nat (Z.min (Z.max 0 (-1 + 1)) (Z.of_nat (String.length path))))
                 (Z.to_nat (Z.min (Z.max 0 (Z.of_nat (String.length path)))
                                  (Z.of_nat (String.length path)))))
        (Nat.max (Z.to_nat (Z.min (Z.max 0 (-1 + 1)) (Z.of_nat (String.length path))))
                 (Z.to_nat (Z.min (Z.max 0 (Z.of_nat (String.length path)))
                                  (Z.of_nat (String.length path))))
         - Nat.min (Z.to_nat (Z.min (Z.max 0 (-1 + 1)) (Z.of_nat (String.length path))))
                   (Z.to_nat (Z.min (Z.max 0 (Z.of_nat (String.length path)))
                                    (Z.of_nat (String.length path)))))
        path = path).
    { replace (Nat.min _ _) with 0 by lia.
      replace (Nat.max _ _ - 0) with (String.length path) by lia.
      apply substring_all. }
    rewrite Hname. split; [exact Hno|]. split; [|congruence].
    intros _. split; [|reflexivity].
    replace (Nat.min _ _) with 0 by lia.
    replace (Nat.max _ _ - 0) with 0 by lia.
    destruct path; reflexivity.
  - subst path. rewrite string_length_app. cbn [String.length].
    set (n := String.length pre). set (m := String.length post).
    assert (Hname :
      String.substring
        (Nat.min (Z.to_nat (Z.min (Z.max 0 (Z.of_nat n + 1)) (Z.of_nat (n + S m))))
                 (Z.to_nat (Z.min (Z.max 0 (Z.of_nat (n + S m))) (Z.of_nat (n + S m)))))
        (Nat.max (Z.to_nat (Z.min (Z.max 0 (Z.of_nat n + 1)) (Z.of_nat (n + S m))))
                 (Z.to_nat (Z.min (Z.max 0 (Z.of_nat (n + S m))) (Z.of_nat (n + S m))))
         - Nat.min (Z.to_nat (Z.min (Z.max 0 (Z.of_nat n + 1)) (Z.of_nat (n + S m))))
                   (Z.to_nat (Z.min (Z.max 0 (Z.of_nat (n + S m))) (Z.of_nat (n + S m)))))
        (pre ++ String "/"%char post) = post).
    { replace (Nat.min _ _) with (String.length (pre ++ "/")) by
        (rewrite string_length_app; cbn [String.length]; fold n; lia).
      replace (Nat.max _ _ - _) with (String.length post) by
        (rewrite string_length_app; cbn [String.length]; fold n m; lia).
      change (pre ++ String "/"%char post) with (pre ++ ("/" ++ post)).
      rewrite <- append_assoc. apply substring_tail. }
    rewrite Hname. split; [exact Hno|]. split.
    + intros Habs. exfalso. clear -Habs.
      induction pre as [|a pre IH]; simpl in Habs; [discriminate|].
      apply orb_false_iff in Habs as [_ Habs]. auto.
    + intros _. exists pre. split; [reflexivity|].
      replace (Nat.min _ _) with 0 by lia.
      replace (Nat.max _ _ - 0) with (String.length pre) by (fold n; lia).
      now rewrite substring_head.
Qed.

Lemma remote_path_split_witness :
  hasChar "/"%char "/c.txt" = true /\
  hasChar "/"%char "backup.sql" = false /\
  (exists dir,
     "/c.txt" = dir ++ "/" ++ fileNameOf "/c.txt" /\
     dirPathOf "/c.txt" = (if truthy dir then dir else ".")) /\
  dirPathOf "/c.txt" = "." /\
  (dirPathOf "backup.sql" = "." /\ fileNameOf "backup.sql" = "backup.sql").
Proof.
  assert (H1 : hasChar "/"%char "/c.txt" = true) by reflexivity.
  assert (H2 : hasChar "/"%char "backup.sql" = false) by reflexivity.
  split; [exact H1|]. split; [exact H2|]. split; [|split].
  - exact (proj2 (proj2 (remote_path_split "/c.txt")) H1).
  - reflexivity.
  - exact (proj1 (proj2 (remote_path_split "backup.sql")) H2).
Defined.

End PathSplitFacts.

(** ** [ftp_stat], the batch transfers and the envelope *)

Section ToolFacts.
Import JSString JSText Handlers Listing Tools.
Context {W : Type} `{Client W} `{ClientMore W}.

Lemma existsb_find {A} (f : A -> bool) l :
  existsb f l = true <-> exists x, find f l = Some x.
Proof.
  induction l as [|a l IH]; simpl.
  - split; [discriminate|intros [x Hx]; discriminate].
  - destruct (f a); simpl; [split; eauto|exact IH].
Qed.

(** X12. [ftp_exists] and [ftp_stat] agree. From the same state of the
    connection, [ftp_exists] answers [true] exactly when [ftp_stat]
    returns a result, and they leave the connection in the same state.
    On FTP, when the parent directory can be listed but does not hold the
    name, [ftp_stat] throws an error whose message is [File not found:]
    followed by the path. *)
Theorem exists_agrees_with_stat statText useSFTP path w :
  (fst (ftp_exists useSFTP path w) = Ok (textResponse "true") <->
   exists answer, fst (ftp_stat statText useSFTP path w) = Ok answer) /\
  snd (ftp_exists useSFTP path w) = snd (ftp_stat statText useSFTP path w) /\
  (forall files w1,
     client_list (dirPathOf path) w = (Ok files, w1) ->
     find (fun f => String.eqb (fi_name f) (fileNameOf path)) files = None ->
     exists e,
       ftp_stat statText false path w = (Throw e, w1) /\
       message e = "File not found: " ++ path).
Proof.
  unfold ftp_exists, existsLookup, ftp_stat, tryCatch, bind, ret, throw.
  split; [|split].
  - destruct useSFTP.
    + destruct (client_stat path w) as [[st|e] w1]; cbn [fst].
      * split; [intros _; eexists; reflexivity|reflexivity].
      * split; [discriminate|intros [a Ha]; discriminate].
    + destruct (client_list (dirPathOf path) w) as [[files|e] w1]; cbn [fst].
      * destruct (find (fun f => String.eqb (fi_name f) (fileNameOf path)) files)
          as [x|] eqn:Hf.
        -- assert (Hex : existsb (fun f => String.eqb (fi_name f) (fileNameOf path))
                                 files = true)
             by (apply existsb_find; now exists x).
           rewrite Hex. split; [intros _; eexists; reflexivity|reflexivity].
        -- assert (Hex : existsb (fun f => String.eqb (fi_name f) (fileNameOf path))
                                 files = false).
           { destruct (existsb _ files) eqn:Hex; [|reflexivity].
             apply existsb_find in Hex as [x Hx]. congruence. }
           rewrite Hex. split; [discriminate|intros [a Ha]; discriminate].
      * split; [discriminate|intros [a Ha]; discriminate].
  - destruct useSFTP.
    + destruct (client_stat path w) as [[st|e] w1]; reflexivity.
    + destruct (client_list (dirPathOf path) w) as [[files|e] w1];
        [|reflexivity].
      destruct (find _ files); reflexivity.
  - intros files w1 -> ->. eexists. split; reflexivity.
Qed.

(** *** Batch transfers *)

Lemma batchStep_cases (transfer : BatchFile -> M W unit) file results w :
  exists results' w',
    batchStep transfer file results w = (Ok results', w') /\
    w' = snd (transfer file w) /\
    ((fst (transfer file w) = Ok tt /\
      results' = pushSuccess (remotePath file) results) \/
     (exists e, fst (transfer file w) = Throw e /\
                results' = pushFailed (remotePath file) (message e) results)).
Proof.
  unfold batchStep, tryCatch, bind, ret.
  destruct (transfer file w) as [[[]|e] w1]; eexists; eexists;
    (split; [reflexivity|split; [reflexivity|]]).
  - now left.
  - right. now exists e.
Qed.

Lemma batch_loop (transfer : BatchFile -> M W unit) files :
  forall acc w,
  exists done bad w',
    forEach (batchStep transfer) files acc w
    = (Ok {| success := (success acc ++ done)%list;
             failed := (failed acc ++ bad)%list |}, w') /\
    List.length done + List.length bad = List.length files /\
    (forall p, In p (map remotePath files) <->
               In p done \/ In p (map fst bad)) /\
    ((forall f w0, In f files -> fst (transfer f w0) = Ok tt) ->
     done = map remotePath files /\ bad = []).
Proof.
  induction files as [|file files IH]; intros acc w.
  - exists [], [], w. simpl. rewrite !app_nil_r. destruct acc.
    split; [reflexivity|]. split; [reflexivity|]. split; [tauto|auto].
  - cbn [forEach]. unfold bind at 1.
    destruct (batchStep_cases transfer file acc w)
      as [r1 [w1 [Hstep [_ Hcase]]]].
    rewrite Hstep.
    destruct (IH r1 w1) as [done [bad [w2 [Hrun [Hlen [Hmem Hall]]]]]].
    rewrite Hrun.
    destruct Hcase as [[Hok ->]|[e [Hfail ->]]]; cbn [success failed pushSuccess pushFailed].
    + exists (remotePath file :: done), bad, w2.
      rewrite <- app_assoc. split; [reflexivity|].
      split; [simpl; lia|]. split.
      * intros p. simpl. rewrite Hmem. tauto.
      * intros Hgood.
        destruct Hall as [-> ->]; [intros f w0 Hf; apply Hgood; now right|].
        auto.
    + exists done, ((remotePath file, message e) :: bad), w2.
      rewrite <- app_assoc. split; [reflexivity|].
      split; [simpl; lia|]. split.
      * intros p. simpl. rewrite Hmem. tauto.
      * intros Hgood. rewrite (Hgood file w (or_introl eq_refl)) in Hfail.
        discriminate.
Qed.

(** X13. A batch accounts for every file, once. [ftp_batch_upload] and
    [ftp_batch_download] never throw: a transfer that fails is recorded
    and the loop goes on. The answer counts [Uploaded] (or [Downloaded])
    and [Failed] files, the two counts add up to the number of files
    asked for, every remote path asked for is among the successes or the
    failures, and when no transfer fails all paths are successes, in the
    order asked. *)
Theorem batch_accounts_for_every_file useSFTP files w :
  let accounted (results : BatchResults) :=
    List.length (success results) + List.length (failed results)
    = List.length files /\
    (forall p, In p (map remotePath files) <->
               In p (success results) \/ In p (map fst (failed results))) in
  (exists results w',
     ftp_batch_upload useSFTP files w
     = (Ok (textResponse (batchText "Uploaded" results)), w') /\
     accounted results /\
     ((forall f w0, In f files -> fst (uploadOne useSFTP f w0) = Ok tt) ->
      success results = map remotePath files /\ failed results = [])) /\
  (exists results w',
     ftp_batch_download useSFTP files w
     = (Ok (textResponse (batchText "Downloaded" results)), w') /\
     accounted results /\
     ((forall f w0, In f files -> fst (downloadOne useSFTP f w0) = Ok tt) ->
      success results = map remotePath files /\ failed results = [])).
Proof.
  intros accounted. subst accounted. cbn beta.
  unfold ftp_batch_upload, ftp_batch_download, batchRun, bind, ret.
  split.
  - destruct (batch_loop (uploadOne useSFTP) files noResults w)
      as [done [bad [w' [Hrun [Hlen [Hmem Hall]]]]]].
    rewrite Hrun. cbn [success failed noResults app] in *.
    eexists; eexists. split; [reflexivity|]. cbn [success failed]. auto.
  - destruct (batch_loop (downloadOne useSFTP) files noResults w)
      as [done [bad [w' [Hrun [Hlen [Hmem Hall]]]]]].
    rewrite Hrun. cbn [success failed noResults app] in *.
    eexists; eexists. split; [reflexivity|]. cbn [success failed]. auto.
Qed.

(** *** The envelope *)


End ToolFacts.

Section ToolWitnesses.
Import JSString JSText Handlers Listing Tools Mem Examples MoreExamples.

Lemma exists_agrees_with_stat_witness :
  let client := memClient guardedSnapshot in
  let more := memClientMore guardedSnapshot in
  let statText := fun (_ : bool) (f : FileInfo) => fi_name f in
  @client_list _ client (dirPathOf "missing.txt") []
  = (Ok [ftpFile "index.html" 5%Z], []) /\
  (exists e,
     @ftp_stat _ client statText false "missing.txt" [] = (Throw e, []) /\
     message e = "File not found: missing.txt") /\
  fst (@ftp_exists _ client false "index.html" []) = Ok (textResponse "true").
Proof.
  intros client more statText.
  assert (Hlist : @client_list _ client (dirPathOf "missing.txt") []
                  = (Ok [ftpFile "index.html" 5%Z], [])) by reflexivity.
  split; [exact Hlist|]. split.
  - exact (proj2 (proj2 (@exists_agrees_with_stat _ client statText false
                           "missing.txt" []))
                 _ _ Hlist eq_refl).
  - apply (proj1 (@exists_agrees_with_stat _ client statText false
                    "index.html" [])).
    eexists. reflexivity.
Defined.

Lemma batch_accounts_for_every_file_witness :
  let client := memClient siteSnapshot in
  let more := memClientMore siteSnapshot in
  (forall f w0, In f threeTransfers ->
                fst (@uploadOne _ client true f w0) = Ok tt) /\
  exists results w',
    @ftp_batch_upload _ client true threeTransfers []
    = (Ok (textResponse (batchText "Uploaded" results)), w') /\
    success results = map remotePath threeTransfers /\ failed results = [].
Proof.
  intros client more.
  assert (Hgood : forall f w0, In f threeTransfers ->
                    fst (@uploadOne _ client true f w0) = Ok tt).
  { intros f w0 [<-|[<-|[<-|[]]]]; reflexivity. }
  split; [exact Hgood|].
  destruct (proj1 (@batch_accounts_for_every_file _ client more true
                     threeTransfers []))
    as [results [w' [Hrun [_ Hall]]]].
  exists results, w'. split; [exact Hrun|]. exact (Hall Hgood).
Defined.

(** On the server where [two.txt] fails, the other two files are still
    transferred. *)
Example batch_example :
  @ftp_batch_upload _ (memClient flakySnapshot) true threeTransfers []
  = (Ok (textResponse
           ("Uploaded: 2" ++ String "010" "Failed: 1" ++ String "010"
              (String "010" "Errors:" ++ String "010"
                 "/www/two.txt: Upload failed"))),
     [CPut (FromPath "/home/dist/one.txt") "/www/one.txt";
      CPut (FromPath "/home/dist/three.txt") "/www/three.txt"]).
Proof. reflexivity. Qed.


End ToolWitnesses.

(** ** [loadFTPConfig] *)

Section ConfigFacts.
Import JSString Config.

Variable V : Type.
Variable truthyV : V -> bool.
Variable parseJSON : string -> Result (list (string * V)).
Variable fromEnv : V.




End ConfigFacts.


(** ** SyncEngine, continued *)

Section SyncMoreFacts.
Import Ignore Sync Visit Report.
Context {W : Type} `{Client W} `{NodeEnv}.


(** *** Every visited entry, errors included *)

Lemma accounted_incIgnored s : accounted (incIgnored s) = accounted s + 1.
Proof. unfold accounted; simpl; lia. Qed.

Lemma accounted_incSkipped s : accounted (incSkipped s) = accounted s + 1.
Proof. unfold accounted; simpl; lia. Qed.

Lemma accounted_incUploaded s : accounted (incUploaded s) = accounted s + 1.
Proof. unfold accounted; simpl; lia. Qed.

Lemma accounted_pushError msg s : accounted (pushError msg s) = accounted s + 1.
Proof. unfold accounted; simpl. rewrite length_app. simpl. lia. Qed.

Lemma accounted_addSubStats sub s :
  accounted (addSubStats sub s) = accounted s + accounted sub.
Proof. unfold accounted; simpl. rewrite length_app. lia. Qed.

Ltac account_steps :=
  cbn [fst snd List.length];
  rewrite ?accounted_incIgnored, ?accounted_incSkipped,
    ?accounted_incUploaded, ?accounted_pushError, ?accounted_addSubStats;
  try change (accounted initStats) with 0;
  try lia.

(** One file entry is accounted for exactly once. *)
Lemma accounted_file useSFTP direction extraExclude localPath remotePath
      ignorePatterns basePath name st s w :
  accounted
    (fst (snd (syncEntry useSFTP direction extraExclude localPath remotePath
                 ignorePatterns basePath (LFile name st) (s, w))))
  = accounted s + 1.
Proof.
  destruct (shouldIgnore (path_join localPath name) ignorePatterns basePath)
    eqn:Hign.
  - rewrite syncEntry_ignored by exact Hign. account_steps.
  - destruct st as [mtime|e].
    + rewrite syncEntry_file by exact Hign.
      destruct (remoteLookup useSFTP remotePath _ name w) as [found w1].
      destruct (needsUpload mtime found).
      * destruct (transfer useSFTP _ _ w1) as [[[]|e] w2]; account_steps.
      * account_steps.
    + rewrite syncEntry_file_stat_fails by exact Hign. account_steps.
Qed.

Lemma accounted_loop useSFTP direction extraExclude basePath
      localPath remotePath ignorePatterns files :
  Forall
    (fun file =>
       forall localPath remotePath ignorePatterns s w,
         accounted
           (fst (snd (syncEntry useSFTP direction extraExclude localPath
                        remotePath ignorePatterns basePath file (s, w))))
         <= accounted s
            + List.length
                (visitedEntry useSFTP direction extraExclude localPath
                   remotePath ignorePatterns basePath file (s, w)))
    files ->
  forall sw,
    accounted
      (fst (loopState useSFTP direction extraExclude localPath remotePath
              ignorePatterns basePath files sw))
    <= accounted (fst sw)
       + List.length
           (visitLoop
              (visitedEntry useSFTP direction extraExclude localPath
                 remotePath ignorePatterns basePath)
              (fun f sw' =>
                 snd (syncEntry useSFTP direction extraExclude localPath
                        remotePath ignorePatterns basePath f sw'))
              files sw).
Proof.
  induction 1 as [|f l Hf _ IHl]; intros sw.
  - simpl. lia.
  - rewrite loopState_cons. cbn [visitLoop]. rewrite length_app.
    specialize (IHl (snd (syncEntry useSFTP direction extraExclude localPath
                            remotePath ignorePatterns basePath f sw))).
    destruct sw as [s w].
    specialize (Hf localPath remotePath ignorePatterns s w).
    cbn [fst] in *. lia.
Qed.

Lemma accounted_entry useSFTP direction extraExclude basePath file :
  forall localPath remotePath ignorePatterns s w,
    accounted
      (fst (snd (syncEntry useSFTP direction extraExclude localPath
                   remotePath ignorePatterns basePath file (s, w))))
    <= accounted s
       + List.length
           (visitedEntry useSFTP direction extraExclude localPath
              remotePath ignorePatterns basePath file (s, w)).
Proof.
  induction file as [name st | name e | name l IH] using LNode_tree_ind;
    intros localPath remotePath ignorePatterns s w.
  - rewrite accounted_file. cbn [visitedEntry lname].
    destruct (shouldIgnore _ ignorePatterns basePath); simpl; lia.
  - cbn [visitedEntry lname].
    destruct (shouldIgnore (path_join localPath name) ignorePatterns basePath)
      eqn:Hign; [rewrite syncEntry_ignored by exact Hign; account_steps|].
    rewrite syncEntry_dir by exact Hign. cbn [snd].
    destruct (ensureRemoteDir useSFTP _ w) as [[[]|e'] w1]; [|account_steps].
    rewrite syncFiles_eq.
    destruct (wantsUpload direction); account_steps.
  - cbn [visitedEntry lname].
    destruct (shouldIgnore (path_join localPath name) ignorePatterns basePath)
      eqn:Hign; [rewrite syncEntry_ignored by exact Hign; account_steps|].
    rewrite syncEntry_dir by exact Hign. cbn [snd].
    destruct (ensureRemoteDir useSFTP _ w) as [[[]|e'] w1]; [|account_steps].
    rewrite syncFiles_eq. cbn [fst snd].
    destruct (wantsUpload direction); [|account_steps].
    pose proof (@accounted_loop useSFTP direction extraExclude basePath
                  (path_join localPath name) (remotePath ++ "/" ++ name)
                  (withExtra ignorePatterns extraExclude) l IH (initStats, w1))
      as Hloop.
    cbn [fst] in Hloop. change (accounted initStats) with 0 in Hloop.
    account_steps.
Qed.

Lemma accounted_flat useSFTP direction extraExclude localPath remotePath
      ignorePatterns basePath files :
  forallb isFile files = true ->
  forall sw,
    accounted
      (fst (loopState useSFTP direction extraExclude localPath remotePath
              ignorePatterns basePath files sw))
    = accounted (fst sw) + List.length files.
Proof.
  induction files as [|f files IH]; intros Hflat sw.
  - simpl. lia.
  - cbn [forallb] in Hflat. apply andb_true_iff in Hflat as [Hf Hrest].
    rewrite loopState_cons, (IH Hrest).
    destruct f as [name st|name rd]; [|discriminate].
    destruct sw as [s w]. rewrite accounted_file. simpl. lia.
Qed.

(** X17. Every visited entry ends in at most one place, errors included.
    After a run, [uploaded + skipped + ignored] plus the number of error
    entries is at most the number of local entries visited. For a
    directory that holds only files it is exactly the number of files:
    each file is uploaded, skipped, ignored or reported as an error, and
    only one of these. *)
Theorem report_accounts_with_errors useSFTP localPath remotePath direction
        inherited extraExclude localFiles w report w' :
  syncFiles useSFTP localPath remotePath direction inherited extraExclude
    (Ok localFiles) w = (Ok report, w') ->
  uploaded report + skipped report + ignored report
  + List.length (errors report)
  <= List.length
       (visited useSFTP localPath remotePath direction inherited
          extraExclude (Ok localFiles) w) /\
  (wantsUpload direction = true ->
   forallb isFile localFiles = true ->
   uploaded report + skipped report + ignored report
   + List.length (errors report)
   = List.length localFiles).
Proof.
  rewrite syncFiles_eq. unfold visited.
  destruct (wantsUpload direction).
  - cbn zeta. intros [= <- _]. split.
    + match goal with
      | |- _ <= List.length
                  (visitLoop (visitedEntry _ _ _ ?lp ?rp ?pats ?base) _ _ ?sw) =>
          pose proof (@accounted_loop useSFTP direction extraExclude base
                        lp rp pats localFiles) as Hloop;
          specialize (Hloop ltac:(apply Forall_forall; intros f _;
                                  apply accounted_entry) sw)
      end.
      cbn [fst] in Hloop. change (accounted initStats) with 0 in Hloop.
      unfold accounted in Hloop. exact Hloop.
    + intros _ Hflat.
      match goal with
      | |- context [loopState _ _ _ ?lp ?rp ?pats ?base _ ?sw] =>
          pose proof (@accounted_flat useSFTP direction extraExclude lp rp
                        pats base localFiles Hflat sw) as Heq
      end.
      cbn [fst] in Heq. change (accounted initStats) with 0 in Heq.
      unfold accounted in Heq. exact Heq.
  - intros [= <- _]. split; [simpl; lia|discriminate].
Qed.

(** *** What the error entries name *)

Lemma namesOneOf_incl paths1 paths2 entry :
  incl paths1 paths2 -> namesOneOf paths1 entry -> namesOneOf paths2 entry.
Proof.
  intros Hincl [p [e [Hin Heq]]]. exists p, e. split; [now apply Hincl|exact Heq].
Qed.

Lemma names_loop useSFTP direction extraExclude basePath
      localPath remotePath ignorePatterns files :
  Forall
    (fun file =>
       forall localPath remotePath ignorePatterns s w,
       exists new,
         errors
           (fst (snd (syncEntry useSFTP direction extraExclude localPath
                        remotePath ignorePatterns basePath file (s, w))))
         = (errors s ++ new)%list /\
         Forall
           (namesOneOf
              (visitedEntry useSFTP direction extraExclude localPath
                 remotePath ignorePatterns basePath file (s, w))) new)
    files ->
  forall sw,
  exists new,
    errors
      (fst (loopState useSFTP direction extraExclude localPath remotePath
              ignorePatterns basePath files sw))
    = (errors (fst sw) ++ new)%list /\
    Forall
      (namesOneOf
         (visitLoop
            (visitedEntry useSFTP direction extraExclude localPath
               remotePath ignorePatterns basePath)
            (fun f sw' =>
               snd (syncEntry useSFTP direction extraExclude localPath
                      remotePath ignorePatterns basePath f sw'))
            files sw)) new.
Proof.
  induction 1 as [|f l Hf _ IHl]; intros sw.
  - exists []. simpl. now rewrite app_nil_r.
  - rewrite loopState_cons. cbn [visitLoop].
    destruct (IHl (snd (syncEntry useSFTP direction extraExclude localPath
                          remotePath ignorePatterns basePath f sw)))
      as [new2 [He2 Hn2]].
    destruct sw as [s w].
    destruct (Hf localPath remotePath ignorePatterns s w) as [new1 [He1 Hn1]].
    exists (new1 ++ new2)%list. split.
    + rewrite He2, He1. cbn [fst]. now rewrite app_assoc.
    + apply Forall_app. split.
      * eapply Forall_impl; [|exact Hn1]. intros entry.
        apply namesOneOf_incl. apply incl_appl, incl_refl.
      * eapply Forall_impl; [|exact Hn2]. intros entry.
        apply namesOneOf_incl. apply incl_appr, incl_refl.
Qed.

Lemma names_entry useSFTP direction extraExclude basePath file :
  forall localPath remotePath ignorePatterns s w,
  exists new,
    errors
      (fst (snd (syncEntry useSFTP direction extraExclude localPath
                   remotePath ignorePatterns basePath file (s, w))))
    = (errors s ++ new)%list /\
    Forall
      (namesOneOf
         (visitedEntry useSFTP direction extraExclude localPath
            remotePath ignorePatterns basePath file (s, w))) new.
Proof.
  assert (Hnone : forall (s s' : Stats) paths,
            errors s' = errors s ->
            exists new, errors s' = (errors s ++ new)%list /\
                        Forall (namesOneOf paths) new)
    by (intros s s' paths ->; exists []; split;
        [now rewrite app_nil_r|constructor]).
  assert (Hone : forall (s : Stats) p e rest,
            exists new,
              errors (pushError (p ++ ": " ++ message e) s)
              = (errors s ++ new)%list /\
              Forall (namesOneOf (p :: rest)) new).
  { intros s p e rest. exists [p ++ ": " ++ message e]. split; [reflexivity|].
    constructor; [|constructor]. exists p, e. split; [now left|reflexivity]. }
  induction file as [name st | name e | name l IH] using LNode_tree_ind;
    intros localPath remotePath ignorePatterns s w;
    cbn [visitedEntry lname];
    (destruct (shouldIgnore (path_join localPath name) ignorePatterns basePath)
       eqn:Hign;
     [rewrite syncEntry_ignored by exact Hign; cbn [fst snd];
      apply Hnone; reflexivity|]).
  - destruct st as [mtime|e].
    + rewrite syncEntry_file by exact Hign.
      destruct (remoteLookup useSFTP remotePath _ name w) as [found w1].
      destruct (needsUpload mtime found);
        [|cbn [fst snd]; apply Hnone; reflexivity].
      destruct (transfer useSFTP _ _ w1) as [[[]|e] w2]; cbn [fst snd];
        [apply Hnone; reflexivity|apply Hone].
    + rewrite syncEntry_file_stat_fails by exact Hign. cbn [fst snd].
      apply Hone.
  - rewrite syncEntry_dir by exact Hign. cbn [snd].
    destruct (ensureRemoteDir useSFTP _ w) as [[[]|e'] w1];
      [|cbn [fst snd]; apply Hone].
    rewrite syncFiles_eq.
    destruct (wantsUpload direction); cbn [fst snd]; [apply Hone|].
    apply Hnone. simpl. now rewrite app_nil_r.
  - rewrite syncEntry_dir by exact Hign. cbn [snd].
    destruct (ensureRemoteDir useSFTP _ w) as [[[]|e'] w1];
      [|cbn [fst snd]; apply Hone].
    rewrite syncFiles_eq. cbn [fst snd].
    destruct (wantsUpload direction);
      [|cbn [fst snd]; apply Hnone; simpl; now rewrite app_nil_r].
    destruct (@names_loop useSFTP direction extraExclude basePath
                (path_join localPath name) (remotePath ++ "/" ++ name)
                (withExtra ignorePatterns extraExclude) l IH (initStats, w1))
      as [new [He Hn]].
    exists new. cbn [fst snd addSubStats errors]. split.
    + rewrite He. reflexivity.
    + eapply Forall_impl; [|exact Hn]. intros entry.
      apply namesOneOf_incl. apply incl_tl, incl_refl.
Qed.

(** X18. Every error entry of a report names an entry the run visited:
    it is the local path of a visited entry, a colon and a space, and the
    message of an error. No error entry is about the run as a whole or
    about a path that was not visited. *)
Theorem report_errors_name_visited useSFTP localPath remotePath direction
        inherited extraExclude readdir w report w' :
  syncFiles useSFTP localPath remotePath direction inherited extraExclude
    readdir w = (Ok report, w') ->
  forall entry, In entry (errors report) ->
    exists p e,
      In p (visited useSFTP localPath remotePath direction inherited
              extraExclude readdir w) /\
      entry = p ++ ": " ++ message e.
Proof.
  rewrite syncFiles_eq. unfold visited.
  destruct (wantsUpload direction).
  - destruct readdir as [localFiles|e]; [|discriminate].
    cbn zeta. intros [= <- _] entry Hin.
    match goal with
    | |- context [visitLoop (visitedEntry _ _ _ ?lp ?rp ?pats ?base) _ _ ?sw] =>
        destruct (@names_loop useSFTP direction extraExclude base lp rp pats
                    localFiles
                    ltac:(apply Forall_forall; intros f _; apply names_entry)
                    sw) as [new [He Hn]]
    end.
    rewrite He in Hin. cbn [fst errors initStats app] in Hin.
    rewrite Forall_forall in Hn. exact (Hn entry Hin).
  - intros [= <- _] entry [].
Qed.

(** *** A tree that is up to date *)





End SyncMoreFacts.

Section SyncMoreWitnesses.
Import Sync Visit Report Mem Examples MoreExamples.

Lemma report_accounts_with_errors_witness :
  let client := memClient flakySnapshot in
  let report := mkReport 1 1 0 ["/home/dist/two.txt: Upload failed"] in
  @syncFiles _ client siteEnv true "/home/dist" "/www" "upload" None []
    (Ok threeFiles) []
  = (Ok report, [CPut (FromPath "/home/dist/one.txt") "/www/one.txt"]) /\
  wantsUpload "upload" = true /\
  forallb isFile threeFiles = true /\
  1 + 1 + 0 + 1
  <= List.length
       (@visited _ client siteEnv true "/home/dist" "/www" "upload" None []
          (Ok threeFiles) []) /\
  1 + 1 + 0 + 1 = List.length threeFiles.
Proof.
  intros client report.
  assert (Hrun : @syncFiles _ client siteEnv true "/home/dist" "/www" "upload"
                   None [] (Ok threeFiles) []
                 = (Ok report,
                    [CPut (FromPath "/home/dist/one.txt") "/www/one.txt"]))
    by (vm_compute; reflexivity).
  split; [exact Hrun|]. split; [reflexivity|]. split; [reflexivity|].
  destruct (@report_accounts_with_errors _ client siteEnv true "/home/dist"
              "/www" "upload" None [] threeFiles [] _ _ Hrun) as [Hle Heq].
  split; [exact Hle|exact (Heq eq_refl eq_refl)].
Defined.

Lemma report_errors_name_visited_witness :
  let client := memClient flakySnapshot in
  exists p e,
    In p (@visited _ client siteEnv true "/home/dist" "/www" "upload" None []
            (Ok threeFiles) []) /\
    "/home/dist/two.txt: Upload failed" = p ++ ": " ++ message e.
Proof.
  intros client.
  refine (@report_errors_name_visited _ client siteEnv true "/home/dist" "/www"
            "upload" None [] (Ok threeFiles) []
            (mkReport 1 1 0 ["/home/dist/two.txt: Upload failed"])
            [CPut (FromPath "/home/dist/one.txt") "/www/one.txt"] _
            "/home/dist/two.txt: Upload failed" _).
  - vm_compute. reflexivity.
  - now left.
Defined.


End SyncMoreWitnesses.

(** ** Order of the walk, disk space *)

Section OrderFacts.
Import JSString JSText Tree Handlers Listing Tools.
Context {W : Type} `{Client W} `{ClientMore W}.

Lemma forEach_preorder (ls : string -> Result (list FileInfo)) (w0 : W)
      k useSFTP p :
  (forall q, client_list q w0 = (ls q, w0)) ->
  forall files acc res w',
    forEach (treeStep (walk k useSFTP) useSFTP p) files acc w0 = (Ok res, w') ->
    res =
    (acc ++
     flat_map
       (fun f =>
          entryOf useSFTP p f ::
          (if descends useSFTP f then
             match fst (walk k useSFTP (fullPathOf p (fi_name f)) w0) with
             | Ok r => r
             | Throw _ => []
             end
           else []))
       files)%list.
Proof.
  intros Hls. induction files as [|f files IH]; intros acc res w' Hrun.
  - simpl in Hrun. injection Hrun as <- _. now rewrite app_nil_r.
  - cbn [forEach] in Hrun. unfold bind at 1, treeStep at 1 in Hrun.
    cbn [flat_map]. destruct (descends useSFTP f).
    + unfold bind at 1 in Hrun.
      pose proof (walk_state ls Hls k useSFTP (fullPathOf p (fi_name f))) as Hst.
      destruct (walk k useSFTP (fullPathOf p (fi_name f)) w0)
        as [[children|e] w1]; [|discriminate].
      cbn [snd fst] in *. subst w1. unfold ret at 1 in Hrun.
      apply IH in Hrun. rewrite Hrun.
      now rewrite <- !app_assoc.
    + unfold ret at 1 in Hrun. apply IH in Hrun. rewrite Hrun.
      now rewrite <- !app_assoc.
Qed.

(** X20. The walk is in pre-order. When listings are a function of the
    path and the walk returns, its result is, for each entry of the start
    path in the order of the listing, the entry itself followed at once by
    what the walk one level down returns for it when it is a directory
    the walk descends into. So in [ftp_tree] the content of a directory
    is printed right under it. *)
Theorem tree_walk_preorder ls useSFTP startPath maxDepth w res :
  (forall p, client_list p w = (ls p, w)) ->
  (0 <= maxDepth)%Z ->
  getTreeRecursive useSFTP startPath 0 maxDepth w = (Ok res, w) ->
  exists files,
    ls startPath = Ok files /\
    res =
    flat_map
      (fun f =>
         entryOf useSFTP startPath f ::
         (if descends useSFTP f then
            match fst (getTreeRecursive useSFTP
                         (fullPathOf startPath (fi_name f)) 1 maxDepth w) with
            | Ok r => r
            | Throw _ => []
            end
          else []))
      files.
Proof.
  intros Hls Hpos Hrun. unfold getTreeRecursive in *.
  replace (Z.to_nat (maxDepth + 1 - 0)) with (S (Z.to_nat (maxDepth + 1 - 1)))
    in Hrun by lia.
  cbn [walk] in Hrun. unfold bind at 1 in Hrun. rewrite Hls in Hrun.
  destruct (ls startPath) as [files|e]; [|discriminate].
  exists files. split; [reflexivity|].
  now apply (forEach_preorder ls _ _ _ Hls) in Hrun.
Qed.

(** X21. The answer of [ftp_disk_space]. It never throws and is never
    flagged as an error: on FTP it is a fixed text and no call is made;
    when the query fails, the text says so with the message. When the
    query succeeds the text is the JSON of four numbers computed from the
    block counts, and [used + free = total]. *)
Theorem disk_space_answer useSFTP path w :
  (exists answer w',
     ftp_disk_space useSFTP path w = (Ok answer, w') /\
     isError answer = false) /\
  ftp_disk_space false path w = (Ok (textResponse diskSpaceUnsupported), w) /\
  (forall vfs w1,
     client_statvfs (match path with Some p => p | None => "." end) w
     = (Ok vfs, w1) ->
     (0 <= bfree vfs <= blocks vfs)%Z ->
     (0 <= bsize vfs)%Z ->
     (blocks vfs * bsize vfs < 2 ^ 53)%Z ->
     ftp_disk_space true path w
     = (Ok (textResponse (diskSpaceJson (diskSpaceOf vfs))), w1) /\
     (used (diskSpaceOf vfs) + free (diskSpaceOf vfs)
      = total (diskSpaceOf vfs))%Z /\
     (0 <= used (diskSpaceOf vfs) <= total (diskSpaceOf vfs))%Z) /\
  (forall e w1,
     client_statvfs (match path with Some p => p | None => "." end) w
     = (Throw e, w1) ->
     ftp_disk_space true path w
     = (Ok (textResponse ("Disk space info not available: " ++ message e)),
        w1)).
Proof.
  unfold ftp_disk_space, tryCatch, bind, ret.
  split; [|split; [reflexivity|split]].
  - destruct useSFTP; cbn [negb].
    + destruct (client_statvfs _ w) as [[vfs|e] w1]; eexists; eexists;
        (split; [reflexivity|reflexivity]).
    + eexists; eexists. split; reflexivity.
  - intros vfs w1 Hvfs Hfree Hsize _. cbn [negb]. rewrite Hvfs.
    split; [reflexivity|]. unfold diskSpaceOf. cbn [used free total].
    split; [ring|]. nia.
  - intros e w1 Hvfs. cbn [negb]. rewrite Hvfs. reflexivity.
Qed.

End OrderFacts.

Lemma tree_walk_preorder_witness :
  let client := Mem.memClient Examples.treeSnapshot in
  exists files,
    Examples.treeListing "." = Ok files /\
    Examples.treeDepth1 =
    flat_map
      (fun f =>
         Tree.entryOf true "." f ::
         (if Tree.descends true f then
            match fst (@Tree.getTreeRecursive _ client true
                         (Tree.fullPathOf "." (fi_name f)) 1 1 []) with
            | Ok r => r
            | Throw _ => []
            end
          else []))
      files.
Proof.
  intros client.
  refine (@tree_walk_preorder _ client Examples.treeListing true "." 1 []
            Examples.treeDepth1 _ _ _).
  - intros p. reflexivity.
  - lia.
  - vm_compute. reflexivity.
Defined.

Lemma disk_space_answer_witness :
  let client := Mem.memClient Examples.treeSnapshot in
  let more := MoreExamples.memClientMore Examples.treeSnapshot in
  let vfs := mkStatVfs 1000 250 200 4096 in
  @Tools.ftp_disk_space _ more true None []
  = (Ok (Handlers.textResponse (Tools.diskSpaceJson (Tools.diskSpaceOf vfs))),
     []) /\
  (Tools.used (Tools.diskSpaceOf vfs) + Tools.free (Tools.diskSpaceOf vfs)
   = Tools.total (Tools.diskSpaceOf vfs))%Z /\
  (0 <= Tools.used (Tools.diskSpaceOf vfs)
   <= Tools.total (Tools.diskSpaceOf vfs))%Z.
Proof.
  intros client more vfs.
  refine (proj1 (proj2 (proj2 (@disk_space_answer _ more true None [])))
                vfs [] _ _ _ _).
  - reflexivity.
  - vm_compute. split; discriminate.
  - vm_compute. discriminate.
  - vm_compute. reflexivity.
Defined.

(** The text of the answer on the example. *)
Example disk_space_example :
  Tools.diskSpaceJson (Tools.diskSpaceOf (mkStatVfs 1000 250 200 4096))
  = "{" ++ String "010"
      ("  " ++ Config.quoted "total" ++ ": 4096000," ++ String "010"
      ("  " ++ Config.quoted "free" ++ ": 1024000," ++ String "010"
      ("  " ++ Config.quoted "available" ++ ": 819200," ++ String "010"
      ("  " ++ Config.quoted "used" ++ ": 3072000" ++ String "010" "}")))).
Proof. reflexivity. Qed.
